(** * Reports API (app_flask.py): normalizer and report store

    A shallow embedding of [src/app_flask.py]: the payload normalizer
    ([pick], [clean_b64], [parse_report_payload]), the store lifecycle
    ([init_db]) and the request handlers ([health], [crear_reporte],
    [listar_reportes], [borrar_todos]), followed by the properties of the
    specification that were checked against them, by worked examples, and
    by further properties of the code.

    Conventions of the model
    - A decoded JSON body is a [json] value; a Python [dict] is a finite map
      from strings to [json] (stdpp's [gmap]); a Python [str] is the string
      of the UTF-8 bytes of its code points, a lone surrogate (which a [str]
      can hold and UTF-8 cannot encode) being written in the same three-byte
      form ([has_surrogate]).
    - A Python [float] is a binary64 number ([PrimFloat.float]); a Python
      [int] is an unbounded [Z].
    - A Python call either returns or raises: [result A] is [Ok a] or
      [Raise e].  An exception that reaches Flask is answered with HTTP 500
      ([http_status]).
    - The SQLite file is an optional table ([database]); each handler takes
      the database and returns the new database with its outcome.  A
      statement that raises leaves the database as it was.
    - The two readings of the clock taken by [parse_report_payload] are
      explicit arguments.
    - What CPython and SQLite fix and the repository does not (reading a
      float from text, printing floats and containers, converting a stored
      number to text) is a parameter: the class [Runtime]. *)

From Stdlib Require Import ZArith String Ascii List Bool Lia.
From Stdlib Require Import PrimFloat FloatOps FloatAxioms SpecFloat.
From stdpp Require Import gmap strings list sorting pretty.

Set Warnings "-register-all,-inexact-float".

Local Open Scope Z_scope.

(** ** Exceptions and results *)

(** The Python exceptions that the modelled code can raise.  [SqliteError]
    stands for every subclass of [sqlite3.Error] (missing table or column,
    a parameter of a type the driver cannot bind, no key left).
    [UnicodeEncodeError] is a subclass of [ValueError]. *)
Inductive exn : Type :=
| TypeError
| ValueError
| UnicodeEncodeError
| OverflowError
| KeyError
| SqliteError.

Inductive result (A : Type) : Type :=
| Ok (a : A)
| Raise (e : exn).
Arguments Ok {A} a.
Arguments Raise {A} e.

#[global] Instance result_ret : MRet result := @Ok.
#[global] Instance result_bind : MBind result := fun A B f c =>
  match c with
  | Ok a => f a
  | Raise e => Raise e
  end.

Definition is_ok {A} (c : result A) : bool :=
  match c with
  | Ok _ => true
  | Raise _ => false
  end.

(** [except (TypeError, ValueError)]: the two exceptions the normalizer
    catches around [float(...)], with the subclass of the second. *)
Definition caught (e : exn) : bool :=
  match e with
  | TypeError | ValueError | UnicodeEncodeError => true
  | _ => false
  end.

(** ** JSON values as Python objects *)

Inductive json : Type :=
| JNull
| JBool (b : bool)
| JInt (z : Z)
| JFloat (f : float)
| JStr (s : string)
| JList (l : list json)
| JDict (m : gmap string json).

Definition is_none (v : json) : bool :=
  match v with
  | JNull => true
  | _ => false
  end.

Definition is_str (v : json) : bool :=
  match v with
  | JStr _ => true
  | _ => false
  end.

(** Python truthiness ([bool(v)]), used by [or] and [not]. *)
Definition truthy (v : json) : bool :=
  match v with
  | JNull => false
  | JBool b => b
  | JInt z => negb (z =? 0)
  | JFloat f => negb (f =? 0)%float
  | JStr s => negb (String.eqb s "")
  | JList l => match l with [] => false | _ => true end
  | JDict m => match map_to_list m with [] => false | _ => true end
  end.

(** ** SQL values

    The storage classes of SQLite that the service can produce. *)
Inductive sqlval : Type :=
| SNull
| SInt (z : Z)
| SReal (f : float)
| SText (s : string).

(** The declared column types of the [CREATE TABLE] and [ALTER TABLE]
    statements of [init_db]. *)
Inductive coltype : Type :=
| TINTEGER
| TREAL
| TTEXT.

(** ** The language and storage runtimes

    Three library functions are called by the service but fixed by CPython
    and SQLite rather than by this repository.  The definitions that call
    them and the theorems about these take an arbitrary [Runtime]. *)
Class Runtime : Type := {
  (** [float(s)] for a [str]: [None] when [s] is not a float literal
      ([ValueError]). *)
  str_to_float : string -> option float;
  (** [str(v)] for a float, a list or a dict. *)
  py_repr : json -> string;
  (** SQLite's conversion of a value that does not have the storage class
      its column prefers and is not covered by [apply_affinity] below. *)
  sqlite_coerce : coltype -> sqlval -> sqlval
}.

(** ** Numbers *)

(** [float(z)] for an [int]: the nearest binary64 number, ties to even;
    [OverflowError] when that is not finite. *)
Definition float_of_int (z : Z) : result float :=
  match binary_normalize 53 1024 z 0 false with
  | S754_infinity _ => Raise OverflowError
  | sf => Ok (SF2Prim sf)
  end.

(** The float that a column of type REAL gives back for the float [f] put
    into it: SQLite keeps a float of integer value as an integer, which
    loses the sign of a negative zero; every other float comes back as it
    went in. *)
Definition real_cell (f : float) : float := if (f =? 0)%float then 0%float else f.

(** [-90.0 <= lat <= 90.0] and [-180.0 <= lon <= 180.0]. *)
Definition lat_in_range (f : float) : bool := ((-90 <=? f) && (f <=? 90))%float.
Definition lon_in_range (f : float) : bool := ((-180 <=? f) && (f <=? 180))%float.

(** ** Clock *)

Record datetime : Type := {
  year : Z; month : Z; day : Z;
  hour : Z; minute : Z; second : Z; microsecond : Z
}.

(** Decimal digits of [z], left-padded with zeros to [width] characters. *)
Fixpoint zeros (n : nat) : string :=
  match n with
  | O => ""
  | S n => String "0" (zeros n)
  end.

Definition zpad (width : nat) (z : Z) : string :=
  let s := pretty z in zeros (width - String.length s) +:+ s.

(** [d.isoformat(timespec="seconds")]. *)
Definition isoformat_seconds (d : datetime) : string :=
  zpad 4 (year d) +:+ "-" +:+ zpad 2 (month d) +:+ "-" +:+ zpad 2 (day d)
  +:+ "T" +:+ zpad 2 (hour d) +:+ ":" +:+ zpad 2 (minute d) +:+ ":" +:+ zpad 2 (second d).

(** [d.isoformat()]: the microseconds are written unless they are zero. *)
Definition isoformat (d : datetime) : string :=
  if microsecond d =? 0 then isoformat_seconds d
  else isoformat_seconds d +:+ "." +:+ zpad 6 (microsecond d).

(** ** Text *)

Definition code (a : ascii) : Z := Z.of_nat (nat_of_ascii a).

(** ASCII lower case. *)
Definition lower (a : ascii) : ascii :=
  if (65 <=? code a) && (code a <=? 90) then ascii_of_nat (nat_of_ascii a + 32) else a.

Fixpoint lower_string (s : string) : string :=
  match s with
  | EmptyString => EmptyString
  | String a s' => String (lower a) (lower_string s')
  end.

(** SQLite compares the names of columns without regard to ASCII case. *)
Definition same_name (a b : string) : bool :=
  String.eqb (lower_string a) (lower_string b).

(** The text holds a lone surrogate, a code point from U+D800 to U+DFFF:
    the byte [ED] followed by a byte from [A0] to [BF].  The UTF-8 codec
    refuses such a text. *)
Fixpoint has_surrogate (s : string) : bool :=
  match s with
  | String a (String b _ as s') =>
      ((code a =? 237) && (160 <=? code b) && (code b <=? 191)) || has_surrogate s'
  | _ => false
  end.

(** [strip_prefix p s] is the rest of [s] after its prefix [p], if [s]
    starts with [p]. *)
Fixpoint strip_prefix (p s : string) : option string :=
  match p, s with
  | EmptyString, _ => Some s
  | String a p', String b s' => if Ascii.eqb a b then strip_prefix p' s' else None
  | String _ _, EmptyString => None
  end.

(** The longest prefix of [s] without the character [c], and what follows. *)
Fixpoint span_until (c : ascii) (s : string) : string * string :=
  match s with
  | EmptyString => (EmptyString, EmptyString)
  | String a s' =>
      if Ascii.eqb a c then (EmptyString, s)
      else let '(m, r) := span_until c s' in (String a m, r)
  end.

(** [k in s] for two strings: [k] occurs in [s]. *)
Fixpoint is_substring (k s : string) : bool :=
  match s with
  | EmptyString => bool_decide (is_Some (strip_prefix k s))
  | String _ s' => bool_decide (is_Some (strip_prefix k s)) || is_substring k s'
  end.

(** [DATA_URI_RE = re.compile(r"^data:[^;]+;base64,")].  A match starts at
    the beginning of the text, reads [data:], then one or more characters
    other than [;], then [;base64,].  The run [[^;]+] is greedy and what
    follows it is a [;], so the run is the longest one.  [DATA_URI_RE_match]
    gives the text after the match. *)
Definition DATA_URI_RE_match (s : string) : option string :=
  match strip_prefix "data:" s with
  | None => None
  | Some r =>
      let '(media, r') := span_until ";" r in
      if String.eqb media "" then None else strip_prefix ";base64," r'
  end.

(** [DATA_URI_RE.sub("", s)]: every match is replaced by the empty text; the
    pattern is anchored at the start, so there is at most one. *)
Definition DATA_URI_RE_sub (s : string) : string :=
  match DATA_URI_RE_match s with
  | Some rest => rest
  | None => s
  end.

(** ** Error messages of the normalizer *)

Definition msg_lat_invalid : string := "lat/latitude inválida".
Definition msg_lon_invalid : string := "lon/longitude inválida".
Definition msg_lat_range : string := "lat fuera de rango (-90..90)".
Definition msg_lon_range : string := "lon fuera de rango (-180..180)".

(** The dictionary built at the end of [parse_report_payload]. *)
Record payload : Type := {
  p_lat : json;
  p_lon : json;
  p_fecha : string;
  p_foto_base64 : json;
  p_mime : json;
  p_filename : json;
  p_accuracy : json;
  p_created_at : string
}.

(** ** Helpers *)

(** [k in data]. *)
Definition py_contains (k : string) (data : json) : result bool :=
  match data with
  | JDict m => Ok (bool_decide (is_Some (m !! k)))
  | JList l => Ok (existsb (fun e => match e with JStr s => String.eqb s k | _ => false end) l)
  | JStr s => Ok (is_substring k s)
  | JNull | JBool _ | JInt _ | JFloat _ => Raise TypeError
  end.

(** [data[k]] for a string [k]. *)
Definition py_getitem (data : json) (k : string) : result json :=
  match data with
  | JDict m =>
      match m !! k with
      | Some v => Ok v
      | None => Raise KeyError
      end
  | _ => Raise TypeError
  end.

(** The local function [pick] of [parse_report_payload]: the first of
    [keys] that [data] has with a value other than [None] gives the value,
    and [default] is returned when there is none. *)
Fixpoint pick (data : json) (keys : list string) (default : json) : result json :=
  match keys with
  | [] => Ok default
  | k :: keys' =>
      b ← py_contains k data;
      if b : bool then
        v ← py_getitem data k;
        if is_none v then pick data keys' default else Ok v
      else pick data keys' default
  end.

(** [clean_b64(s)]: a falsy argument is returned as it is; otherwise
    [re.sub] wants a string and raises [TypeError] for anything else. *)
Definition clean_b64 (s : json) : result json :=
  if negb (truthy s) then Ok s
  else
    match s with
    | JStr x => Ok (JStr (DATA_URI_RE_sub x))
    | _ => Raise TypeError
    end.

(** ** The report store

    The table [reportes].  Its key [id INTEGER PRIMARY KEY AUTOINCREMENT] is
    the [rowid] of a row; [columns] lists the other columns in the order of
    their declaration, and [cells] of a row holds their values in that order.
    [seq] is the counter that AUTOINCREMENT keeps in [sqlite_sequence]: the
    largest key the table has ever held.  A key is a signed 64-bit integer:
    once the largest one, 2^63 - 1, has been used, AUTOINCREMENT refuses
    every INSERT ([insert_row]). *)
Record column : Type := { col_name : string; col_type : coltype }.
Record row : Type := { rowid : Z; cells : list sqlval }.
Record table : Type := { columns : list column; rows : list row; seq : Z }.

(** The database file: [None] before the table exists. *)
Definition database : Type := option table.

(** The columns of the [CREATE TABLE] statement of [init_db], after [id]. *)
Definition reportes_columns : list column :=
  [ {| col_name := "lat"; col_type := TREAL |};
    {| col_name := "lon"; col_type := TREAL |};
    {| col_name := "fecha"; col_type := TTEXT |};
    {| col_name := "foto_base64"; col_type := TTEXT |};
    {| col_name := "mime"; col_type := TTEXT |};
    {| col_name := "filename"; col_type := TTEXT |};
    {| col_name := "accuracy"; col_type := TREAL |};
    {| col_name := "created_at"; col_type := TTEXT |} ].

Definition column_names (t : table) : list string := map col_name (columns t).

(** The names that [PRAGMA table_info(reportes)] reports. *)
Definition table_info (t : table) : list string := "id" :: column_names t.

(** A statement can name the column [name]: the table has a column of that
    name, up to case. *)
Definition has_column (t : table) (name : string) : bool :=
  existsb (same_name name) (table_info t).

(** Position of the column that [name] refers to among [names]. *)
Fixpoint index_of (name : string) (names : list string) : option nat :=
  match names with
  | [] => None
  | n :: names' =>
      if same_name name n then Some O else S <$> index_of name names'
  end.

(** The value a row holds in a column; a short row reads as NULL. *)
Definition cell (t : table) (r : row) (name : string) : sqlval :=
  if same_name name "id" then SInt (rowid r)
  else
    match index_of name (column_names t) with
    | Some i => default SNull (cells r !! i)
    | None => SNull
    end.

Definition is_null (v : sqlval) : bool :=
  match v with
  | SNull => true
  | _ => false
  end.

(** [WHERE lat IS NOT NULL AND lon IS NOT NULL]. *)
Definition listed (t : table) (r : row) : bool :=
  negb (is_null (cell t r "lat")) && negb (is_null (cell t r "lon")).

(** The largest [rowid] among [rs], or [0]. *)
Definition max_rowid (rs : list row) : Z :=
  foldr (fun r acc => Z.max (rowid r) acc) 0 rs.

(** The key AUTOINCREMENT gives to the next row. *)
Definition next_rowid (t : table) : Z := Z.max (seq t) (max_rowid (rows t)) + 1.

(** [DELETE FROM reportes]: the rows go, the AUTOINCREMENT counter stays. *)
Definition delete_all (t : table) : table :=
  {| columns := columns t; rows := []; seq := seq t |}.

(** [ALTER TABLE reportes ADD COLUMN c]: refused when the name is taken,
    in whatever case; otherwise the column is added last and reads NULL in
    every row. *)
Definition add_column (c : column) (t : table) : result table :=
  if has_column t (col_name c) then Raise SqliteError
  else Ok {| columns := columns t ++ [c];
             rows := map (fun r => {| rowid := rowid r; cells := cells r ++ [SNull] |}) (rows t);
             seq := seq t |}.

(** How the [sqlite3] module binds a Python value to a [?]: a text is
    encoded in UTF-8, which fails on a lone surrogate. *)
Definition sql_bind (v : json) : result sqlval :=
  match v with
  | JNull => Ok SNull
  | JBool b => Ok (SInt (if b then 1 else 0))
  | JInt z =>
      if (- 2 ^ 63 <=? z) && (z <? 2 ^ 63) then Ok (SInt z)
      else Raise OverflowError
  | JFloat f => Ok (if PrimFloat.is_nan f then SNull else SReal f)
  | JStr s => if has_surrogate s then Raise UnicodeEncodeError else Ok (SText s)
  | JList _ | JDict _ => Raise SqliteError
  end.

(** A stored value as [fetchall] returns it. *)
Definition json_of_sql (v : sqlval) : json :=
  match v with
  | SNull => JNull
  | SInt z => JInt z
  | SReal f => JFloat f
  | SText s => JStr s
  end.

(** The order of [ORDER BY id DESC]. *)
Definition id_desc (a b : row) : Prop := rowid b <= rowid a.

#[global] Instance id_desc_dec : RelDecision id_desc.
Proof. intros a b. unfold id_desc. apply _. Defined.

(** ** HTTP requests and responses *)

(** What the handlers read of a request: [request.is_json] and
    [request.get_json(silent=True)], which is [None] for a body that is not
    JSON text. *)
Record request : Type := { is_json : bool; get_json : option json }.

Record response : Type := { status : Z; body : json }.

Section Service.
Context {R : Runtime}.

(** [float(v)]. *)
Definition py_float (v : json) : result float :=
  match v with
  | JNull => Raise TypeError
  | JBool b => Ok (if b then 1 else 0)%float
  | JInt z => float_of_int z
  | JFloat f => Ok f
  | JStr s =>
      match str_to_float s with
      | Some f => Ok f
      | None => Raise ValueError
      end
  | JList _ | JDict _ => Raise TypeError
  end.

(** [str(v)]. *)
Definition py_str (v : json) : string :=
  match v with
  | JNull => "None"
  | JBool true => "True"
  | JBool false => "False"
  | JInt z => pretty z
  | JStr s => s
  | JFloat _ | JList _ | JDict _ => py_repr v
  end.

(** [try: v = float(v) / except (TypeError, ValueError): errs.append(msg)]. *)
Definition try_float (v : json) (msg : string) (errs : list string)
  : result (json * list string) :=
  match py_float v with
  | Ok f => Ok (JFloat f, errs)
  | Raise e => if caught e then Ok (v, errs ++ [msg]) else Raise e
  end.

(** [if not (lo <= v <= hi): errs.append(msg)].  This runs only when no
    coercion failed, so [v] is a float; the other case is never reached. *)
Definition range_check (in_range : float -> bool) (v : json) (msg : string)
    (errs : list string) : result (list string) :=
  match v with
  | JFloat f => Ok (if in_range f then errs else errs ++ [msg])
  | _ => Raise TypeError
  end.

(** [if accuracy is not None: try: accuracy = float(accuracy) / except
    (TypeError, ValueError): accuracy = None]. *)
Definition accuracy_float (accuracy : json) : result json :=
  if is_none accuracy then Ok accuracy
  else
    match py_float accuracy with
    | Ok f => Ok (JFloat f)
    | Raise e => if caught e then Ok JNull else Raise e
    end.

(** [parse_report_payload(data)]; [now1] and [now2] are the two readings of
    [datetime.utcnow()], in the order the function takes them. *)
Definition parse_report_payload (now1 now2 : datetime) (data : json)
  : result (payload * list string) :=
  lat ← pick data ["lat"; "latitude"] JNull;
  lon ← pick data ["lon"; "longitude"] JNull;
  fecha ← pick data ["fecha"; "timestamp"] (JStr (isoformat now1));
  foto_base64 ← pick data ["foto_base64"; "photo_base64"] JNull;
  mime ← pick data ["mime"; "photo_mime_type"] JNull;
  filename ← pick data ["filename"; "photo_filename"] JNull;
  accuracy ← pick data ["accuracy"; "accuracy_m"] JNull;
  '(lat, errs) ← try_float lat msg_lat_invalid [];
  '(lon, errs) ← try_float lon msg_lon_invalid errs;
  errs ← match errs with
         | [] =>
             errs ← range_check lat_in_range lat msg_lat_range errs;
             range_check lon_in_range lon msg_lon_range errs
         | _ :: _ => Ok errs
         end;
  accuracy ← accuracy_float accuracy;
  foto_base64 ← clean_b64 foto_base64;
  Ok ({| p_lat := lat;
         p_lon := lon;
         p_fecha := py_str fecha;
         p_foto_base64 := foto_base64;
         p_mime := mime;
         p_filename := filename;
         p_accuracy := accuracy;
         p_created_at := isoformat_seconds now2 |}, errs).

(** *** Storage *)

(** Column affinity: the value as the column stores it and gives it
    back. *)
Definition apply_affinity (ty : coltype) (v : sqlval) : sqlval :=
  match ty, v with
  | _, SNull => SNull
  | TTEXT, SText _ => v
  | TTEXT, SInt z => SText (pretty z)
  | TREAL, SReal f => SReal (real_cell f)
  | TINTEGER, SInt _ => v
  | _, _ => sqlite_coerce ty v
  end.

(** The value given to column [name] by an [INSERT] that lists [assign];
    a column that is not listed gets NULL. *)
Fixpoint assigned (name : string) (assign : list (string * sqlval)) : sqlval :=
  match assign with
  | [] => SNull
  | (n, v) :: assign' => if same_name n name then v else assigned name assign'
  end.

(** [INSERT INTO reportes(...) VALUES(...)] with the values already bound:
    refused when a listed column is missing, and when the largest key has
    been used; otherwise one row is appended under the next key, which is
    returned ([lastrowid]). *)
Definition insert_row (assign : list (string * sqlval)) (t : table) : result (table * Z) :=
  if forallb (fun '(n, _) => has_column t n) assign then
    let id := next_rowid t in
    if id <? 2 ^ 63 then
      let r := {| rowid := id;
                  cells := map (fun c => apply_affinity (col_type c)
                                           (assigned (col_name c) assign))
                               (columns t) |} in
      Ok ({| columns := columns t; rows := rows t ++ [r]; seq := id |}, id)
    else Raise SqliteError
  else Raise SqliteError.

(** The columns that the handlers name in their statements. *)
Definition insert_columns : list string :=
  ["lat"; "lon"; "fecha"; "foto_base64"; "mime"; "filename"; "accuracy"; "created_at"].
Definition select_columns : list string := "id" :: insert_columns.

(** [SELECT ... FROM reportes WHERE lat IS NOT NULL AND lon IS NOT NULL
    ORDER BY id DESC]: the rows kept, in the order returned. *)
Definition select_rows (t : table) : list row :=
  merge_sort id_desc (List.filter (listed t) (rows t)).

(** *** init_db *)

(** [CREATE TABLE IF NOT EXISTS reportes(...)]. *)
Definition create_table_if_not_exists (db : database) : table :=
  match db with
  | Some t => t
  | None => {| columns := reportes_columns; rows := []; seq := 0 |}
  end.

(** [for sql in alters: c.execute(sql)]; a statement that is refused stops
    the loop, the ones before it stay done. *)
Fixpoint exec_alters (alters : list column) (t : table) : database * result unit :=
  match alters with
  | [] => (Some t, Ok tt)
  | c :: alters' =>
      match add_column c t with
      | Ok t' => exec_alters alters' t'
      | Raise e => (Some t, Raise e)
      end
  end.

Definition init_db (db : database) : database * result unit :=
  let t := create_table_if_not_exists db in
  let cols : gset string := list_to_set (table_info t) in
  let alters :=
    (if bool_decide ("mime" ∈ cols) then [] else [ {| col_name := "mime"; col_type := TTEXT |} ])
    ++ (if bool_decide ("filename" ∈ cols) then [] else [ {| col_name := "filename"; col_type := TTEXT |} ])
    ++ (if bool_decide ("accuracy" ∈ cols) then [] else [ {| col_name := "accuracy"; col_type := TREAL |} ])
    ++ (if bool_decide ("created_at" ∈ cols) then [] else [ {| col_name := "created_at"; col_type := TTEXT |} ]) in
  exec_alters alters t.

(** *** Routes *)

(** [request.get_json(silent=True) or {}]. *)
Definition request_data (req : request) : json :=
  match get_json req with
  | Some v => if truthy v then v else JDict ∅
  | None => JDict ∅
  end.

(** The parameters of the [INSERT] of [crear_reporte], bound in order. *)
Definition bind_payload (p : payload) : result (list (string * sqlval)) :=
  lat ← sql_bind (p_lat p);
  lon ← sql_bind (p_lon p);
  fecha ← sql_bind (JStr (p_fecha p));
  foto_base64 ← sql_bind (p_foto_base64 p);
  mime ← sql_bind (p_mime p);
  filename ← sql_bind (p_filename p);
  accuracy ← sql_bind (p_accuracy p);
  created_at ← sql_bind (JStr (p_created_at p));
  Ok [ ("lat", lat); ("lon", lon); ("fecha", fecha); ("foto_base64", foto_base64);
       ("mime", mime); ("filename", filename); ("accuracy", accuracy);
       ("created_at", created_at) ].

(** [c.execute(INSERT ..., params)]: the statement is prepared against the
    table, then the parameters are bound, then the row is written. *)
Definition execute_insert (p : payload) (db : database) : result (table * Z) :=
  match db with
  | None => Raise SqliteError
  | Some t =>
      if forallb (has_column t) insert_columns then
        assign ← bind_payload p;
        insert_row assign t
      else Raise SqliteError
  end.

(** [POST /reportes]. *)
Definition crear_reporte (now1 now2 : datetime) (req : request) (db : database)
  : database * result response :=
  if negb (is_json req) then
    (db, Ok {| status := 415;
               body := JDict {[ "error" := JStr "Content-Type debe ser application/json" ]} |})
  else
    match parse_report_payload now1 now2 (request_data req) with
    | Raise e => (db, Raise e)
    | Ok (p, errs) =>
        match errs with
        | _ :: _ =>
            (db, Ok {| status := 400;
                       body := JDict {[ "error" := JStr "payload inválido";
                                        "detalles" := JList (JStr <$> errs) ]} |})
        | [] =>
            match execute_insert p db with
            | Raise e => (db, Raise e)
            | Ok (t', rid) =>
                (Some t', Ok {| status := 201;
                                body := JDict {[ "ok" := JBool true; "id" := JInt rid ]} |})
            end
        end
    end.

(** One element of the array of [GET /reportes]: the dictionary built from
    a fetched row. *)
Definition report_fields (t : table) (r : row) : gmap string json :=
  list_to_map ((fun name => (name, json_of_sql (cell t r name))) <$> select_columns).

Definition report_json (t : table) (r : row) : json := JDict (report_fields t r).

(** [GET /reportes]. *)
Definition listar_reportes (db : database) : database * result response :=
  match db with
  | None => (db, Raise SqliteError)
  | Some t =>
      if forallb (has_column t) select_columns then
        (db, Ok {| status := 200; body := JList (report_json t <$> select_rows t) |})
      else (db, Raise SqliteError)
  end.

(** [DELETE /borrar_todos]. *)
Definition borrar_todos (db : database) : database * result response :=
  match db with
  | None => (db, Raise SqliteError)
  | Some t =>
      (Some (delete_all t),
       Ok {| status := 200;
             body := JDict {[ "ok" := JBool true;
                              "mensaje" := JStr "Todos los reportes eliminados" ]} |})
  end.

End Service.

(** * Vocabulary of the properties *)

(** ** Field resolution

    The policy in the words of the specification: a key is present when the
    mapping binds it to something other than null; the legacy key is tried
    first, then the current one, then the default. *)
Definition present (m : gmap string json) (k : string) : option json :=
  match m !! k with
  | Some v => if is_none v then None else Some v
  | None => None
  end.

Definition resolve_field (m : gmap string json) (legacy current : string) (d : json) : json :=
  match present m legacy with
  | Some v => v
  | None =>
      match present m current with
      | Some v => v
      | None => d
      end
  end.

(** The seven logical fields of a mapping, before coercion. *)
Definition raw_lat (m : gmap string json) : json := resolve_field m "lat" "latitude" JNull.
Definition raw_lon (m : gmap string json) : json := resolve_field m "lon" "longitude" JNull.
Definition raw_fecha (m : gmap string json) (d : json) : json := resolve_field m "fecha" "timestamp" d.
Definition raw_foto (m : gmap string json) : json := resolve_field m "foto_base64" "photo_base64" JNull.
Definition raw_mime (m : gmap string json) : json := resolve_field m "mime" "photo_mime_type" JNull.
Definition raw_filename (m : gmap string json) : json := resolve_field m "filename" "photo_filename" JNull.
Definition raw_accuracy (m : gmap string json) : json := resolve_field m "accuracy" "accuracy_m" JNull.

(** The values of the seven logical fields that a client sends, each
    possibly left out, and the two mappings that carry them: under the
    legacy names and under the current names. *)
Record fields : Type := {
  f_lat : option json; f_lon : option json; f_fecha : option json;
  f_foto : option json; f_mime : option json; f_filename : option json;
  f_accuracy : option json
}.

Definition set_key (k : string) (v : option json) (m : gmap string json) : gmap string json :=
  match v with
  | Some x => <[k := x]> m
  | None => m
  end.

Definition legacy_payload (f : fields) : gmap string json :=
  set_key "lat" (f_lat f) (set_key "lon" (f_lon f) (set_key "fecha" (f_fecha f)
  (set_key "foto_base64" (f_foto f) (set_key "mime" (f_mime f)
  (set_key "filename" (f_filename f) (set_key "accuracy" (f_accuracy f) ∅)))))).

Definition current_payload (f : fields) : gmap string json :=
  set_key "latitude" (f_lat f) (set_key "longitude" (f_lon f) (set_key "timestamp" (f_fecha f)
  (set_key "photo_base64" (f_foto f) (set_key "photo_mime_type" (f_mime f)
  (set_key "photo_filename" (f_filename f) (set_key "accuracy_m" (f_accuracy f) ∅)))))).

(** ** Conditions on field values *)

(** An integer is too large for [float] when its nearest binary64 number is
    not finite; every other value either converts or is refused with
    [TypeError] or [ValueError]. *)
Definition fits_float (v : json) : bool :=
  match v with
  | JInt z => is_ok (float_of_int z)
  | _ => true
  end.

(** The photo values that [clean_b64] accepts: the falsy ones and strings. *)
Definition cleanable (v : json) : bool := negb (truthy v) || is_str v.

(** The values of a type that the [sqlite3] module takes as a parameter:
    no list, no dict, and no integer outside 64 bits. *)
Definition bindable (v : json) : bool :=
  match v with
  | JList _ | JDict _ => false
  | JInt z => (- 2 ^ 63 <=? z) && (z <? 2 ^ 63)
  | _ => true
  end.

(** A text that UTF-8 can encode: it holds no lone surrogate. *)
Definition encodable (s : string) : bool := negb (has_surrogate s).

(** The values that the [sqlite3] module can bind: those of a type it
    takes, a text among them only when UTF-8 can encode it. *)
Definition storable (v : json) : bool :=
  bindable v && match v with JStr s => encodable s | _ => true end.

(** A text made of ASCII characters only. *)
Fixpoint ascii_only (s : string) : bool :=
  match s with
  | EmptyString => true
  | String a s' => (code a <? 128) && ascii_only s'
  end.

(** The error messages of out-of-range coordinates, in the order in which
    the normalizer appends them. *)
Definition range_errors (lat lon : float) : list string :=
  (if lat_in_range lat then [] else [msg_lat_range])
  ++ (if lon_in_range lon then [] else [msg_lon_range]).

(** The error messages of failed coercions, in the same order. *)
Definition coercion_errors (lat_fails lon_fails : bool) : list string :=
  (if lat_fails then [msg_lat_invalid] else [])
  ++ (if lon_fails then [msg_lon_invalid] else []).

(** ** Data URI prefixes *)

Fixpoint has_char (c : ascii) (s : string) : bool :=
  match s with
  | EmptyString => false
  | String a s' => Ascii.eqb a c || has_char c s'
  end.

(** A media type as the pattern reads it: one or more characters, none of
    them a semicolon. *)
Definition media_type (media : string) : bool :=
  negb (String.eqb media "") && negb (has_char ";" media).

(** [s] begins with [data:<media-type>;base64,]. *)
Definition has_data_uri_prefix (s : string) : Prop :=
  exists media rest, media_type media = true /\ s = "data:" +:+ media +:+ ";base64," +:+ rest.

(** ** Store states *)

(** The table has a column written exactly [name]: the test of
    [name in cols] in [init_db]. *)
Definition has_exact (t : table) (name : string) : bool :=
  bool_decide (name ∈ table_info t).

(** The table has every column that the handlers name, written as the
    service writes it. *)
Definition up_to_date (t : table) : bool := forallb (has_exact t) insert_columns.

(** The columns of the table are among those of the current schema: the
    table is of this version of the service or of an older one. *)
Definition subschema (t : table) : Prop :=
  Forall (fun name => name ∈ col_name <$> reportes_columns) (column_names t).

(** The columns that [init_db] adds to a table that lacks them. *)
Definition evolvable_columns : list column :=
  [ {| col_name := "mime"; col_type := TTEXT |};
    {| col_name := "filename"; col_type := TTEXT |};
    {| col_name := "accuracy"; col_type := TREAL |};
    {| col_name := "created_at"; col_type := TTEXT |} ].

(** The columns among them that a table lacks. *)
Definition missing (t : table) : list column :=
  List.filter (fun c => negb (has_exact t (col_name c))) evolvable_columns.

(** Additive evolution in the words of the specification: the columns [cs]
    are added after the existing ones, which stay as they are; every row
    keeps its key and its cells and reads NULL in the added columns; the
    counter of keys is untouched. *)
Definition pad_row (n : nat) (r : row) : row :=
  {| rowid := rowid r; cells := cells r ++ replicate n SNull |}.

Definition extend (t : table) (cs : list column) : table :=
  {| columns := columns t ++ cs;
     rows := pad_row (length cs) <$> rows t;
     seq := seq t |}.

(** The table has a key left for the next INSERT: the largest key,
    [2^63 - 1], has not been used. *)
Definition key_left (t : table) : bool := next_rowid t <? 2 ^ 63.

(** ** Histories of requests *)

Inductive call : Type :=
| Post (now1 now2 : datetime) (req : request)
| Listar
| Borrar
| Startup.

Section History.
Context {R : Runtime}.

(** The part of [parse_report_payload] after the seven calls of [pick]. *)
Definition validate (now2 : datetime) (lat lon fecha foto_base64 mime filename accuracy : json)
  : result (payload * list string) :=
  '(lat, errs) ← try_float lat msg_lat_invalid [];
  '(lon, errs) ← try_float lon msg_lon_invalid errs;
  errs ← match errs with
         | [] =>
             errs ← range_check lat_in_range lat msg_lat_range errs;
             range_check lon_in_range lon msg_lon_range errs
         | _ :: _ => Ok errs
         end;
  accuracy ← accuracy_float accuracy;
  foto_base64 ← clean_b64 foto_base64;
  Ok ({| p_lat := lat;
         p_lon := lon;
         p_fecha := py_str fecha;
         p_foto_base64 := foto_base64;
         p_mime := mime;
         p_filename := filename;
         p_accuracy := accuracy;
         p_created_at := isoformat_seconds now2 |}, errs).

(** Both coordinates of the mapping convert to a float within range. *)
Definition valid_coordinates (m : gmap string json) : Prop :=
  exists lat lon,
    py_float (raw_lat m) = Ok lat /\ lat_in_range lat = true
    /\ py_float (raw_lon m) = Ok lon /\ lon_in_range lon = true.

(** [float(v)] does not return a number. *)
Definition coercion_fails (v : json) : bool := negb (is_ok (py_float v)).

(** One request served.  A start of the process runs [init_db] and answers
    nothing; the histories considered below start from a table on which it
    does not raise. *)
Definition exec (c : call) (db : database) : database * list (result response) :=
  match c with
  | Post now1 now2 req => let '(db', r) := crear_reporte now1 now2 req db in (db', [r])
  | Listar => let '(db', r) := listar_reportes db in (db', [r])
  | Borrar => let '(db', r) := borrar_todos db in (db', [r])
  | Startup => (fst (init_db db), [])
  end.

Fixpoint run (cs : list call) (db : database) : database * list (result response) :=
  match cs with
  | [] => (db, [])
  | c :: cs' =>
      let '(db1, rs1) := exec c db in
      let '(db2, rs2) := run cs' db1 in
      (db2, rs1 ++ rs2)
  end.

End History.

(** The id that a response issues: the [id] of a 201 response. *)
Definition issued_id (r : result response) : option Z :=
  match r with
  | Ok resp =>
      if status resp =? 201 then
        match body resp with
        | JDict m =>
            match m !! "id" with
            | Some (JInt i) => Some i
            | _ => None
            end
        | _ => None
        end
      else None
  | Raise _ => None
  end.

Definition issued_ids (rs : list (result response)) : list Z := omap issued_id rs.

(** The status that the client sees: an exception that no handler catches
    is answered by Flask with 500. *)
Definition http_status (r : result response) : Z :=
  match r with
  | Ok resp => status resp
  | Raise _ => 500
  end.

(** * Vocabulary of the further properties *)

(** ** The liveness route *)

(** [GET /health]. *)
Definition health (db : database) : database * result response :=
  (db, Ok {| status := 200; body := JDict {[ "status" := JStr "ok" ]} |}).

(** ** The normalizer *)

(** The keys that [parse_report_payload] passes to [pick], in the order of
    its seven calls. *)
Definition field_names : list string :=
  [ "lat"; "latitude"; "lon"; "longitude"; "fecha"; "timestamp";
    "foto_base64"; "photo_base64"; "mime"; "photo_mime_type";
    "filename"; "photo_filename"; "accuracy"; "accuracy_m" ].

(** [k in data] evaluates to [False]: it neither finds [k] nor raises. *)
Definition absent (data : json) (k : string) : bool :=
  match py_contains k data with
  | Ok false => true
  | _ => false
  end.

(** The lists of errors that the normalizer can return. *)
Definition error_lists : list (list string) :=
  [ [];
    [msg_lat_invalid]; [msg_lon_invalid]; [msg_lat_invalid; msg_lon_invalid];
    [msg_lat_range]; [msg_lon_range]; [msg_lat_range; msg_lon_range] ].

(** The dictionary [payload] that [parse_report_payload] returns, as a
    mapping: the eight keys of the literal at the end of the function. *)
Definition payload_dict (p : payload) : gmap string json :=
  {[ "lat" := p_lat p;
     "lon" := p_lon p;
     "fecha" := JStr (p_fecha p);
     "foto_base64" := p_foto_base64 p;
     "mime" := p_mime p;
     "filename" := p_filename p;
     "accuracy" := p_accuracy p;
     "created_at" := JStr (p_created_at p) ]}.

(** A value of an optional text field that comes back from the store as it
    went in: a string or null. *)
Definition text_or_null (v : json) : bool := is_str v || is_none v.

(** ** Stores written by the service *)

(** The row holds a latitude and a longitude, both within range. *)
Definition coordinates_in_range (t : table) (r : row) : Prop :=
  exists lat lon,
    cell t r "lat" = SReal lat /\ lat_in_range lat = true
    /\ cell t r "lon" = SReal lon /\ lon_in_range lon = true.

(** The state of a store that [init_db] created and that only the routes
    have written since: the table has the columns of the [CREATE TABLE]
    statement, the keys grow in the order of storage, the counter of keys is
    the number of keys issued so far and no key is above it, and every row
    holds coordinates within range. *)
Definition kept (t : table) : Prop :=
  columns t = reportes_columns
  /\ StronglySorted Z.lt (rowid <$> rows t)
  /\ 0 <= seq t
  /\ Forall (fun r => 0 < rowid r <= seq t) (rows t)
  /\ Forall (coordinates_in_range t) (rows t).

(** The table has the four columns that every version of the service
    declares. *)
Definition has_base_columns (t : table) : bool :=
  forallb (has_exact t) ["lat"; "lon"; "fecha"; "foto_base64"].

(** [ALTER TABLE ... ADD COLUMN] accepts the column: the table has no column
    of that name, in whatever case. *)
Definition addable (t : table) (c : column) : bool := negb (has_column t (col_name c)).

Section Appended.
Context {R : Runtime}.

(** The row that an [INSERT] with the bound values [assign] appends to the
    table: the next key and, in each column, the value assigned to it as
    the column stores it. *)
Definition appended (t : table) (assign : list (string * sqlval)) : row :=
  {| rowid := next_rowid t;
     cells := map (fun c => apply_affinity (col_type c) (assigned (col_name c) assign))
                  (columns t) |}.

End Appended.

(** * A runtime for the worked examples

    The examples at the end of the file run the service on concrete
    requests, which needs one [Runtime].  [ascii_float] implements
    [float(s)] for ASCII text as CPython reads it: surrounding whitespace is
    dropped, single underscores may separate digits, the text is an
    optionally signed decimal literal with an optional exponent, or [inf],
    [infinity] or [nan] in any case; the value is the nearest binary64
    number.  No example prints a float or a container as text, and none
    stores a number in a column of another type, so the two other functions
    of the runtime are never reached; they are the simplest ones. *)

Definition is_space (a : ascii) : bool :=
  ((9 <=? code a) && (code a <=? 13)) || (code a =? 32).

Definition is_digit (a : ascii) : bool := (48 <=? code a) && (code a <=? 57).

Fixpoint drop_spaces (l : list ascii) : list ascii :=
  match l with
  | [] => []
  | a :: l' => if is_space a then drop_spaces l' else l
  end.

Definition strip (l : list ascii) : list ascii :=
  rev (drop_spaces (rev (drop_spaces l))).

(** An underscore is accepted only between two digits; [prev] is the
    character before [l]. *)
Fixpoint drop_underscores (prev : ascii) (l : list ascii) : option (list ascii) :=
  match l with
  | [] => if Ascii.eqb prev "_" then None else Some []
  | c :: l' =>
      if Ascii.eqb c "_" then
        if is_digit prev then drop_underscores c l' else None
      else if Ascii.eqb prev "_" && negb (is_digit c) then None
      else cons c <$> drop_underscores c l'
  end.

(** The leading digits of [l], as numbers, and what follows them. *)
Fixpoint span_digits (l : list ascii) : list Z * list ascii :=
  match l with
  | [] => ([], [])
  | a :: l' =>
      if is_digit a then let '(ds, r) := span_digits l' in ((code a - 48) :: ds, r)
      else ([], l)
  end.

Definition digits_value (ds : list Z) : Z := fold_left (fun acc d => 10 * acc + d) ds 0.

Definition parse_sign (l : list ascii) : bool * list ascii :=
  match l with
  | a :: l' =>
      if Ascii.eqb a "-" then (true, l')
      else if Ascii.eqb a "+" then (false, l')
      else (false, l)
  | [] => (false, l)
  end.

(** The text after the digits: nothing, or [e] with a signed integer. *)
Definition parse_exponent (l : list ascii) : option Z :=
  match l with
  | [] => Some 0
  | a :: l' =>
      if Ascii.eqb (lower a) "e" then
        let '(neg, l'') := parse_sign l' in
        let '(ds, rest) := span_digits l'' in
        match ds, rest with
        | _ :: _, [] => Some (if neg then - digits_value ds else digits_value ds)
        | _, _ => None
        end
      else None
  end.

(** The binary64 number nearest to [d * 10 ^ e], for [d >= 0], with the sign
    [neg]; ties go to the even mantissa. *)
Definition decimal_to_float (neg : bool) (d e : Z) : float :=
  if d =? 0 then (if neg then neg_zero else zero)
  else if 0 <=? e then
    SF2Prim (binary_normalize 53 1024 ((if neg then - d else d) * 10 ^ e) 0 false)
  else
    let '(q, e', l) := SFdiv_core_binary 53 1024 d 0 (10 ^ (- e)) 0 in
    SF2Prim (binary_round_aux 53 1024 neg q e' l).

Definition parse_decimal (neg : bool) (l : list ascii) : option float :=
  let '(ip, l1) := span_digits l in
  let '(fp, l2) :=
    match l1 with
    | a :: l1' => if Ascii.eqb a "." then span_digits l1' else ([], l1)
    | [] => ([], l1)
    end in
  match ip ++ fp with
  | [] => None
  | ds =>
      e ← parse_exponent l2;
      Some (decimal_to_float neg (digits_value ds) (e - Z.of_nat (length fp)))
  end.

Definition parse_float_chars (l : list ascii) : option float :=
  let '(neg, body) := parse_sign l in
  let word := string_of_list_ascii (lower <$> body) in
  if String.eqb word "inf" || String.eqb word "infinity" then
    Some (if neg then neg_infinity else infinity)
  else if String.eqb word "nan" then Some nan
  else parse_decimal neg body.

Definition ascii_float (s : string) : option float :=
  l ← drop_underscores "000" (list_ascii_of_string s);
  parse_float_chars (strip l).

#[global] Instance example_runtime : Runtime := {|
  str_to_float := ascii_float;
  py_repr := fun _ => "";
  sqlite_coerce := fun _ v => v
|}.

(** * Data of the worked examples *)

Definition clock1 : datetime :=
  {| year := 2025; month := 8; day := 20;
     hour := 20; minute := 0; second := 5; microsecond := 1234 |}.

Definition clock2 : datetime :=
  {| year := 2025; month := 8; day := 20;
     hour := 20; minute := 0; second := 5; microsecond := 2345 |}.

Definition json_request (m : gmap string json) : request :=
  {| is_json := true; get_json := Some (JDict m) |}.

(** The table as [init_db] creates it in a new file. *)
Definition fresh_store : table :=
  {| columns := reportes_columns; rows := []; seq := 0 |}.

(** The two example payloads of the docstring of [crear_reporte], as the
    specification completes them. *)
Definition legacy_example : gmap string json :=
  {[ "lat" := JFloat 10.1; "lon" := JFloat (-74.8); "fecha" := JStr "2025-08-20";
     "foto_base64" := JStr "data:image/png;base64,QUJD" ]}.

Definition current_example : gmap string json :=
  {[ "timestamp" := JStr "2025-08-20T20:00:00Z"; "latitude" := JFloat 10.1;
     "longitude" := JFloat (-74.8); "accuracy_m" := JFloat 12.3;
     "photo_base64" := JStr "QUJD"; "photo_mime_type" := JStr "image/jpeg";
     "photo_filename" := JStr "x.jpg" ]}.

(** Valid coordinates with a photo that is a number. *)
Definition numeric_photo_example : gmap string json :=
  {[ "lat" := JFloat 10.1; "lon" := JFloat (-74.8); "foto_base64" := JInt 123 ]}.

(** A latitude out of range and no longitude. *)
Definition lat_only_example : gmap string json := {[ "lat" := JInt 100 ]}.

(** Both coordinates out of range. *)
Definition out_of_range_example : gmap string json :=
  {[ "lat" := JFloat 95.5; "lon" := JInt (-200) ]}.

(** A latitude that is not a number. *)
Definition bad_lat_example : gmap string json :=
  {[ "lat" := JStr "not-a-number"; "lon" := JFloat (-74.8) ]}.

(** An accuracy that is not a number, alone and with a numeric photo. *)
Definition bad_accuracy_example : gmap string json :=
  {[ "lat" := JFloat 10.1; "lon" := JFloat (-74.8); "accuracy" := JStr "bad" ]}.

Definition bad_accuracy_numeric_photo_example : gmap string json :=
  {[ "lat" := JFloat 10.1; "lon" := JFloat (-74.8); "accuracy" := JStr "bad";
     "foto_base64" := JInt 123 ]}.

(** Fields of unusual types: a list as mime, a number as filename and as
    timestamp, a null fecha. *)
Definition odd_types_example : gmap string json :=
  {[ "lat" := JStr " 4.5 "; "lon" := JBool true; "fecha" := JNull;
     "timestamp" := JInt 20250820; "mime" := JList [JInt 1];
     "filename" := JInt 7 ]}.

(** A table of an older version without [foto_base64]. *)
Definition no_photo_table : table :=
  {| columns := [ {| col_name := "lat"; col_type := TREAL |};
                  {| col_name := "lon"; col_type := TREAL |};
                  {| col_name := "fecha"; col_type := TTEXT |} ];
     rows := [];
     seq := 0 |}.

(** A table of an older version without [accuracy] and [created_at], with
    two rows. *)
Definition older_table : table :=
  {| columns := [ {| col_name := "lat"; col_type := TREAL |};
                  {| col_name := "lon"; col_type := TREAL |};
                  {| col_name := "fecha"; col_type := TTEXT |};
                  {| col_name := "foto_base64"; col_type := TTEXT |};
                  {| col_name := "mime"; col_type := TTEXT |};
                  {| col_name := "filename"; col_type := TTEXT |} ];
     rows := [ {| rowid := 1;
                  cells := [SReal 10.1; SReal (-74.8); SText "2025-08-20";
                            SText "QUJD"; SNull; SNull] |};
               {| rowid := 4;
                  cells := [SReal 4.5; SReal 1; SText "2025-08-21";
                            SNull; SText "image/png"; SText "a.png"] |} ];
     seq := 6 |}.

(** A current table with three rows, one of them without a latitude. *)
Definition three_rows : table :=
  {| columns := reportes_columns;
     rows := [ {| rowid := 2;
                  cells := [SReal 10.1; SReal (-74.8); SText "2025-08-20"; SText "QUJD";
                            SNull; SNull; SNull; SText "2025-08-20T20:00:05"] |};
               {| rowid := 5;
                  cells := [SNull; SReal 3; SText "2025-08-21"; SNull;
                            SNull; SNull; SNull; SNull] |};
               {| rowid := 7;
                  cells := [SReal 4.5; SReal 1; SText "2025-08-22"; SNull;
                            SNull; SNull; SReal 12.3; SText "2025-08-22T08:00:00"] |} ];
     seq := 7 |}.

(** A latitude that is not a number and a longitude far out of range. *)
Definition bad_lat_far_lon_example : gmap string json :=
  {[ "lat" := JStr "not-a-number"; "lon" := JInt 500 ]}.

(** Valid coordinates with a photo that is a list. *)
Definition list_photo_example : gmap string json :=
  {[ "lat" := JInt 1; "lon" := JInt 1; "foto_base64" := JList [JStr "QUJD"] ]}.

(** A legacy key bound to null beside its current key. *)
Definition null_legacy_example : gmap string json :=
  {[ "lat" := JNull; "latitude" := JInt 5; "lon" := JInt 6; "longitude" := JInt 7 ]}.

(** The seven values of [current_example]. *)
Definition example_fields : fields :=
  {| f_lat := Some (JFloat 10.1); f_lon := Some (JFloat (-74.8));
     f_fecha := Some (JStr "2025-08-20T20:00:00Z"); f_foto := Some (JStr "QUJD");
     f_mime := Some (JStr "image/jpeg"); f_filename := Some (JStr "x.jpg");
     f_accuracy := Some (JFloat 12.3) |}.

(** A history: two reports created, one request refused, everything
    deleted, the process restarted, the reports listed. *)
Definition example_history : list call :=
  [ Post clock1 clock2 (json_request legacy_example);
    Post clock1 clock2 (json_request bad_lat_example);
    Post clock1 clock2 (json_request current_example);
    Borrar;
    Startup;
    Listar ].

(** A table with a column written MIME. *)
Definition upper_case_table : table :=
  {| columns := [ {| col_name := "lat"; col_type := TREAL |};
                  {| col_name := "lon"; col_type := TREAL |};
                  {| col_name := "fecha"; col_type := TTEXT |};
                  {| col_name := "foto_base64"; col_type := TTEXT |};
                  {| col_name := "MIME"; col_type := TTEXT |} ];
     rows := [];
     seq := 0 |}.

(** Closes a goal about concrete data by running the model. *)
Ltac evaluate := vm_compute; reflexivity.

(** * Data of the further examples *)

(** The legacy example with a key that the service does not read. *)
Definition extra_key_example : gmap string json :=
  <["created_at" := JStr "1999-01-01T00:00:00"]> legacy_example.

(** Bodies that are JSON but no object. *)
Definition array_request : request :=
  {| is_json := true; get_json := Some (JList [JStr "a"; JInt 1]) |}.

Definition array_with_name_request : request :=
  {| is_json := true; get_json := Some (JList [JStr "lon"]) |}.

(** A JSON request whose body is the empty array. *)
Definition empty_array_request : request :=
  {| is_json := true; get_json := Some (JList []) |}.


(** A history with reports created before and after a deletion. *)
Definition long_history : list call :=
  [ Post clock1 clock2 (json_request legacy_example);
    Post clock1 clock2 (json_request out_of_range_example);
    Post clock1 clock2 (json_request current_example);
    Listar;
    Borrar;
    Post clock1 clock2 (json_request numeric_photo_example);
    Startup;
    Post clock1 clock2 (json_request bad_accuracy_example);
    Post clock1 clock2 (json_request current_example) ].

(** A latitude that is an integer beyond the range of a float. *)
Definition oversized_lat_example : gmap string json :=
  {[ "lat" := JInt (10 ^ 400); "lon" := JStr "x"; "foto_base64" := JInt 1 ]}.

(** A latitude that is an integer beyond the range of a float, beside a
    valid longitude. *)
Definition oversized_lat_only_example : gmap string json :=
  {[ "lat" := JInt (10 ^ 400); "lon" := JFloat (-74.8) ]}.

(** The text of the lone surrogate U+D800, which [json.loads] reads from
    the escape backslash-u-d800. *)
Definition lone_surrogate : string :=
  String (ascii_of_nat 237) (String (ascii_of_nat 160) (String (ascii_of_nat 128) "")).

(** Valid coordinates with a lone surrogate as mime. *)
Definition surrogate_mime_example : gmap string json :=
  {[ "lat" := JFloat 10.1; "lon" := JFloat (-74.8); "mime" := JStr lone_surrogate ]}.

(** Valid coordinates with a lone surrogate as fecha and a list as mime. *)
Definition surrogate_fecha_list_mime_example : gmap string json :=
  {[ "lat" := JFloat 10.1; "lon" := JFloat (-74.8); "fecha" := JStr lone_surrogate;
     "mime" := JList [JStr "image/png"] ]}.

(** A current table whose last row has the largest key. *)
Definition last_key_table : table :=
  {| columns := reportes_columns;
     rows := [ {| rowid := 2 ^ 63 - 1;
                  cells := [SReal 4.5; SReal 1; SText "2025-08-22"; SNull;
                            SNull; SNull; SNull; SText "2025-08-22T08:00:00"] |} ];
     seq := 2 ^ 63 - 1 |}.

(** * Properties *)

Section Properties.
Context {R : Runtime}.

(** ** The normalizer on a mapping *)

Lemma pick_dict_cons (m : gmap string json) k keys d :
  pick (JDict m) (k :: keys) d =
  match present m k with
  | Some v => Ok v
  | None => pick (JDict m) keys d
  end.
Proof.
  unfold present. cbn [pick py_contains py_getitem mbind result_bind].
  destruct (m !! k) as [v|] eqn:E.
  - rewrite bool_decide_eq_true_2 by eauto. cbn. by destruct (is_none v).
  - rewrite bool_decide_eq_false_2; [done|]. by intros [? ?].
Qed.

Lemma pick_dict (m : gmap string json) legacy current d :
  pick (JDict m) [legacy; current] d = Ok (resolve_field m legacy current d).
Proof.
  rewrite !pick_dict_cons. unfold resolve_field.
  destruct (present m legacy); [done|]. by destruct (present m current).
Qed.

Lemma parse_dict now1 now2 (m : gmap string json) :
  parse_report_payload now1 now2 (JDict m) =
  validate now2 (raw_lat m) (raw_lon m) (raw_fecha m (JStr (isoformat now1)))
           (raw_foto m) (raw_mime m) (raw_filename m) (raw_accuracy m).
Proof.
  unfold parse_report_payload. rewrite !pick_dict. reflexivity.
Qed.

(** A value that is not an oversized integer converts, or is refused with
    an exception that the normalizer catches. *)
Lemma py_float_cases v :
  fits_float v = true ->
  (exists f, py_float v = Ok f) \/ (exists e, py_float v = Raise e /\ caught e = true).
Proof.
  destruct v as [|b|z|f|s|l|m]; cbn; intros Hfit; eauto.
  - destruct (float_of_int z); [eauto | done].
  - destruct (str_to_float s); eauto.
Qed.

Lemma try_float_ok v f msg errs :
  py_float v = Ok f -> try_float v msg errs = Ok (JFloat f, errs).
Proof. unfold try_float. by intros ->. Qed.

Lemma try_float_caught v e msg errs :
  py_float v = Raise e -> caught e = true -> try_float v msg errs = Ok (v, errs ++ [msg]).
Proof. unfold try_float. by intros -> ->. Qed.

Lemma try_float_raise v e msg errs :
  py_float v = Raise e -> caught e = false -> try_float v msg errs = Raise e.
Proof. unfold try_float. by intros -> ->. Qed.

Lemma accuracy_float_fits v :
  fits_float v = true ->
  exists a, accuracy_float v = Ok a /\ (a = JNull \/ exists f, py_float v = Ok f /\ a = JFloat f).
Proof.
  intros Hfit. unfold accuracy_float.
  destruct (is_none v) eqn:Hn.
  - destruct v; try done. eauto.
  - destruct (py_float_cases v Hfit) as [[f ->]|[e [-> ->]]]; eauto 6.
Qed.

Lemma accuracy_float_fails v e :
  py_float v = Raise e -> caught e = true -> accuracy_float v = Ok JNull.
Proof.
  intros He Hc. unfold accuracy_float. rewrite He, Hc.
  by destruct v.
Qed.

Lemma clean_b64_cleanable v :
  cleanable v = true ->
  clean_b64 v = Ok (match v with JStr x => JStr (DATA_URI_RE_sub x) | _ => v end).
Proof.
  unfold cleanable, clean_b64. destruct (truthy v) eqn:Ht; cbn.
  - destruct v; done.
  - intros _. destruct v as [| | | |s| |]; try done.
    cbn in Ht. apply negb_false_iff, String.eqb_eq in Ht as ->. reflexivity.
Qed.

Lemma clean_b64_not_cleanable v :
  cleanable v = false -> clean_b64 v = Raise TypeError.
Proof.
  unfold cleanable, clean_b64. destruct (truthy v); cbn; [|done].
  by destruct v.
Qed.

(** What [validate] returns, by the outcome of the two coercions. *)
Lemma validate_inv now2 lat lon fecha foto mime filename accuracy p errs :
  validate now2 lat lon fecha foto mime filename accuracy = Ok (p, errs) ->
  match py_float lat, py_float lon with
  | Ok a, Ok b => errs = range_errors a b /\ p_lat p = JFloat a /\ p_lon p = JFloat b
  | _, _ => errs = coercion_errors (coercion_fails lat) (coercion_fails lon)
  end
  /\ p_fecha p = py_str fecha
  /\ clean_b64 foto = Ok (p_foto_base64 p)
  /\ p_mime p = mime
  /\ p_filename p = filename
  /\ accuracy_float accuracy = Ok (p_accuracy p)
  /\ p_created_at p = isoformat_seconds now2.
Proof.
  unfold validate, try_float, coercion_fails, range_errors, coercion_errors.
  destruct (py_float lat) as [a|e1] eqn:Ha; [|destruct (caught e1); [|done]];
    (destruct (py_float lon) as [b|e2] eqn:Hb; [|destruct (caught e2); [|done]]);
    cbn;
    try (destruct (lat_in_range a)); try (destruct (lon_in_range b)); cbn;
    (destruct (accuracy_float accuracy) as [acc|]; [|done]);
    (destruct (clean_b64 foto) as [ph|]; [|done]); cbn;
    intros [= <- <-]; cbn; auto 10.
Qed.

(** The normalizer returns when no coercion overflows and the photo is
    acceptable to [clean_b64]. *)
Lemma validate_returns now2 lat lon fecha foto mime filename accuracy :
  fits_float lat = true -> fits_float lon = true -> fits_float accuracy = true ->
  cleanable foto = true ->
  exists p errs, validate now2 lat lon fecha foto mime filename accuracy = Ok (p, errs).
Proof.
  intros Hlat Hlon Hacc Hfoto. unfold validate.
  destruct (accuracy_float_fits _ Hacc) as (a & -> & _).
  rewrite (clean_b64_cleanable _ Hfoto).
  destruct (py_float_cases _ Hlat) as [[x Hx]|[e1 [He1 Hc1]]];
    destruct (py_float_cases _ Hlon) as [[y Hy]|[e2 [He2 Hc2]]].
  - rewrite (try_float_ok _ _ _ _ Hx). cbn. rewrite (try_float_ok _ _ _ _ Hy). cbn. eauto.
  - rewrite (try_float_ok _ _ _ _ Hx). cbn. rewrite (try_float_caught _ _ _ _ He2 Hc2). cbn. eauto.
  - rewrite (try_float_caught _ _ _ _ He1 Hc1). cbn.
    rewrite (try_float_ok _ _ _ _ Hy). cbn. eauto.
  - rewrite (try_float_caught _ _ _ _ He1 Hc1). cbn.
    rewrite (try_float_caught _ _ _ _ He2 Hc2). cbn. eauto.
Qed.

Lemma validate_raises now2 lat lon fecha foto mime filename accuracy :
  fits_float lat = true -> fits_float lon = true -> fits_float accuracy = true ->
  cleanable foto = false ->
  validate now2 lat lon fecha foto mime filename accuracy = Raise TypeError.
Proof.
  intros Hlat Hlon Hacc Hfoto. unfold validate.
  destruct (accuracy_float_fits _ Hacc) as (a & -> & _).
  rewrite (clean_b64_not_cleanable _ Hfoto).
  destruct (py_float_cases _ Hlat) as [[x Hx]|[e1 [He1 Hc1]]];
    destruct (py_float_cases _ Hlon) as [[y Hy]|[e2 [He2 Hc2]]].
  - rewrite (try_float_ok _ _ _ _ Hx). cbn. rewrite (try_float_ok _ _ _ _ Hy). cbn. done.
  - rewrite (try_float_ok _ _ _ _ Hx). cbn. rewrite (try_float_caught _ _ _ _ He2 Hc2). done.
  - rewrite (try_float_caught _ _ _ _ He1 Hc1). cbn.
    rewrite (try_float_ok _ _ _ _ Hy). done.
  - rewrite (try_float_caught _ _ _ _ He1 Hc1). cbn.
    rewrite (try_float_caught _ _ _ _ He2 Hc2). done.
Qed.

(** ** Totality *)

(** C9 (as amended): for every input mapping whose lat, lon and accuracy
    values are not integers beyond the range of a float, the normalizer
    returns a record and a list of errors, whatever the types of the mime,
    filename and fecha values, provided the photo value is falsy (absent,
    null, empty, zero, false) or a string; for any other photo value it
    raises TypeError. *)
Theorem normalizer_total_on_cleanable_photo now1 now2 (m : gmap string json) :
  fits_float (raw_lat m) = true ->
  fits_float (raw_lon m) = true ->
  fits_float (raw_accuracy m) = true ->
  (cleanable (raw_foto m) = true ->
     exists p errs, parse_report_payload now1 now2 (JDict m) = Ok (p, errs))
  /\ (cleanable (raw_foto m) = false ->
        parse_report_payload now1 now2 (JDict m) = Raise TypeError).
Proof.
  intros Hlat Hlon Hacc. rewrite parse_dict. split; intros Hfoto.
  - by apply validate_returns.
  - by apply validate_raises.
Qed.

(** ** Coercion errors and range errors *)

Lemma coercion_errors_no_range lf nf :
  (msg_lat_range ∉ coercion_errors lf nf) /\ (msg_lon_range ∉ coercion_errors lf nf).
Proof.
  unfold coercion_errors.
  destruct lf, nf; cbn; split; intros H;
    repeat (apply elem_of_cons in H as [H|H]; [by inversion H|]);
    by apply elem_of_nil in H.
Qed.

Lemma coercion_errors_lat nf : msg_lat_invalid ∈ coercion_errors true nf.
Proof. unfold coercion_errors. cbn. apply elem_of_cons. by left. Qed.

Lemma coercion_errors_lon lf : msg_lon_invalid ∈ coercion_errors lf true.
Proof. unfold coercion_errors. destruct lf; cbn; set_solver. Qed.


(** What the code does for C3 wherever float(...) fails with an exception
    that the normalizer catches: when the lat or the lon of a mapping fails
    to parse with TypeError or ValueError (and no value overflows, and the
    photo is one that [clean_b64] accepts), the normalizer returns, and its
    list of errors is exactly the coercion errors, the one of lat before
    the one of lon: no range was checked. *)
Lemma coercion_failure_reported now1 now2 (m : gmap string json) :
  fits_float (raw_lat m) = true -> fits_float (raw_lon m) = true ->
  fits_float (raw_accuracy m) = true -> cleanable (raw_foto m) = true ->
  coercion_fails (raw_lat m) = true \/ coercion_fails (raw_lon m) = true ->
  exists p errs,
    parse_report_payload now1 now2 (JDict m) = Ok (p, errs)
    /\ errs = coercion_errors (coercion_fails (raw_lat m)) (coercion_fails (raw_lon m))
    /\ (coercion_fails (raw_lat m) = true -> msg_lat_invalid ∈ errs)
    /\ (coercion_fails (raw_lon m) = true -> msg_lon_invalid ∈ errs)
    /\ (msg_lat_range ∉ errs) /\ (msg_lon_range ∉ errs).
Proof.
  intros Hlat Hlon Hacc Hfoto Hfail. rewrite parse_dict.
  destruct (validate_returns now2 (raw_lat m) (raw_lon m)
              (raw_fecha m (JStr (isoformat now1))) (raw_foto m) (raw_mime m)
              (raw_filename m) (raw_accuracy m)) as (p & errs & Hv); try done.
  exists p, errs. split; [exact Hv|].
  apply validate_inv in Hv as [He _].
  assert (Herrs : errs = coercion_errors (coercion_fails (raw_lat m))
                                         (coercion_fails (raw_lon m))).
  { unfold coercion_fails in *.
    destruct (py_float (raw_lat m)); [destruct (py_float (raw_lon m))|]; cbn in *;
      [by destruct Hfail | done | done]. }
  subst errs.
  destruct (coercion_errors_no_range (coercion_fails (raw_lat m)) (coercion_fails (raw_lon m)))
    as [Hno1 Hno2].
  split; [done|]. split; [|split; [|by split]].
  - intros ->. apply coercion_errors_lat.
  - intros ->. apply coercion_errors_lon.
Qed.

(** ** The report timestamp *)

(** C10: the fecha of a normalized record is text: the string form of the
    value that the client sent under fecha, or else under timestamp, of
    whatever JSON type (a string is kept as it is), and the first reading of
    the UTC clock in ISO form, microseconds included, when neither key
    carries a value other than null. *)
Theorem fecha_is_text now1 now2 (m : gmap string json) p errs :
  parse_report_payload now1 now2 (JDict m) = Ok (p, errs) ->
  p_fecha p =
    match present m "fecha", present m "timestamp" with
    | Some v, _ => py_str v
    | None, Some v => py_str v
    | None, None => isoformat now1
    end
  /\ (forall s, present m "fecha" = Some (JStr s) -> p_fecha p = s).
Proof.
  rewrite parse_dict. intros H. apply validate_inv in H as (_ & -> & _).
  unfold raw_fecha, resolve_field.
  destruct (present m "fecha") as [v|]; [|destruct (present m "timestamp")]; cbn;
    split; try done.
  by intros s [= ->].
Qed.

(** ** Legacy and current field names *)

Lemma raw_fields_agree (f : fields) :
  raw_lat (legacy_payload f) = raw_lat (current_payload f)
  /\ raw_lon (legacy_payload f) = raw_lon (current_payload f)
  /\ (forall d, raw_fecha (legacy_payload f) d = raw_fecha (current_payload f) d)
  /\ raw_foto (legacy_payload f) = raw_foto (current_payload f)
  /\ raw_mime (legacy_payload f) = raw_mime (current_payload f)
  /\ raw_filename (legacy_payload f) = raw_filename (current_payload f)
  /\ raw_accuracy (legacy_payload f) = raw_accuracy (current_payload f).
Proof.
  destruct f as [[a|] [b|] [c|] [d|] [e|] [g|] [h|]];
    repeat split; try intros ?; evaluate.
Qed.

(** C5: [pick] over a mapping tries the legacy key first and falls back to
    the current key, a key bound to null counting as absent, and gives one
    value; the normalizer resolves each of its seven fields this way, so a
    payload under the legacy names and a payload under the current names
    that carry the same values normalize to the same result. *)
Theorem field_resolution_legacy_first :
  (forall (m : gmap string json) legacy current d,
     pick (JDict m) [legacy; current] d = Ok (resolve_field m legacy current d))
  /\ (forall now1 now2 (m : gmap string json),
        parse_report_payload now1 now2 (JDict m) =
        validate now2 (raw_lat m) (raw_lon m) (raw_fecha m (JStr (isoformat now1)))
                 (raw_foto m) (raw_mime m) (raw_filename m) (raw_accuracy m))
  /\ (forall now1 now2 (f : fields),
        parse_report_payload now1 now2 (JDict (legacy_payload f)) =
        parse_report_payload now1 now2 (JDict (current_payload f))).
Proof.
  split; [|split].
  - apply pick_dict.
  - apply parse_dict.
  - intros now1 now2 f. rewrite !parse_dict.
    destruct (raw_fields_agree f) as (-> & -> & -> & -> & -> & -> & ->).
    reflexivity.
Qed.

(** ** Photo hygiene *)

Lemma append_cons a (p s : string) : String a p +:+ s = String a (p +:+ s).
Proof. reflexivity. Qed.

Lemma append_nil (s : string) : "" +:+ s = s.
Proof. reflexivity. Qed.

Lemma strip_prefix_app p s : strip_prefix p (p +:+ s) = Some s.
Proof.
  induction p as [|a p IH]; rewrite ?append_cons, ?append_nil; cbn [strip_prefix];
    [by destruct s|].
  by rewrite Ascii.eqb_refl.
Qed.

Lemma strip_prefix_inv p s r : strip_prefix p s = Some r -> s = p +:+ r.
Proof.
  revert s. induction p as [|a p IH]; intros s; cbn [strip_prefix].
  - destruct s; by intros [= <-].
  - destruct s as [|b s]; [done|].
    destruct (Ascii.eqb a b) eqn:E; [|done].
    apply Ascii.eqb_eq in E as ->. intros H. by rewrite (IH _ H), append_cons.
Qed.

Lemma span_until_app c media rest :
  has_char c media = false ->
  span_until c (media +:+ String c rest) = (media, String c rest).
Proof.
  induction media as [|a media IH]; rewrite ?append_cons, ?append_nil;
    cbn [has_char span_until].
  - intros _. by rewrite Ascii.eqb_refl.
  - intros H. apply orb_false_iff in H as [Ha Hm].
    rewrite Ha, (IH Hm). reflexivity.
Qed.

Lemma span_until_inv c s media r :
  span_until c s = (media, r) -> s = media +:+ r /\ has_char c media = false.
Proof.
  revert media r. induction s as [|a s IH]; intros media r; cbn [span_until].
  - by intros [= <- <-].
  - destruct (Ascii.eqb a c) eqn:E.
    + by intros [= <- <-].
    + destruct (span_until c s) as [m' r'] eqn:Hs. intros [= <- <-].
      destruct (IH _ _ eq_refl) as [-> Hm].
      rewrite append_cons. cbn [has_char]. by rewrite E, Hm.
Qed.

Lemma DATA_URI_RE_match_prefix media rest :
  media_type media = true ->
  DATA_URI_RE_match ("data:" +:+ media +:+ ";base64," +:+ rest) = Some rest.
Proof.
  unfold media_type, DATA_URI_RE_match. intros H.
  apply andb_true_iff in H as [Hne Hsemi].
  apply negb_true_iff in Hne, Hsemi.
  rewrite strip_prefix_app.
  change (";base64," +:+ rest) with (String ";" ("base64," +:+ rest)).
  rewrite (span_until_app _ _ _ Hsemi), Hne.
  apply (strip_prefix_app ";base64," rest).
Qed.

Lemma DATA_URI_RE_match_inv s rest :
  DATA_URI_RE_match s = Some rest ->
  exists media, media_type media = true /\ s = "data:" +:+ media +:+ ";base64," +:+ rest.
Proof.
  unfold DATA_URI_RE_match.
  destruct (strip_prefix "data:" s) as [r|] eqn:Hp; [|done].
  destruct (span_until ";" r) as [media r'] eqn:Hs.
  destruct (String.eqb media "") eqn:Hne; [done|].
  intros Hr. exists media.
  apply strip_prefix_inv in Hp, Hr. apply span_until_inv in Hs as [Hs Hm].
  split.
  - unfold media_type. by rewrite Hne, Hm.
  - by rewrite Hp, Hs, Hr.
Qed.

Lemma cleanable_str s : cleanable (JStr s) = true.
Proof. unfold cleanable. cbn. apply orb_true_r. Qed.

(** C6: a photo string that begins with data:<media-type>;base64, (a media
    type being one or more characters other than a semicolon) loses exactly
    that prefix, whatever follows it; any other string is left as it is; the
    empty string and an absent (null) photo pass through unchanged; and the
    photo of the normalized record is the value cleaned this way. *)
Theorem photo_prefix_stripped :
  (forall media rest, media_type media = true ->
     clean_b64 (JStr ("data:" +:+ media +:+ ";base64," +:+ rest)) = Ok (JStr rest))
  /\ (forall s, ~ has_data_uri_prefix s -> clean_b64 (JStr s) = Ok (JStr s))
  /\ clean_b64 (JStr "") = Ok (JStr "")
  /\ clean_b64 JNull = Ok JNull
  /\ (forall now1 now2 (m : gmap string json) p errs,
        parse_report_payload now1 now2 (JDict m) = Ok (p, errs) ->
        clean_b64 (raw_foto m) = Ok (p_foto_base64 p)).
Proof.
  repeat split.
  - intros media rest Hm.
    rewrite clean_b64_cleanable by apply cleanable_str.
    unfold DATA_URI_RE_sub. by rewrite DATA_URI_RE_match_prefix.
  - intros s Hs. rewrite clean_b64_cleanable by apply cleanable_str.
    unfold DATA_URI_RE_sub.
    destruct (DATA_URI_RE_match s) as [rest|] eqn:Hmatch; [|done].
    exfalso. apply Hs. apply DATA_URI_RE_match_inv in Hmatch as (media & ? & ?).
    by exists media, rest.
  - intros now1 now2 m p errs. rewrite parse_dict. intros H.
    by apply validate_inv in H as (_ & _ & ? & _).
Qed.

(** ** Listing *)

Lemma id_desc_trans : Transitive id_desc.
Proof. intros a b c. unfold id_desc. lia. Qed.

Lemma id_desc_total : Total id_desc.
Proof. intros a b. unfold id_desc. lia. Qed.

Lemma same_name_refl a : same_name a a = true.
Proof. unfold same_name. apply String.eqb_refl. Qed.

Lemma same_name_subst a b : same_name a b = true -> forall n, same_name n a = same_name n b.
Proof. unfold same_name. intros H%String.eqb_eq n. by rewrite H. Qed.

Lemma has_exact_spec t name : has_exact t name = true <-> name ∈ table_info t.
Proof. unfold has_exact. apply bool_decide_eq_true. Qed.

Lemma has_exact_false t name : has_exact t name = false <-> name ∉ table_info t.
Proof. unfold has_exact. apply bool_decide_eq_false. Qed.

Lemma resolves_elem name (names : list string) :
  name ∈ names -> existsb (same_name name) names = true.
Proof.
  intros Hin. apply existsb_exists. exists name.
  split; [by apply list_elem_of_In | apply same_name_refl].
Qed.

(** A column written exactly as a statement names it is found. *)
Lemma has_exact_has_column t name : has_exact t name = true -> has_column t name = true.
Proof. intros H%has_exact_spec. by apply resolves_elem. Qed.

Lemma has_column_id t : has_column t "id" = true.
Proof. apply has_exact_has_column, has_exact_spec. unfold table_info. apply list_elem_of_here. Qed.

Lemma up_to_date_insert t :
  up_to_date t = true -> forallb (has_column t) insert_columns = true.
Proof.
  unfold up_to_date. rewrite !forallb_forall. intros H x Hx.
  by apply has_exact_has_column, H.
Qed.

Lemma up_to_date_select t :
  up_to_date t = true -> forallb (has_column t) select_columns = true.
Proof.
  intros H. unfold select_columns. cbn [forallb].
  by rewrite has_column_id, (up_to_date_insert _ H).
Qed.

Lemma is_null_false v : is_null v = false <-> v <> SNull.
Proof. by destruct v. Qed.

Lemma listed_spec t r :
  listed t r = true <-> cell t r "lat" <> SNull /\ cell t r "lon" <> SNull.
Proof.
  unfold listed. rewrite andb_true_iff, !negb_true_iff, !is_null_false. done.
Qed.

Lemma report_fields_lookup t r name :
  name ∈ select_columns ->
  report_fields t r !! name = Some (json_of_sql (cell t r name)).
Proof.
  unfold select_columns, insert_columns. intros H.
  repeat (apply elem_of_cons in H as [->|H]; [evaluate|]).
  by apply elem_of_nil in H.
Qed.


(** The dictionary that the handler builds from a fetched row. *)
Lemma report_json_explicit t r :
  report_json t r
  = JDict {[ "id" := JInt (rowid r);
             "lat" := json_of_sql (cell t r "lat");
             "lon" := json_of_sql (cell t r "lon");
             "fecha" := json_of_sql (cell t r "fecha");
             "foto_base64" := json_of_sql (cell t r "foto_base64");
             "mime" := json_of_sql (cell t r "mime");
             "filename" := json_of_sql (cell t r "filename");
             "accuracy" := json_of_sql (cell t r "accuracy");
             "created_at" := json_of_sql (cell t r "created_at") ]}.
Proof. evaluate. Qed.

(** C4: on a store that has the current columns, GET /reportes answers 200
    with one element per stored row whose lat and lon are both non-null,
    and with no other row: the rows returned are, with their multiplicity,
    the stored rows that hold a latitude and a longitude; they come by id
    descending; a row with a null lat or a null lon is not among them; and
    the element of a row is the object of its nine fields, each with the
    value that the row holds in that column. *)
Theorem listing_filtered_sorted (t : table) :
  up_to_date t = true ->
  exists out,
    listar_reportes (Some t)
      = (Some t,
         Ok {| status := 200;
               body := JList
                 ((fun r =>
                     JDict {[ "id" := JInt (rowid r);
                              "lat" := json_of_sql (cell t r "lat");
                              "lon" := json_of_sql (cell t r "lon");
                              "fecha" := json_of_sql (cell t r "fecha");
                              "foto_base64" := json_of_sql (cell t r "foto_base64");
                              "mime" := json_of_sql (cell t r "mime");
                              "filename" := json_of_sql (cell t r "filename");
                              "accuracy" := json_of_sql (cell t r "accuracy");
                              "created_at" := json_of_sql (cell t r "created_at") ]})
                    <$> out) |})
    /\ out ≡ₚ List.filter (fun r => negb (is_null (cell t r "lat"))
                                     && negb (is_null (cell t r "lon"))) (rows t)
    /\ StronglySorted (fun a b => rowid b <= rowid a) out
    /\ (forall r, r ∈ out <->
                   r ∈ rows t /\ cell t r "lat" <> SNull /\ cell t r "lon" <> SNull).
Proof.
  intros Hup. exists (select_rows t).
  assert (Hperm : select_rows t ≡ₚ List.filter (listed t) (rows t))
    by apply merge_sort_Permutation.
  split; [|split; [|split]].
  - unfold listar_reportes. rewrite (up_to_date_select _ Hup).
    do 4 f_equal; apply list_fmap_ext; intros i r _; apply report_json_explicit.
  - exact Hperm.
  - pose proof id_desc_trans as Htrans. pose proof id_desc_total as Htotal.
    apply (StronglySorted_merge_sort id_desc).
  - intros r. rewrite Hperm, !list_elem_of_In, filter_In, listed_spec. done.
Qed.

End Properties.

(** ** Schema evolution *)

Lemma cols_set t name :
  bool_decide (name ∈ (list_to_set (table_info t) : gset string)) = has_exact t name.
Proof. unfold has_exact. apply bool_decide_ext. apply elem_of_list_to_set. Qed.

Lemma init_db_alters t : init_db (Some t) = exec_alters (missing t) t.
Proof.
  unfold init_db, missing, evolvable_columns.
  cbn [create_table_if_not_exists List.filter col_name].
  rewrite !cols_set.
  by destruct (has_exact t "mime"), (has_exact t "filename"),
    (has_exact t "accuracy"), (has_exact t "created_at").
Qed.

Lemma pad_row_pad a b r : pad_row b (pad_row a r) = pad_row (a + b) r.
Proof.
  unfold pad_row. cbn. f_equal. by rewrite <- app_assoc, replicate_add.
Qed.

Lemma extend_extend t cs cs' : extend (extend t cs) cs' = extend t (cs ++ cs').
Proof.
  unfold extend. cbn. f_equal.
  - by rewrite app_assoc.
  - rewrite <- list_fmap_compose, length_app. apply list_fmap_ext.
    intros i r _. apply pad_row_pad.
Qed.

Lemma extend_nil t : extend t [] = t.
Proof.
  destruct t as [cols rs sq]. unfold extend. cbn. rewrite app_nil_r. f_equal.
  induction rs as [|[id cs] rs IH]; cbn; [done|].
  unfold pad_row at 1. cbn. by rewrite app_nil_r, IH.
Qed.

Lemma add_column_fresh c t :
  has_column t (col_name c) = false -> add_column c t = Ok (extend t [c]).
Proof. unfold add_column. by intros ->. Qed.

Lemma table_info_extend t cs :
  table_info (extend t cs) = table_info t ++ (col_name <$> cs).
Proof. unfold table_info, column_names, extend. cbn. by rewrite map_app. Qed.

Lemma has_column_extend t cs name :
  has_column (extend t cs) name
  = has_column t name || existsb (same_name name) (col_name <$> cs).
Proof. unfold has_column. by rewrite table_info_extend, existsb_app. Qed.

(** Columns that the table does not have, of names that differ beyond
    their case, are added one after the other. *)
Lemma exec_alters_fresh cs t :
  NoDup (lower_string <$> (col_name <$> cs)) ->
  Forall (fun c => has_column t (col_name c) = false) cs ->
  exec_alters cs t = (Some (extend t cs), Ok tt).
Proof.
  revert t. induction cs as [|c cs IH]; intros t Hnd Hfresh.
  - cbn. by rewrite extend_nil.
  - cbn [exec_alters]. apply Forall_cons in Hfresh as [Hc Hcs].
    rewrite !fmap_cons in Hnd. apply NoDup_cons in Hnd as [Hnotin Hnd].
    rewrite (add_column_fresh _ _ Hc), IH, extend_extend; [done | done |].
    rewrite Forall_forall in Hcs. apply Forall_forall. intros c' Hin.
    rewrite has_column_extend, (Hcs c' Hin). cbn.
    rewrite orb_false_r. unfold same_name. apply String.eqb_neq.
    intros Heq. apply Hnotin. rewrite <- Heq.
    apply list_elem_of_fmap. exists (col_name c'). split; [done|].
    apply list_elem_of_fmap. eauto.
Qed.

Lemma index_of_elem name names :
  existsb (same_name name) names = true -> exists i, index_of name names = Some i.
Proof.
  induction names as [|n names IH]; [done|]. cbn.
  destruct (same_name name n); [eauto|]. cbn.
  intros [i ->]%IH. cbn. eauto.
Qed.

Lemma index_of_not_elem name names :
  existsb (same_name name) names = false -> index_of name names = None.
Proof.
  induction names as [|n names IH]; [done|]. cbn.
  destruct (same_name name n); [done|]. cbn. by intros ->%IH.
Qed.

Lemma index_of_app_l name names more i :
  index_of name names = Some i -> index_of name (names ++ more) = Some i.
Proof.
  revert i. induction names as [|n names IH]; intros i; [done|]. cbn.
  destruct (same_name name n); [done|].
  destruct (index_of name names) as [j|]; [|done].
  intros [= <-]. by rewrite (IH j).
Qed.

Lemma index_of_app_r name names more :
  existsb (same_name name) names = false ->
  index_of name (names ++ more) = (fun j => (length names + j)%nat) <$> index_of name more.
Proof.
  induction names as [|n names IH]; cbn.
  - intros _. by destruct (index_of name more).
  - destruct (same_name name n); [done|]. cbn. intros Hnot.
    rewrite (IH Hnot). by destruct (index_of name more).
Qed.

Lemma index_of_column name (cs : list column) i :
  index_of name (col_name <$> cs) = Some i ->
  exists c, cs !! i = Some c /\ same_name name (col_name c) = true.
Proof.
  revert i. induction cs as [|c cs IH]; intros i; [done|]. cbn.
  destruct (same_name name (col_name c)) eqn:E.
  - intros [= <-]. eauto.
  - destruct (index_of name (col_name <$> cs)) as [j|] eqn:Hj; [|done].
    intros [= <-]. cbn. by apply IH.
Qed.

Lemma lookup_padded (l : list sqlval) k i :
  default SNull ((l ++ replicate k SNull) !! i) = default SNull (l !! i).
Proof.
  destruct (decide (i < length l)%nat) as [Hlt|Hge].
  - by rewrite lookup_app_l.
  - rewrite lookup_app_r by lia. rewrite (lookup_ge_None_2 l i) by lia.
    destruct (replicate k SNull !! (i - length l)%nat) as [v|] eqn:E; [|done].
    by apply lookup_replicate in E as [-> _].
Qed.

Lemma has_column_cases t name :
  has_column t name = same_name name "id" || existsb (same_name name) (column_names t).
Proof. reflexivity. Qed.

(** A value of an existing column survives the addition of columns. *)
Lemma cell_extend_old t cs r name :
  has_column t name = true ->
  cell (extend t cs) (pad_row (length cs) r) name = cell t r name.
Proof.
  rewrite has_column_cases. unfold cell.
  destruct (same_name name "id"); [done|]. cbn [orb]. intros Hin.
  destruct (index_of_elem _ _ Hin) as [i Hi].
  unfold column_names, extend in *. cbn [columns cells pad_row].
  rewrite map_app, (index_of_app_l _ _ _ _ Hi), Hi.
  apply lookup_padded.
Qed.

(** An added column reads NULL in a row that had one cell per column. *)
Lemma cell_extend_new t cs r name :
  length (cells r) = length (columns t) ->
  has_column t name = false ->
  cell (extend t cs) (pad_row (length cs) r) name = SNull.
Proof.
  rewrite has_column_cases. unfold cell. intros Hlen [Hid Hnot]%orb_false_iff.
  rewrite Hid.
  unfold column_names, extend in *. cbn [columns cells pad_row].
  rewrite map_app, (index_of_app_r _ _ _ Hnot).
  destruct (index_of name (map col_name cs)) as [j|]; [|done]. cbn.
  rewrite lookup_app_r by (rewrite length_map; lia).
  destruct (replicate (length cs) SNull !! _) as [v|] eqn:E; [|done].
  by apply lookup_replicate in E as [-> _].
Qed.

Lemma missing_spec t c :
  c ∈ missing t <-> c ∈ evolvable_columns /\ has_exact t (col_name c) = false.
Proof.
  unfold missing. rewrite !list_elem_of_In, filter_In, negb_true_iff. done.
Qed.

(** Among the names of the current schema, one of the four names that
    [init_db] tests is found up to case only where it is written exactly. *)
Lemma no_case_variant name (names : list string) :
  name ∈ col_name <$> evolvable_columns ->
  Forall (fun n => n ∈ col_name <$> reportes_columns) names ->
  name ∉ names ->
  existsb (same_name name) names = false.
Proof.
  intros Hname Hall. induction Hall as [|n names Hn Hall IH]; [done|].
  intros [Hne Hnot]%not_elem_of_cons. cbn [existsb]. rewrite (IH Hnot), orb_false_r.
  clear IH Hnot Hall. cbn in Hname, Hn.
  repeat (apply elem_of_cons in Hname as [->|Hname];
          [repeat (apply elem_of_cons in Hn as [->|Hn]; [done || (evaluate)|]);
           by apply elem_of_nil in Hn|]).
  by apply elem_of_nil in Hname.
Qed.

Lemma subschema_resolution t c :
  subschema t -> c ∈ evolvable_columns ->
  has_column t (col_name c) = has_exact t (col_name c).
Proof.
  intros Hsub Hc. destruct (has_exact t (col_name c)) eqn:E.
  - by apply has_exact_has_column.
  - apply has_exact_false in E. unfold table_info in E.
    apply not_elem_of_cons in E as [Hid Hnot].
    assert (Hname : col_name c ∈ col_name <$> evolvable_columns)
      by (apply list_elem_of_fmap; eauto).
    rewrite has_column_cases, (no_case_variant _ _ Hname Hsub Hnot), orb_false_r.
    clear -Hname. cbn in Hname.
    repeat (apply elem_of_cons in Hname as [->|Hname]; [evaluate|]).
    by apply elem_of_nil in Hname.
Qed.

Lemma missing_fresh t :
  subschema t ->
  NoDup (lower_string <$> (col_name <$> missing t))
  /\ Forall (fun c => has_column t (col_name c) = false) (missing t).
Proof.
  intros Hsub. split.
  - unfold missing, evolvable_columns. cbn [List.filter col_name].
    destruct (has_exact t "mime"), (has_exact t "filename"),
      (has_exact t "accuracy"), (has_exact t "created_at");
      by apply (bool_decide_unpack _).
  - apply Forall_forall. intros c [Hc Hf]%missing_spec.
    by rewrite (subschema_resolution _ _ Hsub Hc).
Qed.

Lemma init_db_extend t :
  subschema t -> init_db (Some t) = (Some (extend t (missing t)), Ok tt).
Proof.
  intros Hsub. rewrite init_db_alters. destruct (missing_fresh t Hsub) as [Hnd Hfresh].
  by apply exec_alters_fresh.
Qed.

Lemma missing_nil t :
  (forall c, c ∈ evolvable_columns -> has_exact t (col_name c) = true) -> missing t = [].
Proof.
  intros Hall. destruct (missing t) as [|c l] eqn:E; [done|].
  assert (Hc : c ∈ missing t) by (rewrite E; apply list_elem_of_here).
  apply missing_spec in Hc as [Hin Hf]. by rewrite (Hall c Hin) in Hf.
Qed.

(** A table that has the four columns is left as it is. *)
Lemma init_db_nothing_missing t :
  (forall c, c ∈ evolvable_columns -> has_exact t (col_name c) = true) ->
  init_db (Some t) = (Some t, Ok tt).
Proof. intros Hall. by rewrite init_db_alters, (missing_nil _ Hall). Qed.

Lemma evolvable_after_init t c :
  c ∈ evolvable_columns -> has_exact (extend t (missing t)) (col_name c) = true.
Proof.
  intros Hc. apply has_exact_spec. rewrite table_info_extend. apply elem_of_app.
  destruct (has_exact t (col_name c)) eqn:E; [left; by apply has_exact_spec|right].
  apply list_elem_of_fmap. exists c. split; [done|]. by apply missing_spec.
Qed.

(** C8 (as amended): init_db creates the table with the full current column
    set when it is absent.  On an existing table whose columns are a subset
    of the current ones it adds, after the existing columns, each of mime,
    filename, accuracy and created_at that the table lacks, and no other
    column (a missing lat, lon, fecha or foto_base64 is not added); existing
    columns, rows, keys and values are kept as they are, and an added column
    reads NULL in the existing rows.  On a table that has the four columns
    it changes nothing, so a second call changes nothing. *)
Theorem init_db_additive_evolution :
  init_db None = (Some {| columns := reportes_columns; rows := []; seq := 0 |}, Ok tt)
  /\ (forall t : table,
        subschema t ->
        init_db (Some t) = (Some (extend t (missing t)), Ok tt)
        /\ (forall c, c ∈ missing t <->
                       c ∈ evolvable_columns /\ has_column t (col_name c) = false)
        /\ (forall c, c ∈ evolvable_columns ->
                       has_column (extend t (missing t)) (col_name c) = true)
        /\ (forall r name, has_column t name = true ->
              cell (extend t (missing t)) (pad_row (length (missing t)) r) name = cell t r name)
        /\ (forall r c, length (cells r) = length (columns t) -> c ∈ missing t ->
              cell (extend t (missing t)) (pad_row (length (missing t)) r) (col_name c) = SNull)
        /\ init_db (fst (init_db (Some t))) = (fst (init_db (Some t)), Ok tt))
  /\ (forall t : table,
        (forall c, c ∈ evolvable_columns -> has_exact t (col_name c) = true) ->
        init_db (Some t) = (Some t, Ok tt))
  /\ init_db (fst (init_db None)) = (fst (init_db None), Ok tt).
Proof.
  split; [|split; [|split]].
  - evaluate.
  - intros t Hsub. split; [|split; [|split; [|split; [|split]]]].
    + by apply init_db_extend.
    + intros c. rewrite missing_spec. split.
      * intros [Hc Hf]. by rewrite (subschema_resolution _ _ Hsub Hc).
      * intros [Hc Hf]. by rewrite <- (subschema_resolution _ _ Hsub Hc).
    + intros c Hc. by apply has_exact_has_column, evolvable_after_init.
    + intros r name. apply cell_extend_old.
    + intros r c Hlen [Hc Hf]%missing_spec. apply cell_extend_new; [done|].
      by rewrite (subschema_resolution _ _ Hsub Hc).
    + rewrite (init_db_extend _ Hsub). cbn [fst].
      apply init_db_nothing_missing. apply evolvable_after_init.
  - apply init_db_nothing_missing.
  - evaluate.
Qed.


(** ** Texts that UTF-8 can encode *)

Lemma ascii_only_app a b : ascii_only (a +:+ b) = ascii_only a && ascii_only b.
Proof.
  induction a as [|c a IH]; [done|].
  change (String c a +:+ b) with (String c (a +:+ b)). cbn [ascii_only].
  by rewrite IH, andb_assoc.
Qed.

Lemma has_surrogate_cons a b s :
  has_surrogate (String a (String b s))
  = ((code a =? 237) && (160 <=? code b) && (code b <=? 191)) || has_surrogate (String b s).
Proof. reflexivity. Qed.

Lemma ascii_only_encodable s : ascii_only s = true -> encodable s = true.
Proof.
  unfold encodable. intros H. apply negb_true_iff.
  induction s as [|a s IH]; [done|].
  cbn [ascii_only] in H. apply andb_true_iff in H as [Ha H].
  destruct s as [|b s]; [done|].
  rewrite has_surrogate_cons, (IH H), orb_false_r.
  apply Z.ltb_lt in Ha. replace (code a =? 237) with false; [done|].
  symmetry. apply Z.eqb_neq. lia.
Qed.

Lemma ascii_only_zeros n : ascii_only (zeros n) = true.
Proof. induction n as [|n IH]; [done|]. cbn [zeros ascii_only]. by rewrite IH. Qed.

Lemma pretty_N_char_ascii x : (code (pretty_N_char x) <? 128) = true.
Proof.
  unfold pretty_N_char. destruct x as [|p]; [done|].
  do 4 (try destruct p as [p|p|]); done.
Qed.

Lemma pretty_N_go_ascii x s : ascii_only s = true -> ascii_only (pretty_N_go x s) = true.
Proof.
  revert s. induction (N.lt_wf_0 x) as [x _ IH]. intros s Hs.
  destruct (decide (0 < x)%N) as [Hx|Hx].
  - rewrite pretty_N_go_step by done. apply IH.
    + by apply N.div_lt.
    + cbn [ascii_only]. by rewrite pretty_N_char_ascii, Hs.
  - replace x with 0%N by lia. by rewrite pretty_N_go_0.
Qed.

Lemma pretty_N_ascii (x : N) : ascii_only (pretty x) = true.
Proof.
  unfold pretty, pretty_N. destruct (decide (x = 0%N)); [done|].
  by apply pretty_N_go_ascii.
Qed.

Lemma pretty_Z_ascii (z : Z) : ascii_only (pretty z) = true.
Proof.
  destruct z as [|p|p]; [done|apply (pretty_N_ascii (Npos p))|].
  change (pretty (Z.neg p)) with ("-" +:+ pretty (Npos p)).
  by rewrite ascii_only_app, (pretty_N_ascii (Npos p)).
Qed.

Lemma zpad_ascii n z : ascii_only (zpad n z) = true.
Proof. unfold zpad. by rewrite ascii_only_app, ascii_only_zeros, pretty_Z_ascii. Qed.

Lemma isoformat_seconds_ascii d : ascii_only (isoformat_seconds d) = true.
Proof. unfold isoformat_seconds. by rewrite !ascii_only_app, !zpad_ascii. Qed.

Lemma isoformat_ascii d : ascii_only (isoformat d) = true.
Proof.
  unfold isoformat. destruct (microsecond d =? 0); [apply isoformat_seconds_ascii|].
  by rewrite !ascii_only_app, isoformat_seconds_ascii, zpad_ascii.
Qed.

(** What follows a prefix of an encodable text is encodable. *)
Lemma encodable_suffix p r : encodable (p +:+ r) = true -> encodable r = true.
Proof.
  unfold encodable. rewrite !negb_true_iff.
  induction p as [|a p IH]; [done|].
  change (String a p +:+ r) with (String a (p +:+ r)).
  destruct (p +:+ r) as [|b s] eqn:E.
  - intros _. by apply IH.
  - rewrite has_surrogate_cons. intros [_ H]%orb_false_iff. by apply IH.
Qed.

(** ** Creating a report *)

Section Requests.
Context {R : Runtime}.

Lemma request_data_dict req (m : gmap string json) :
  get_json req = Some (JDict m) -> request_data req = JDict m.
Proof.
  unfold request_data. intros ->. cbn.
  destruct (map_to_list m) eqn:E; [|done].
  by apply map_to_list_empty_iff in E as ->.
Qed.

Lemma float_of_int_raises z e : float_of_int z = Raise e -> e = OverflowError.
Proof.
  unfold float_of_int. destruct (binary_normalize 53 1024 z 0 false); by intros [= <-].
Qed.

Lemma py_float_ok_fits v f : py_float v = Ok f -> fits_float v = true.
Proof. destruct v; cbn; try done. by intros ->. Qed.

Lemma py_float_caught_fits v e : py_float v = Raise e -> caught e = true -> fits_float v = true.
Proof.
  destruct v; cbn; try done.
  intros He Hc. apply float_of_int_raises in He as ->. done.
Qed.

Lemma range_errors_nil lat lon :
  lat_in_range lat = true -> lon_in_range lon = true -> range_errors lat lon = [].
Proof. unfold range_errors. by intros -> ->. Qed.

(** The normalizer accepts a mapping with valid coordinates. *)
Lemma parse_valid now1 now2 (m : gmap string json) :
  valid_coordinates m ->
  cleanable (raw_foto m) = true ->
  fits_float (raw_accuracy m) = true ->
  exists p lat lon,
    parse_report_payload now1 now2 (JDict m) = Ok (p, [])
    /\ p_lat p = JFloat lat /\ p_lon p = JFloat lon
    /\ clean_b64 (raw_foto m) = Ok (p_foto_base64 p)
    /\ p_mime p = raw_mime m
    /\ p_filename p = raw_filename m
    /\ accuracy_float (raw_accuracy m) = Ok (p_accuracy p)
    /\ p_fecha p = py_str (raw_fecha m (JStr (isoformat now1)))
    /\ p_created_at p = isoformat_seconds now2.
Proof.
  intros (lat & lon & Hlat & Hlatr & Hlon & Hlonr) Hfoto Hacc.
  rewrite parse_dict.
  destruct (validate_returns now2 (raw_lat m) (raw_lon m)
              (raw_fecha m (JStr (isoformat now1))) (raw_foto m) (raw_mime m)
              (raw_filename m) (raw_accuracy m)) as (p & errs & Hv);
    eauto using py_float_ok_fits.
  pose proof (validate_inv _ _ _ _ _ _ _ _ _ _ Hv) as (He & ? & ? & ? & ? & ? & ?).
  rewrite Hlat, Hlon in He. destruct He as (-> & ? & ?).
  rewrite range_errors_nil in Hv by done.
  exists p, lat, lon. auto 12.
Qed.

Lemma sql_bind_storable v : storable v = true -> exists s, sql_bind v = Ok s.
Proof.
  unfold storable, encodable. destruct v as [|b|z|f|s|l|m]; cbn; eauto; try done.
  - rewrite andb_true_r. intros ->. eauto.
  - intros ->%negb_true_iff. eauto.
Qed.

Lemma sql_bind_text s : encodable s = true -> sql_bind (JStr s) = Ok (SText s).
Proof. unfold encodable. cbn. by intros ->%negb_true_iff. Qed.

Lemma DATA_URI_RE_sub_encodable s :
  encodable s = true -> encodable (DATA_URI_RE_sub s) = true.
Proof.
  unfold DATA_URI_RE_sub. destruct (DATA_URI_RE_match s) as [rest|] eqn:E; [|done].
  apply DATA_URI_RE_match_inv in E as (media & _ & ->).
  by intros ?%encodable_suffix%encodable_suffix%encodable_suffix.
Qed.

Lemma clean_b64_storable v v' :
  storable v = true -> clean_b64 v = Ok v' -> storable v' = true.
Proof.
  unfold clean_b64. destruct (negb (truthy v)); [by intros ? [= <-]|].
  destruct v as [| | | |s| |]; try done. intros H [= <-].
  unfold storable in *. cbn in *. by apply DATA_URI_RE_sub_encodable.
Qed.

Lemma accuracy_float_shape v a :
  accuracy_float v = Ok a -> a = JNull \/ exists f, a = JFloat f.
Proof.
  unfold accuracy_float. destruct (is_none v) eqn:Hn.
  - intros [= <-]. left. by destruct v.
  - destruct (py_float v) as [f|e]; [intros [= <-]; eauto|].
    destruct (caught e); [|done]. intros [= <-]. by left.
Qed.

Lemma sql_bind_accuracy a :
  a = JNull \/ (exists f, a = JFloat f) ->
  exists s, sql_bind a = Ok s /\ (a = JNull -> s = SNull).
Proof.
  intros [->|[f ->]]; cbn; eauto.
  eexists. split; [done|]. done.
Qed.

(** The row that an [INSERT] with the bound values [assign] appends. *)
Lemma insert_row_ok assign t :
  forallb (has_column t) (fst <$> assign) = true ->
  key_left t = true ->
  insert_row assign t =
  Ok ({| columns := columns t;
         rows := rows t ++
           [ {| rowid := next_rowid t;
                cells := map (fun c => apply_affinity (col_type c) (assigned (col_name c) assign))
                             (columns t) |} ];
         seq := next_rowid t |}, next_rowid t).
Proof.
  unfold insert_row, key_left. intros H ->.
  replace (forallb (fun '(n, _) => has_column t n) assign) with true; [done|].
  rewrite <- H. clear H. induction assign as [|[n v] assign IH]; cbn; [done|].
  by rewrite IH.
Qed.

Lemma bind_payload_names p assign :
  bind_payload p = Ok assign -> fst <$> assign = insert_columns.
Proof.
  unfold bind_payload.
  repeat match goal with
         | |- context [sql_bind ?v] =>
             destruct (sql_bind v); cbn [mbind result_bind]; [|done]
         end.
  by intros [= <-].
Qed.

Lemma bind_payload_ok p :
  (exists lat, p_lat p = JFloat lat) ->
  (exists lon, p_lon p = JFloat lon) ->
  encodable (p_fecha p) = true ->
  storable (p_foto_base64 p) = true ->
  storable (p_mime p) = true ->
  storable (p_filename p) = true ->
  (p_accuracy p = JNull \/ exists f, p_accuracy p = JFloat f) ->
  encodable (p_created_at p) = true ->
  exists assign,
    bind_payload p = Ok assign
    /\ sql_bind (p_foto_base64 p) = Ok (assigned "foto_base64" assign)
    /\ assigned "fecha" assign = SText (p_fecha p)
    /\ (p_accuracy p = JNull -> assigned "accuracy" assign = SNull).
Proof.
  intros [lat Hlat] [lon Hlon] Hfecha Hfoto Hmime Hfile Hacc Hcreated.
  destruct (sql_bind_storable _ Hfoto) as [sfoto Hsfoto].
  destruct (sql_bind_storable _ Hmime) as [smime Hsmime].
  destruct (sql_bind_storable _ Hfile) as [sfile Hsfile].
  destruct (sql_bind_accuracy _ Hacc) as (sacc & Hsacc & Hnull).
  unfold bind_payload.
  rewrite Hlat, Hlon, (sql_bind_text _ Hfecha), Hsfoto, Hsmime, Hsfile, Hsacc,
    (sql_bind_text _ Hcreated).
  cbn. eexists. split; [reflexivity|]. cbn. auto.
Qed.

(** POST /reportes with a normalizable, storable payload on a store that
    has the current columns: the row is appended under the next key and the
    answer is 201 with that key. *)
Lemma crear_reporte_created now1 now2 req (m : gmap string json) t :
  up_to_date t = true -> key_left t = true ->
  is_json req = true -> get_json req = Some (JDict m) ->
  valid_coordinates m ->
  encodable (py_str (raw_fecha m (JStr (isoformat now1)))) = true ->
  cleanable (raw_foto m) = true -> storable (raw_foto m) = true ->
  storable (raw_mime m) = true -> storable (raw_filename m) = true ->
  fits_float (raw_accuracy m) = true ->
  exists p assign,
    parse_report_payload now1 now2 (JDict m) = Ok (p, [])
    /\ accuracy_float (raw_accuracy m) = Ok (p_accuracy p)
    /\ clean_b64 (raw_foto m) = Ok (p_foto_base64 p)
    /\ sql_bind (p_foto_base64 p) = Ok (assigned "foto_base64" assign)
    /\ assigned "fecha" assign = SText (p_fecha p)
    /\ (p_accuracy p = JNull -> assigned "accuracy" assign = SNull)
    /\ crear_reporte now1 now2 req (Some t) =
       (Some {| columns := columns t;
                rows := rows t ++
                  [ {| rowid := next_rowid t;
                       cells := map (fun c => apply_affinity (col_type c)
                                                (assigned (col_name c) assign))
                                    (columns t) |} ];
                seq := next_rowid t |},
        Ok {| status := 201;
              body := JDict {[ "ok" := JBool true; "id" := JInt (next_rowid t) ]} |}).
Proof.
  intros Hup Hkey Hjson Hbody Hvalid Hfecha Hclean Hfoto Hmime Hfile Hacc.
  destruct (parse_valid now1 now2 m Hvalid Hclean Hacc)
    as (p & lat & lon & Hparse & Hlat & Hlon & Hcl & Hm & Hf & Ha & Hpf & Hpc).
  destruct (bind_payload_ok p) as (assign & Hbind & Hbfoto & Hbfecha & Hbacc);
    eauto using clean_b64_storable, accuracy_float_shape.
  { by rewrite Hpf. }
  { by rewrite Hm. }
  { by rewrite Hf. }
  { rewrite Hpc. apply ascii_only_encodable, isoformat_seconds_ascii. }
  exists p, assign. repeat (split; [done|]).
  unfold crear_reporte, execute_insert.
  rewrite Hjson, (request_data_dict _ _ Hbody), Hparse, (up_to_date_insert _ Hup), Hbind.
  cbn [negb mbind result_bind].
  rewrite insert_row_ok; [done| |done].
  rewrite (bind_payload_names _ _ Hbind). by apply up_to_date_insert.
Qed.

(** The two outcomes of POST /reportes on an existing table: nothing is
    stored and no id is issued, or one row is stored under the next key. *)
Lemma crear_reporte_outcome now1 now2 req t db' r :
  crear_reporte now1 now2 req (Some t) = (db', r) ->
  (db' = Some t /\ issued_id r = None)
  \/ (exists t', db' = Some t' /\ columns t' = columns t /\ seq t' = next_rowid t
                 /\ issued_id r = Some (next_rowid t)).
Proof.
  unfold crear_reporte. destruct (negb (is_json req)); [intros [= <- <-]; by left|].
  destruct (parse_report_payload now1 now2 (request_data req)) as [[p errs]|e];
    [|intros [= <- <-]; by left].
  destruct errs; [|intros [= <- <-]; by left].
  unfold execute_insert. destruct (forallb (has_column t) insert_columns);
    [|intros [= <- <-]; by left].
  destruct (bind_payload p) as [assign|e]; cbn [mbind result_bind];
    [|intros [= <- <-]; by left].
  unfold insert_row. destruct (forallb _ assign); [|intros [= <- <-]; by left].
  destruct (next_rowid t <? 2 ^ 63); [|intros [= <- <-]; by left].
  intros [= <- <-]. right. eexists. repeat split; reflexivity.
Qed.

Lemma up_to_date_columns t t' : columns t' = columns t -> up_to_date t' = up_to_date t.
Proof.
  unfold up_to_date, has_exact, table_info, column_names. by intros ->.
Qed.

Lemma up_to_date_evolvable t c :
  up_to_date t = true -> c ∈ evolvable_columns -> has_exact t (col_name c) = true.
Proof.
  unfold up_to_date, insert_columns, evolvable_columns. cbn [forallb].
  rewrite !andb_true_iff. intros (_ & _ & _ & _ & ? & ? & ? & ? & _) Hc.
  repeat (apply elem_of_cons in Hc as [->|Hc]; [done|]).
  by apply elem_of_nil in Hc.
Qed.

Lemma init_db_up_to_date t : up_to_date t = true -> init_db (Some t) = (Some t, Ok tt).
Proof.
  intros Hup. apply init_db_nothing_missing.
  intros c. by apply up_to_date_evolvable.
Qed.

Lemma next_rowid_gt t : seq t < next_rowid t.
Proof. unfold next_rowid. lia. Qed.

Lemma max_rowid_ge rs : Forall (fun r => rowid r <= max_rowid rs) rs.
Proof.
  induction rs as [|r rs IH]; [done|].
  change (max_rowid (r :: rs)) with (Z.max (rowid r) (max_rowid rs)).
  constructor; [lia|].
  eapply Forall_impl; [exact IH|]. cbn beta. intros. lia.
Qed.

Lemma next_rowid_above_rows t : Forall (fun r => rowid r < next_rowid t) (rows t).
Proof.
  eapply Forall_impl; [apply max_rowid_ge|]. cbn beta. unfold next_rowid. intros. lia.
Qed.

(** One request keeps the table and its columns, never lowers the counter
    of keys, and issues no id above it. *)
Lemma exec_invariant c t db rs :
  up_to_date t = true ->
  exec c (Some t) = (db, rs) ->
  exists t', db = Some t' /\ up_to_date t' = true /\ seq t <= seq t'
             /\ Forall (fun i => i <= seq t') (issued_ids rs).
Proof.
  intros Hup. destruct c as [now1 now2 req| | |]; cbn [exec].
  - destruct (crear_reporte now1 now2 req (Some t)) as [db' r] eqn:Hc.
    intros [= <- <-].
    apply crear_reporte_outcome in Hc as [[-> Hno]|(t' & -> & Hcols & Hseq & Hid)].
    + exists t. unfold issued_ids. cbn. rewrite Hno. by repeat split.
    + exists t'. pose proof (next_rowid_gt t).
      split; [done|]. split; [by rewrite (up_to_date_columns _ _ Hcols)|].
      split; [lia|]. unfold issued_ids. cbn. rewrite Hid.
      constructor; [lia | done].
  - unfold listar_reportes. destruct (forallb (has_column t) select_columns);
      intros [= <- <-]; exists t; by repeat split.
  - cbn. intros [= <- <-]. exists (delete_all t). by repeat split.
  - rewrite (init_db_up_to_date _ Hup). intros [= <- <-]. exists t. by repeat split.
Qed.

Lemma issued_ids_app rs1 rs2 : issued_ids (rs1 ++ rs2) = issued_ids rs1 ++ issued_ids rs2.
Proof. unfold issued_ids. apply omap_app. Qed.

(** A history of requests keeps the invariant of [exec_invariant]. *)
Lemma run_invariant cs t db rs :
  up_to_date t = true ->
  run cs (Some t) = (db, rs) ->
  exists t', db = Some t' /\ up_to_date t' = true /\ seq t <= seq t'
             /\ Forall (fun i => i <= seq t') (issued_ids rs).
Proof.
  revert t db rs. induction cs as [|c cs IH]; intros t db rs Hup; cbn [run].
  - intros [= <- <-]. exists t. by repeat split.
  - destruct (exec c (Some t)) as [db1 rs1] eqn:Hc.
    destruct (run cs db1) as [db2 rs2] eqn:Hr. intros [= <- <-].
    destruct (exec_invariant _ _ _ _ Hup Hc) as (t1 & -> & Hup1 & Hle1 & Hall1).
    destruct (IH _ _ _ Hup1 Hr) as (t2 & -> & Hup2 & Hle2 & Hall2).
    exists t2. split; [done|]. split; [done|]. split; [lia|].
    rewrite issued_ids_app. apply Forall_app. split; [|done].
    eapply Forall_impl; [exact Hall1|]. cbn. intros. lia.
Qed.


(** C1 (as amended): after any history of requests on a store that has the
    current columns, if the store has a key left (the largest key, 2^63 - 1,
    has not been used), a JSON request whose payload yields a lat that
    parses within [-90, 90] and a lon that parses within [-180, 180], and
    whose other fields can be normalized and stored (photo falsy or a
    string; photo, mime and filename not a list, a dict or an integer beyond
    64 bits; no lone surrogate in a photo, mime or filename that is a string
    nor in the text of the fecha; accuracy not an integer beyond the range
    of a float), is answered 201 with an id that is strictly greater than
    every id issued during the history, DELETE /borrar_todos included, than
    the counter of keys of the initial store and than the key of every
    stored row. *)
Theorem post_valid_issues_fresh_id (cs : list call) (t0 : table) db rs
    now1 now2 req (m : gmap string json) :
  up_to_date t0 = true ->
  run cs (Some t0) = (db, rs) ->
  (forall t, db = Some t -> key_left t = true) ->
  is_json req = true -> get_json req = Some (JDict m) ->
  valid_coordinates m ->
  encodable (py_str (raw_fecha m (JStr (isoformat now1)))) = true ->
  cleanable (raw_foto m) = true -> storable (raw_foto m) = true ->
  storable (raw_mime m) = true -> storable (raw_filename m) = true ->
  fits_float (raw_accuracy m) = true ->
  exists id t t',
    db = Some t
    /\ crear_reporte now1 now2 req db =
       (Some t', Ok {| status := 201;
                       body := JDict {[ "ok" := JBool true; "id" := JInt id ]} |})
    /\ Forall (fun i => i < id) (issued_ids rs)
    /\ seq t0 < id
    /\ Forall (fun r => rowid r < id) (rows t)
    /\ (exists r, rows t' = rows t ++ [r] /\ rowid r = id).
Proof.
  intros Hup Hrun Hkey Hjson Hbody Hvalid Hfecha Hclean Hfoto Hmime Hfile Hacc.
  destruct (run_invariant _ _ _ _ Hup Hrun) as (t & -> & Hupt & Hle & Hall).
  destruct (crear_reporte_created now1 now2 req m t)
    as (p & assign & _ & _ & _ & _ & _ & _ & Hcreate); try done.
  { by apply Hkey. }
  pose proof (next_rowid_gt t) as Hgt.
  exists (next_rowid t), t. eexists. split; [done|]. split; [exact Hcreate|].
  split; [|split; [|split]].
  - eapply Forall_impl; [exact Hall|]. cbn. intros. lia.
  - lia.
  - apply next_rowid_above_rows.
  - eexists. by split.
Qed.

(** ** Rejecting coordinates out of range *)

Lemma range_errors_spec lat lon :
  (msg_lat_range ∈ range_errors lat lon <-> lat_in_range lat = false)
  /\ (msg_lon_range ∈ range_errors lat lon <-> lon_in_range lon = false)
  /\ length (range_errors lat lon) =
     ((if lat_in_range lat then 0 else 1) + (if lon_in_range lon then 0 else 1))%nat.
Proof.
  unfold range_errors.
  destruct (lat_in_range lat), (lon_in_range lon); cbn; repeat split; try done;
    try (intros _; apply (bool_decide_unpack _); by vm_compute);
    intros H; exfalso; revert H; apply (bool_decide_unpack _); by vm_compute.
Qed.

(** C2 (as amended): a JSON request whose lat and lon both parse as floats,
    at least one of them outside its range, and whose photo and accuracy the
    normalizer can process (photo falsy or a string, accuracy not an integer
    beyond the range of a float), is answered 400 with exactly the range
    errors, one for each coordinate out of range and none for the other, and
    the store is left as it was. *)
Theorem post_out_of_range_rejected now1 now2 req (m : gmap string json) db lat lon :
  is_json req = true -> get_json req = Some (JDict m) ->
  py_float (raw_lat m) = Ok lat -> py_float (raw_lon m) = Ok lon ->
  lat_in_range lat && lon_in_range lon = false ->
  cleanable (raw_foto m) = true -> fits_float (raw_accuracy m) = true ->
  crear_reporte now1 now2 req db =
    (db, Ok {| status := 400;
               body := JDict {[ "error" := JStr "payload inválido";
                                "detalles" := JList (JStr <$> range_errors lat lon) ]} |})
  /\ (msg_lat_range ∈ range_errors lat lon <-> lat_in_range lat = false)
  /\ (msg_lon_range ∈ range_errors lat lon <-> lon_in_range lon = false)
  /\ length (range_errors lat lon) =
     ((if lat_in_range lat then 0 else 1) + (if lon_in_range lon then 0 else 1))%nat.
Proof.
  intros Hjson Hbody Hlat Hlon Hout Hclean Hacc.
  split; [|apply range_errors_spec].
  destruct (validate_returns now2 (raw_lat m) (raw_lon m)
              (raw_fecha m (JStr (isoformat now1))) (raw_foto m) (raw_mime m)
              (raw_filename m) (raw_accuracy m)) as (p & errs & Hv);
    eauto using py_float_ok_fits.
  pose proof (validate_inv _ _ _ _ _ _ _ _ _ _ Hv) as (He & _).
  rewrite Hlat, Hlon in He. destruct He as (-> & _).
  unfold crear_reporte.
  rewrite Hjson, (request_data_dict _ _ Hbody), parse_dict, Hv. cbn [negb].
  unfold range_errors in *.
  by destruct (lat_in_range lat), (lon_in_range lon).
Qed.

(** ** Invalid accuracy *)

(** The cell that the appended row holds in a column of the table. *)
Lemma assigned_same a b assign :
  same_name a b = true -> assigned a assign = assigned b assign.
Proof.
  intros H. induction assign as [|[n v] assign IH]; [done|]. cbn.
  by rewrite (same_name_subst _ _ H n), IH.
Qed.

Lemma cell_new_row t t' assign name :
  same_name name "id" = false ->
  existsb (same_name name) (column_names t) = true ->
  columns t' = columns t ->
  exists ty,
    cell t' {| rowid := next_rowid t;
               cells := map (fun c => apply_affinity (col_type c)
                                        (assigned (col_name c) assign)) (columns t) |} name
    = apply_affinity ty (assigned name assign).
Proof.
  intros Hid Hin Hcols. unfold cell, column_names in *. rewrite Hcols, Hid.
  destruct (index_of_elem _ _ Hin) as [i Hi]. rewrite Hi.
  destruct (index_of_column _ _ _ Hi) as (c & Hc & Hsame).
  exists (col_type c). cbn [cells].
  change (map ?f ?l) with (f <$> l).
  by rewrite list_lookup_fmap, Hc, (assigned_same _ _ _ Hsame).
Qed.

Lemma apply_affinity_null ty : apply_affinity ty SNull = SNull.
Proof. by destruct ty. Qed.

Lemma up_to_date_has t name :
  up_to_date t = true -> name ∈ insert_columns ->
  existsb (same_name name) (column_names t) = true.
Proof.
  unfold up_to_date. intros Hup Hin.
  rewrite forallb_forall in Hup. apply list_elem_of_In in Hin as Hin'.
  specialize (Hup _ Hin'). apply has_exact_spec in Hup.
  apply elem_of_cons in Hup as [->|?]; [|by apply resolves_elem].
  exfalso. revert Hin. apply (bool_decide_unpack _). by vm_compute.
Qed.


(** C7 (as amended): on a store that has the current columns and a key
    left, a JSON request with valid coordinates, with a photo, mime,
    filename and fecha that can be normalized and stored (as for C1), and
    with an accuracy whose coercion to a float fails with TypeError or
    ValueError, is normalized without any error and with accuracy absent;
    the answer is 201 and the stored row has a null accuracy. *)
Theorem invalid_accuracy_dropped now1 now2 req (m : gmap string json) t e :
  up_to_date t = true -> key_left t = true ->
  is_json req = true -> get_json req = Some (JDict m) ->
  valid_coordinates m ->
  py_float (raw_accuracy m) = Raise e -> caught e = true ->
  encodable (py_str (raw_fecha m (JStr (isoformat now1)))) = true ->
  cleanable (raw_foto m) = true -> storable (raw_foto m) = true ->
  storable (raw_mime m) = true -> storable (raw_filename m) = true ->
  exists p id t' r,
    parse_report_payload now1 now2 (JDict m) = Ok (p, [])
    /\ p_accuracy p = JNull
    /\ crear_reporte now1 now2 req (Some t) =
       (Some t', Ok {| status := 201;
                       body := JDict {[ "ok" := JBool true; "id" := JInt id ]} |})
    /\ rows t' = rows t ++ [r]
    /\ rowid r = id
    /\ cell t' r "accuracy" = SNull.
Proof.
  intros Hup Hkey Hjson Hbody Hvalid He Hc Hfecha Hclean Hfoto Hmime Hfile.
  destruct (crear_reporte_created now1 now2 req m t)
    as (p & assign & Hparse & Hacc & _ & _ & _ & Hnull & Hcreate);
    eauto using py_float_caught_fits.
  rewrite (accuracy_float_fails _ _ He Hc) in Hacc. injection Hacc as Hacc.
  symmetry in Hacc.
  exists p, (next_rowid t). do 2 eexists.
  split; [exact Hparse|]. split; [exact Hacc|]. split; [exact Hcreate|].
  split; [reflexivity|]. split; [reflexivity|].
  destruct (cell_new_row t
              {| columns := columns t;
                 rows := rows t ++
                   [ {| rowid := next_rowid t;
                        cells := map (fun c => apply_affinity (col_type c)
                                                 (assigned (col_name c) assign))
                                     (columns t) |} ];
                 seq := next_rowid t |} assign "accuracy") as [ty ->]; try done.
  - apply up_to_date_has; [done|]. apply (bool_decide_unpack _). by vm_compute.
  - rewrite (Hnull Hacc). apply apply_affinity_null.
Qed.

End Requests.

(** * Worked examples

    Each property above is run here on concrete requests, with the runtime
    [example_runtime]; the claims that do not hold as the specification
    states them are shown to fail on a concrete request. *)

(** On a request whose coordinates are valid and whose photo is a number,
    the outcome is the same under every runtime. *)
Lemma numeric_photo_any_runtime (R : Runtime) :
  valid_coordinates numeric_photo_example
  /\ crear_reporte clock1 clock2 (json_request numeric_photo_example) (Some fresh_store)
     = (Some fresh_store, Raise TypeError).
Proof.
  split; [|evaluate].
  exists 10.1%float, (-74.8)%float. vm_compute. auto.
Qed.

(** C1, counterexample: on a new store, a JSON request with lat 10.1 and
    lon -74.8 and the number 123 as photo is not answered 201: clean_b64
    raises TypeError, which Flask answers with 500, and nothing is stored. *)
Lemma post_valid_coordinates_numeric_photo :
  valid_coordinates numeric_photo_example
  /\ crear_reporte clock1 clock2 (json_request numeric_photo_example) (Some fresh_store)
     = (Some fresh_store, Raise TypeError)
  /\ http_status (snd (crear_reporte clock1 clock2 (json_request numeric_photo_example)
                                     (Some fresh_store))) = 500.
Proof.
  split; [|split]; [|evaluate..].
  exists 10.1%float, (-74.8)%float. vm_compute. auto.
Qed.

(** C1, witness: after [example_history] on a new store, which issued the
    ids 1 and 2 and then deleted every row, the legacy example is answered
    201 with an id above them. *)
Lemma post_valid_issues_fresh_id_witness :
  exists id t t',
    fst (run example_history (Some fresh_store)) = Some t
    /\ crear_reporte clock1 clock2 (json_request legacy_example)
                     (fst (run example_history (Some fresh_store)))
       = (Some t', Ok {| status := 201;
                         body := JDict {[ "ok" := JBool true; "id" := JInt id ]} |})
    /\ Forall (fun i => i < id) (issued_ids (snd (run example_history (Some fresh_store))))
    /\ seq fresh_store < id
    /\ Forall (fun r => rowid r < id) (rows t)
    /\ (exists r, rows t' = rows t ++ [r] /\ rowid r = id).
Proof.
  apply (post_valid_issues_fresh_id example_history fresh_store
           (fst (run example_history (Some fresh_store)))
           (snd (run example_history (Some fresh_store)))
           clock1 clock2 (json_request legacy_example) legacy_example).
  - evaluate.
  - apply surjective_pairing.
  - intros t Ht. vm_compute in Ht. injection Ht as <-. evaluate.
  - reflexivity.
  - reflexivity.
  - exists 10.1%float, (-74.8)%float. vm_compute. auto.
  - evaluate.
  - evaluate.
  - evaluate.
  - evaluate.
  - evaluate.
  - evaluate.
Defined.

(** A mime that holds a lone surrogate cannot be encoded when the INSERT
    binds it: the request, with valid coordinates, fails with
    UnicodeEncodeError (HTTP 500) and nothing is stored. *)
Example surrogate_mime_not_stored :
  storable (raw_mime surrogate_mime_example) = false
  /\ crear_reporte clock1 clock2 (json_request surrogate_mime_example) (Some fresh_store)
     = (Some fresh_store, Raise UnicodeEncodeError)
  /\ http_status (snd (crear_reporte clock1 clock2 (json_request surrogate_mime_example)
                                     (Some fresh_store))) = 500.
Proof. repeat split; evaluate. Qed.

(** On a table whose largest key is used, SQLite refuses the INSERT of a
    valid report (HTTP 500) and nothing is stored. *)
Example last_key_refused :
  key_left last_key_table = false
  /\ crear_reporte clock1 clock2 (json_request legacy_example) (Some last_key_table)
     = (Some last_key_table, Raise SqliteError)
  /\ http_status (snd (crear_reporte clock1 clock2 (json_request legacy_example)
                                     (Some last_key_table))) = 500.
Proof. repeat split; evaluate. Qed.

(** The ids of that history and of the request after it. *)
Example example_history_ids :
  issued_ids (snd (run example_history (Some fresh_store))) = [1; 2]
  /\ issued_id (snd (crear_reporte clock1 clock2 (json_request legacy_example)
                                   (fst (run example_history (Some fresh_store))))) = Some 3.
Proof. split; evaluate. Qed.

(** The outcome of a request with the lat 100 and no lon is the same under
    every runtime. *)
Lemma lat_only_any_runtime (R : Runtime) :
  py_float (raw_lat lat_only_example) = Ok 100%float
  /\ http_status (snd (crear_reporte clock1 clock2 (json_request lat_only_example)
                                     (Some fresh_store))) = 400.
Proof. split; evaluate. Qed.

(** C2, counterexample: the lat 100 parses and is out of range, but no lon
    is sent; the answer is 400 and its only error is the coercion error of
    lon: the out-of-range lat gets no range error. *)
Lemma post_lat_out_of_range_lon_missing :
  py_float (raw_lat lat_only_example) = Ok 100%float
  /\ lat_in_range 100 = false
  /\ crear_reporte clock1 clock2 (json_request lat_only_example) (Some fresh_store)
     = (Some fresh_store,
        Ok {| status := 400;
              body := JDict {[ "error" := JStr "payload inválido";
                               "detalles" := JList [JStr msg_lon_invalid] ]} |})
  /\ (msg_lat_range ∉ [msg_lon_invalid]).
Proof.
  split; [|split; [|split]]; [evaluate..|].
  apply (bool_decide_unpack _). by vm_compute.
Qed.

(** C2, witness: lat 95.5 and lon -200 are both out of range; the answer is
    400 with the two range errors and the three stored rows are untouched. *)
Lemma post_out_of_range_rejected_witness :
  crear_reporte clock1 clock2 (json_request out_of_range_example) (Some three_rows)
    = (Some three_rows,
       Ok {| status := 400;
             body := JDict {[ "error" := JStr "payload inválido";
                              "detalles" := JList (JStr <$> range_errors 95.5 (-200)) ]} |})
  /\ (msg_lat_range ∈ range_errors 95.5 (-200) <-> lat_in_range 95.5 = false)
  /\ (msg_lon_range ∈ range_errors 95.5 (-200) <-> lon_in_range (-200) = false)
  /\ length (range_errors 95.5 (-200)) =
     ((if lat_in_range 95.5 then 0 else 1) + (if lon_in_range (-200) then 0 else 1))%nat.
Proof.
  apply (post_out_of_range_rejected clock1 clock2 (json_request out_of_range_example)
           out_of_range_example (Some three_rows) 95.5 (-200));
    evaluate.
Defined.


(** C3, the defect: float(...) of the integer 10^400 fails with
    OverflowError, which [except (TypeError, ValueError)] does not catch.
    For a mapping with that lat and the lon -74.8 the coercion of lat
    fails, yet no coercion error is appended and reported: the normalizer
    raises, and POST /reportes fails (HTTP 500) instead of answering 400,
    under every runtime. *)
Theorem coercion_failure_overflow_unreported (R : Runtime) :
  coercion_fails (raw_lat oversized_lat_only_example) = true
  /\ caught OverflowError = false
  /\ parse_report_payload clock1 clock2 (JDict oversized_lat_only_example)
     = Raise OverflowError
  /\ crear_reporte clock1 clock2 (json_request oversized_lat_only_example)
                   (Some fresh_store)
     = (Some fresh_store, Raise OverflowError)
  /\ http_status (snd (crear_reporte clock1 clock2
                         (json_request oversized_lat_only_example)
                         (Some fresh_store))) = 500.
Proof. repeat split; evaluate. Qed.

(** Where the coercion fails with ValueError the error is reported: with
    the lat not-a-number and the lon 500, the normalizer returns the
    coercion error of lat alone; the lon, far out of range, was not
    checked. *)
Example bad_lat_far_lon_errors :
  exists p, parse_report_payload clock1 clock2 (JDict bad_lat_far_lon_example)
            = Ok (p, [msg_lat_invalid]).
Proof. eexists. evaluate. Qed.

(** The example of the specification: lat not-a-number, lon -74.8. *)
Example bad_lat_example_errors :
  exists p, parse_report_payload clock1 clock2 (JDict bad_lat_example)
            = Ok (p, [msg_lat_invalid])
  /\ coercion_fails (raw_lat bad_lat_example) = true.
Proof. eexists. split; evaluate. Qed.


(** C4, witness: of the three stored rows the one without a latitude is not
    listed, and the other two come by id descending. *)
Lemma listing_filtered_sorted_witness :
  exists out,
    listar_reportes (Some three_rows)
      = (Some three_rows,
         Ok {| status := 200;
               body := JList
                 ((fun r =>
                     JDict {[ "id" := JInt (rowid r);
                              "lat" := json_of_sql (cell three_rows r "lat");
                              "lon" := json_of_sql (cell three_rows r "lon");
                              "fecha" := json_of_sql (cell three_rows r "fecha");
                              "foto_base64" := json_of_sql (cell three_rows r "foto_base64");
                              "mime" := json_of_sql (cell three_rows r "mime");
                              "filename" := json_of_sql (cell three_rows r "filename");
                              "accuracy" := json_of_sql (cell three_rows r "accuracy");
                              "created_at" := json_of_sql (cell three_rows r "created_at") ]})
                    <$> out) |})
    /\ out ≡ₚ List.filter (fun r => negb (is_null (cell three_rows r "lat"))
                                     && negb (is_null (cell three_rows r "lon")))
                           (rows three_rows)
    /\ StronglySorted (fun a b => rowid b <= rowid a) out
    /\ (forall r, r ∈ out <->
                   r ∈ rows three_rows
                   /\ cell three_rows r "lat" <> SNull /\ cell three_rows r "lon" <> SNull).
Proof.
  apply (listing_filtered_sorted three_rows). evaluate.
Defined.

(** The answer of GET /reportes for that table: the rows 7 and 2, in this
    order, each with its nine fields; the row 5, which has no latitude, is
    left out. *)
Example three_rows_body :
  listar_reportes (Some three_rows)
  = (Some three_rows,
     Ok {| status := 200;
           body := JList
             [ JDict {[ "id" := JInt 7; "lat" := JFloat 4.5; "lon" := JFloat 1;
                        "fecha" := JStr "2025-08-22"; "foto_base64" := JNull;
                        "mime" := JNull; "filename" := JNull; "accuracy" := JFloat 12.3;
                        "created_at" := JStr "2025-08-22T08:00:00" ]};
               JDict {[ "id" := JInt 2; "lat" := JFloat 10.1; "lon" := JFloat (-74.8);
                        "fecha" := JStr "2025-08-20"; "foto_base64" := JStr "QUJD";
                        "mime" := JNull; "filename" := JNull; "accuracy" := JNull;
                        "created_at" := JStr "2025-08-20T20:00:05" ]} ] |}).
Proof. evaluate. Qed.

(** The keys listed for that table. *)
Example three_rows_listed : rowid <$> select_rows three_rows = [7; 2].
Proof. evaluate. Qed.

(** C5, witness: the values of the current-schema example normalize to the
    same result under the legacy names and under the current names, and a
    legacy key bound to null falls through to the current key. *)
Lemma field_resolution_legacy_first_witness :
  parse_report_payload clock1 clock2 (JDict (legacy_payload example_fields))
    = parse_report_payload clock1 clock2 (JDict (current_payload example_fields))
  /\ pick (JDict null_legacy_example) ["lat"; "latitude"] JNull
     = Ok (resolve_field null_legacy_example "lat" "latitude" JNull)
  /\ resolve_field null_legacy_example "lat" "latitude" JNull = JInt 5
  /\ resolve_field null_legacy_example "lon" "longitude" JNull = JInt 6
  /\ current_payload example_fields = current_example.
Proof.
  split; [|split; [|split; [|split]]].
  - apply (proj2 (proj2 field_resolution_legacy_first)).
  - apply (proj1 field_resolution_legacy_first).
  - evaluate.
  - evaluate.
  - evaluate.
Defined.

Lemma has_data_uri_prefix_match s :
  has_data_uri_prefix s -> exists rest, DATA_URI_RE_match s = Some rest.
Proof.
  intros (media & rest & Hm & ->). exists rest. by apply DATA_URI_RE_match_prefix.
Qed.

(** C6, witness: the photo of the legacy example loses its prefix and the
    rest is what the normalized record holds; a photo without the prefix,
    and one whose media type is followed by a parameter, stay as they are. *)
Lemma photo_prefix_stripped_witness :
  clean_b64 (JStr "data:image/png;base64,QUJD") = Ok (JStr "QUJD")
  /\ clean_b64 (JStr "QUJD") = Ok (JStr "QUJD")
  /\ clean_b64 (JStr "data:image/png;charset=utf-8;base64,QUJD")
     = Ok (JStr "data:image/png;charset=utf-8;base64,QUJD")
  /\ (exists p, parse_report_payload clock1 clock2 (JDict legacy_example) = Ok (p, [])
                 /\ p_foto_base64 p = JStr "QUJD").
Proof.
  destruct (@photo_prefix_stripped example_runtime) as (Hstrip & Hkeep & _ & _ & Hparse).
  split; [|split; [|split]].
  - apply (Hstrip "image/png" "QUJD"). reflexivity.
  - apply Hkeep. intros [rest Hm]%has_data_uri_prefix_match. vm_compute in Hm. discriminate.
  - apply Hkeep. intros [rest Hm]%has_data_uri_prefix_match. vm_compute in Hm. discriminate.
  - eexists. split; [evaluate|]. reflexivity.
Defined.

(** The legacy example of the specification, stored in a new table. *)
Example legacy_example_stored :
  crear_reporte clock1 clock2 (json_request legacy_example) (Some fresh_store)
  = (Some {| columns := reportes_columns;
             rows := [ {| rowid := 1;
                          cells := [SReal 10.1; SReal (-74.8); SText "2025-08-20";
                                    SText "QUJD"; SNull; SNull; SNull;
                                    SText "2025-08-20T20:00:05"] |} ];
             seq := 1 |},
     Ok {| status := 201; body := JDict {[ "ok" := JBool true; "id" := JInt 1 ]} |}).
Proof. evaluate. Qed.

(** C7, counterexample: valid coordinates and the accuracy bad, whose
    coercion fails with ValueError, but the number 123 as photo: the request
    is not answered 201, the normalizer raises TypeError. *)
Lemma invalid_accuracy_numeric_photo :
  valid_coordinates bad_accuracy_numeric_photo_example
  /\ py_float (raw_accuracy bad_accuracy_numeric_photo_example) = Raise ValueError
  /\ parse_report_payload clock1 clock2 (JDict bad_accuracy_numeric_photo_example)
     = Raise TypeError
  /\ crear_reporte clock1 clock2 (json_request bad_accuracy_numeric_photo_example)
                   (Some fresh_store)
     = (Some fresh_store, Raise TypeError).
Proof.
  split; [|split; [|split]]; [|evaluate..].
  exists 10.1%float, (-74.8)%float. vm_compute. auto.
Qed.

(** C7, witness: the example of the specification, lat 10.1, lon -74.8 and
    the accuracy bad, on a new store. *)
Lemma invalid_accuracy_dropped_witness :
  exists p id t' r,
    parse_report_payload clock1 clock2 (JDict bad_accuracy_example) = Ok (p, [])
    /\ p_accuracy p = JNull
    /\ crear_reporte clock1 clock2 (json_request bad_accuracy_example) (Some fresh_store) =
       (Some t', Ok {| status := 201;
                       body := JDict {[ "ok" := JBool true; "id" := JInt id ]} |})
    /\ rows t' = rows fresh_store ++ [r]
    /\ rowid r = id
    /\ cell t' r "accuracy" = SNull.
Proof.
  apply (invalid_accuracy_dropped clock1 clock2 (json_request bad_accuracy_example)
           bad_accuracy_example fresh_store ValueError).
  - evaluate.
  - evaluate.
  - reflexivity.
  - reflexivity.
  - exists 10.1%float, (-74.8)%float. vm_compute. auto.
  - evaluate.
  - reflexivity.
  - evaluate.
  - evaluate.
  - evaluate.
  - evaluate.
  - evaluate.
Defined.

(** C8, counterexample: foto_base64 is a column of the current set and the
    older table lacks it; init_db succeeds and the table still lacks it. *)
Lemma init_db_leaves_foto_base64_missing :
  subschema no_photo_table
  /\ "foto_base64" ∈ col_name <$> reportes_columns
  /\ has_column no_photo_table "foto_base64" = false
  /\ init_db (Some no_photo_table)
     = (Some {| columns := [ {| col_name := "lat"; col_type := TREAL |};
                             {| col_name := "lon"; col_type := TREAL |};
                             {| col_name := "fecha"; col_type := TTEXT |};
                             {| col_name := "mime"; col_type := TTEXT |};
                             {| col_name := "filename"; col_type := TTEXT |};
                             {| col_name := "accuracy"; col_type := TREAL |};
                             {| col_name := "created_at"; col_type := TTEXT |} ];
                rows := [];
                seq := 0 |}, Ok tt)
  /\ (exists t', fst (init_db (Some no_photo_table)) = Some t'
                  /\ has_column t' "foto_base64" = false).
Proof.
  split; [|split; [|split; [|split]]].
  - unfold subschema. apply (bool_decide_unpack _). by vm_compute.
  - apply (bool_decide_unpack _). by vm_compute.
  - evaluate.
  - evaluate.
  - eexists. split; evaluate.
Qed.

(** Outside the older versions of the schema: the test of [init_db] does
    not find mime in a table that writes it MIME, and SQLite refuses the
    column as a duplicate. *)
Example init_db_upper_case_column :
  init_db (Some upper_case_table) = (Some upper_case_table, Raise SqliteError).
Proof. evaluate. Qed.

(** C8, witness: a table without accuracy and created_at, holding two rows,
    gets the two columns; the rows keep their keys and values and read NULL
    in the new columns; a second call changes nothing. *)
Lemma init_db_additive_evolution_witness :
  init_db (Some older_table) = (Some (extend older_table (missing older_table)), Ok tt)
  /\ missing older_table = [ {| col_name := "accuracy"; col_type := TREAL |};
                             {| col_name := "created_at"; col_type := TTEXT |} ]
  /\ extend older_table (missing older_table)
     = {| columns := reportes_columns;
          rows := [ {| rowid := 1;
                       cells := [SReal 10.1; SReal (-74.8); SText "2025-08-20";
                                 SText "QUJD"; SNull; SNull; SNull; SNull] |};
                    {| rowid := 4;
                       cells := [SReal 4.5; SReal 1; SText "2025-08-21";
                                 SNull; SText "image/png"; SText "a.png"; SNull; SNull] |} ];
          seq := 6 |}
  /\ init_db (fst (init_db (Some older_table))) = (fst (init_db (Some older_table)), Ok tt).
Proof.
  destruct init_db_additive_evolution as (_ & Hadd & _ & _).
  assert (Hsub : subschema older_table).
  { unfold subschema. apply (bool_decide_unpack _). by vm_compute. }
  destruct (Hadd older_table Hsub) as (Hinit & _ & _ & _ & _ & Hidem).
  split; [|split; [|split]].
  - exact Hinit.
  - evaluate.
  - evaluate.
  - exact Hidem.
Defined.

(** A photo that is a list makes the normalizer raise under every
    runtime. *)
Lemma list_photo_any_runtime (R : Runtime) :
  parse_report_payload clock1 clock2 (JDict list_photo_example) = Raise TypeError.
Proof. evaluate. Qed.

(** An integer too large for a float is not caught either: the normalizer
    raises OverflowError, for a coordinate and for the accuracy alike. *)
Example oversized_integer_raises (R : Runtime) :
  parse_report_payload clock1 clock2 (JDict {[ "lat" := JInt (10 ^ 400); "lon" := JInt 0 ]})
    = Raise OverflowError
  /\ parse_report_payload clock1 clock2
       (JDict {[ "lat" := JInt 1; "lon" := JInt 0; "accuracy" := JInt (10 ^ 400) ]})
     = Raise OverflowError.
Proof. split; evaluate. Qed.

(** A body that is JSON but not an object: a list or a string without the
    field names is refused with 400, a string that holds a field name and a
    number raise TypeError. *)
Example non_object_bodies (R : Runtime) :
  http_status (snd (crear_reporte clock1 clock2
                      {| is_json := true; get_json := Some (JList [JInt 1]) |}
                      (Some fresh_store))) = 400
  /\ http_status (snd (crear_reporte clock1 clock2
                         {| is_json := true; get_json := Some (JStr "xlatx") |}
                         (Some fresh_store))) = 500
  /\ http_status (snd (crear_reporte clock1 clock2
                         {| is_json := true; get_json := Some (JInt 5) |}
                         (Some fresh_store))) = 500
  /\ http_status (snd (crear_reporte clock1 clock2
                         {| is_json := false; get_json := None |}
                         (Some fresh_store))) = 415.
Proof. repeat split; evaluate. Qed.

(** C9, counterexample: a mapping with valid coordinates whose photo is a
    list: the normalizer raises TypeError instead of returning. *)
Lemma normalizer_raises_on_list_photo :
  parse_report_payload clock1 clock2 (JDict list_photo_example) = Raise TypeError.
Proof. evaluate. Qed.

(** C9, witness: a mapping with a list as mime, a number as filename, a
    number as timestamp and a null fecha is normalized. *)
Lemma normalizer_total_on_cleanable_photo_witness :
  (cleanable (raw_foto odd_types_example) = true ->
     exists p errs, parse_report_payload clock1 clock2 (JDict odd_types_example) = Ok (p, errs))
  /\ (cleanable (raw_foto odd_types_example) = false ->
        parse_report_payload clock1 clock2 (JDict odd_types_example) = Raise TypeError).
Proof.
  apply (normalizer_total_on_cleanable_photo clock1 clock2 odd_types_example);
    evaluate.
Defined.

(** C10, witness: a null fecha beside the number 20250820 as timestamp gives
    the text 20250820; without either key the fecha is the first reading of
    the clock, microseconds included. *)
Lemma fecha_is_text_witness :
  (exists p errs,
     parse_report_payload clock1 clock2 (JDict odd_types_example) = Ok (p, errs)
     /\ p_fecha p = "20250820")
  /\ (exists p errs,
        parse_report_payload clock1 clock2 (JDict bad_accuracy_example) = Ok (p, errs)
        /\ p_fecha p = "2025-08-20T20:00:05.001234").
Proof.
  split.
  - destruct (parse_report_payload clock1 clock2 (JDict odd_types_example))
      as [[p errs]|e] eqn:Hp; [|vm_compute in Hp; discriminate].
    exists p, errs. split; [reflexivity|].
    rewrite (proj1 (fecha_is_text clock1 clock2 odd_types_example p errs Hp)).
    evaluate.
  - destruct (parse_report_payload clock1 clock2 (JDict bad_accuracy_example))
      as [[p errs]|e] eqn:Hp; [|vm_compute in Hp; discriminate].
    exists p, errs. split; [reflexivity|].
    rewrite (proj1 (fecha_is_text clock1 clock2 bad_accuracy_example p errs Hp)).
    evaluate.
Defined.

(** * Further properties of the service *)

Section Normalizer.
Context {R : Runtime}.

(** ** Keys that the normalizer does not read *)

Lemma present_insert_ne (m : gmap string json) k k' v :
  k <> k' -> present (<[k := v]> m) k' = present m k'.
Proof. intros H. unfold present. by rewrite lookup_insert_ne. Qed.

Lemma resolve_field_insert (m : gmap string json) k v legacy current d :
  k <> legacy -> k <> current ->
  resolve_field (<[k := v]> m) legacy current d = resolve_field m legacy current d.
Proof. intros H1 H2. unfold resolve_field. by rewrite !present_insert_ne. Qed.

Lemma request_data_json_request (m : gmap string json) :
  request_data (json_request m) = JDict m.
Proof. by apply request_data_dict. Qed.

(** X1: a key that is not one of the fourteen names the normalizer looks up
    (id and created_at are such keys) has no effect: with or without it, and
    whatever its value, the mapping normalizes to the same result and POST
    /reportes gives the same answer and the same store. *)
Theorem unknown_key_ignored now1 now2 (m : gmap string json) k v db :
  k ∉ field_names ->
  parse_report_payload now1 now2 (JDict (<[k := v]> m))
    = parse_report_payload now1 now2 (JDict m)
  /\ crear_reporte now1 now2 (json_request (<[k := v]> m)) db
     = crear_reporte now1 now2 (json_request m) db.
Proof.
  intros Hk.
  assert (Hne : Forall (fun n => k <> n) field_names).
  { apply Forall_forall. by intros n Hn ->. }
  unfold field_names in Hne. repeat (apply Forall_cons in Hne as [? Hne]).
  assert (Hparse : parse_report_payload now1 now2 (JDict (<[k := v]> m))
                   = parse_report_payload now1 now2 (JDict m)).
  { rewrite !parse_dict.
    unfold raw_lat, raw_lon, raw_fecha, raw_foto, raw_mime, raw_filename, raw_accuracy.
    by rewrite !resolve_field_insert. }
  split; [exact Hparse|].
  unfold crear_reporte. by rewrite !request_data_json_request, Hparse.
Qed.

(** ** The lists of errors *)

(** After its seven calls of [pick], the normalizer is [validate]. *)
Lemma parse_validate now1 now2 data p errs :
  parse_report_payload now1 now2 data = Ok (p, errs) ->
  exists lat lon fecha foto mime filename accuracy,
    validate now2 lat lon fecha foto mime filename accuracy = Ok (p, errs).
Proof.
  unfold parse_report_payload.
  repeat match goal with
         | |- context [pick ?d ?ks ?x] =>
             destruct (pick d ks x); [cbn [mbind result_bind]|done]
         end.
  intros H. do 7 eexists. exact H.
Qed.

(** The coordinates of the record that [validate] returns. *)
Lemma validate_coordinates now2 lat lon fecha foto mime filename accuracy p errs :
  validate now2 lat lon fecha foto mime filename accuracy = Ok (p, errs) ->
  p_lat p = match py_float lat with Ok a => JFloat a | Raise _ => lat end
  /\ p_lon p = match py_float lon with Ok b => JFloat b | Raise _ => lon end.
Proof.
  unfold validate, try_float.
  destruct (py_float lat) as [a|e1]; [|destruct (caught e1); [|done]];
    (destruct (py_float lon) as [b|e2]; [|destruct (caught e2); [|done]]);
    cbn;
    try (destruct (lat_in_range a)); try (destruct (lon_in_range b)); cbn;
    (destruct (accuracy_float accuracy) as [acc|]; [|done]);
    (destruct (clean_b64 foto) as [ph|]; [|done]); cbn;
    by intros [= <- <-].
Qed.

Lemma range_errors_listed lat lon : range_errors lat lon ∈ error_lists.
Proof.
  unfold range_errors. destruct (lat_in_range lat), (lon_in_range lon);
    apply (bool_decide_unpack _); by vm_compute.
Qed.

Lemma coercion_errors_listed lf nf : coercion_errors lf nf ∈ error_lists.
Proof.
  unfold coercion_errors. destruct lf, nf; apply (bool_decide_unpack _); by vm_compute.
Qed.

(** X2: whatever the JSON body, when the normalizer returns, its list of
    errors is one of seven: empty, one or both coercion errors, or one or
    both range errors; so it holds at most two messages, the one about lat
    before the one about lon, and never a coercion error beside a range
    error. *)
Theorem errors_one_of_seven now1 now2 (data : json) p errs :
  parse_report_payload now1 now2 data = Ok (p, errs) ->
  errs ∈ error_lists /\ (length errs <= 2)%nat.
Proof.
  intros (lat & lon & fecha & foto & mime & filename & accuracy & Hv)%parse_validate.
  apply validate_inv in Hv as [He _].
  assert (Hin : errs ∈ error_lists).
  { destruct (py_float lat); [destruct (py_float lon)|];
      [destruct He as [-> _]; apply range_errors_listed
      | subst errs; apply coercion_errors_listed..]. }
  split; [exact Hin|].
  unfold error_lists in Hin.
  repeat (apply elem_of_cons in Hin as [->|Hin]; [cbn; lia|]).
  by apply elem_of_nil in Hin.
Qed.

End Normalizer.

(** ** Accepted coordinates *)

(** A float between two finite floats is neither NaN nor infinite. *)
Lemma between_finite (lo hi f : float) s1 m1 e1 s2 m2 e2 :
  Prim2SF lo = S754_finite s1 m1 e1 -> Prim2SF hi = S754_finite s2 m2 e2 ->
  ((lo <=? f) && (f <=? hi))%float = true ->
  PrimFloat.is_nan f = false /\ PrimFloat.is_infinity f = false.
Proof.
  intros Hlo Hhi. unfold PrimFloat.is_nan, PrimFloat.is_infinity.
  rewrite !leb_spec, !FloatAxioms.eqb_spec, abs_spec, Hlo, Hhi.
  change (Prim2SF infinity) with (S754_infinity false).
  destruct (Prim2SF f) as [s|s| |s m e]; unfold SFleb, SFeqb; cbn.
  - done.
  - by destruct s.
  - done.
  - intros _. split; [|done].
    rewrite Z.compare_refl, Pos.compare_cont_refl. by destruct s.
Qed.

Lemma lat_in_range_finite f :
  lat_in_range f = true -> PrimFloat.is_nan f = false /\ PrimFloat.is_infinity f = false.
Proof.
  unfold lat_in_range. intros H.
  eapply (between_finite (-90) 90); [vm_compute; reflexivity..|exact H].
Qed.

Lemma lon_in_range_finite f :
  lon_in_range f = true -> PrimFloat.is_nan f = false /\ PrimFloat.is_infinity f = false.
Proof.
  unfold lon_in_range. intros H.
  eapply (between_finite (-180) 180); [vm_compute; reflexivity..|exact H].
Qed.

Section Accepted.
Context {R : Runtime}.

Lemma py_float_float v f : v = JFloat f -> py_float v = Ok f.
Proof. by intros ->. Qed.

(** A record returned without errors has both coordinates within range. *)
Lemma parse_accepted now1 now2 data p :
  parse_report_payload now1 now2 data = Ok (p, []) ->
  exists lat lon, p_lat p = JFloat lat /\ p_lon p = JFloat lon
                  /\ lat_in_range lat = true /\ lon_in_range lon = true.
Proof.
  intros (lat & lon & fecha & foto & mime & filename & accuracy & Hv)%parse_validate.
  apply validate_inv in Hv as [He _]. unfold coercion_fails, range_errors in He.
  destruct (py_float lat) as [a|e1]; [destruct (py_float lon) as [b|e2]|].
  - destruct He as (He & ? & ?). exists a, b.
    destruct (lat_in_range a), (lon_in_range b); done.
  - by destruct (negb (is_ok (Ok a))).
  - done.
Qed.

(** X3: when the normalizer returns, its list of errors is empty exactly
    when both coordinates of the record are floats within range, lat in
    [-90, 90] and lon in [-180, 180]; such coordinates are neither NaN nor
    infinite, so an accepted record never carries a NaN or an infinite
    coordinate. *)
Theorem accepted_iff_coordinates_in_range now1 now2 (data : json) p errs :
  parse_report_payload now1 now2 data = Ok (p, errs) ->
  (errs = [] <->
     exists lat lon, p_lat p = JFloat lat /\ p_lon p = JFloat lon
                     /\ lat_in_range lat = true /\ lon_in_range lon = true)
  /\ (errs = [] ->
        exists lat lon, p_lat p = JFloat lat /\ p_lon p = JFloat lon
                        /\ PrimFloat.is_nan lat = false /\ PrimFloat.is_infinity lat = false
                        /\ PrimFloat.is_nan lon = false /\ PrimFloat.is_infinity lon = false).
Proof.
  intros (lat & lon & fecha & foto & mime & filename & accuracy & Hv)%parse_validate.
  pose proof (validate_coordinates _ _ _ _ _ _ _ _ _ _ Hv) as [Hplat Hplon].
  apply validate_inv in Hv as [He _].
  assert (Hiff : errs = [] <->
            exists a b, p_lat p = JFloat a /\ p_lon p = JFloat b
                        /\ lat_in_range a = true /\ lon_in_range b = true).
  { destruct (py_float lat) as [a|e1] eqn:Ha; [destruct (py_float lon) as [b|e2] eqn:Hb|].
    - destruct He as (-> & _ & _). unfold range_errors. split.
      + intros Hnil. exists a, b.
        destruct (lat_in_range a), (lon_in_range b); done.
      + intros (a' & b' & Ha' & Hb' & Hra & Hrb).
        rewrite Hplat in Ha'. rewrite Hplon in Hb'.
        injection Ha' as <-. injection Hb' as <-. by rewrite Hra, Hrb.
    - subst errs. unfold coercion_fails. rewrite Ha, Hb. cbn. split; [done|].
      intros (a' & b' & _ & Hb' & _). rewrite Hplon in Hb'.
      by rewrite (py_float_float _ _ Hb') in Hb.
    - subst errs. unfold coercion_fails. rewrite Ha. cbn. split; [done|].
      intros (a' & b' & Ha' & _). rewrite Hplat in Ha'.
      by rewrite (py_float_float _ _ Ha') in Ha. }
  split; [exact Hiff|].
  intros (a & b & ? & ? & [? ?]%lat_in_range_finite & [? ?]%lon_in_range_finite)%Hiff.
  exists a, b. auto 10.
Qed.

End Accepted.

(** ** Bodies that are no object *)

Section Bodies.
Context {R : Runtime}.

(** The normalizer on a mapping without any of the keys it reads. *)
Lemma validate_nothing now1 now2 :
  validate now2 JNull JNull (JStr (isoformat now1)) JNull JNull JNull JNull
  = Ok ({| p_lat := JNull; p_lon := JNull; p_fecha := isoformat now1;
           p_foto_base64 := JNull; p_mime := JNull; p_filename := JNull;
           p_accuracy := JNull; p_created_at := isoformat_seconds now2 |},
        [msg_lat_invalid; msg_lon_invalid]).
Proof. reflexivity. Qed.

Lemma parse_empty now1 now2 :
  parse_report_payload now1 now2 (JDict ∅)
  = Ok ({| p_lat := JNull; p_lon := JNull; p_fecha := isoformat now1;
           p_foto_base64 := JNull; p_mime := JNull; p_filename := JNull;
           p_accuracy := JNull; p_created_at := isoformat_seconds now2 |},
        [msg_lat_invalid; msg_lon_invalid]).
Proof. rewrite parse_dict. apply validate_nothing. Qed.

(** X4: a JSON request whose body could not be decoded, or whose body is a
    falsy JSON value (null, false, zero, the empty string, array or
    object), is treated as the empty object: the answer is 400 with the two
    coercion errors, lat first, and the store is left as it was. *)
Theorem empty_body_rejected now1 now2 req db :
  is_json req = true ->
  (forall v, get_json req = Some v -> truthy v = false) ->
  crear_reporte now1 now2 req db =
    (db, Ok {| status := 400;
               body := JDict {[ "error" := JStr "payload inválido";
                                "detalles" := JList [JStr msg_lat_invalid;
                                                     JStr msg_lon_invalid] ]} |}).
Proof.
  intros Hjson Hbody.
  assert (Hdata : request_data req = JDict ∅).
  { unfold request_data. destruct (get_json req) as [v|]; [|done].
    by rewrite (Hbody v eq_refl). }
  unfold crear_reporte. by rewrite Hjson, Hdata, parse_empty.
Qed.

(** [pick] on a value that is no mapping: [data[k]] raises as soon as
    [k in data] is true. *)
Lemma pick_non_dict data keys d :
  (forall m, data <> JDict m) ->
  pick data keys d = if forallb (absent data) keys then Ok d else Raise TypeError.
Proof.
  intros Hnd. induction keys as [|k keys IH]; [done|].
  cbn [pick forallb]. unfold absent at 1.
  destruct data as [|b|z|f|s|l|m]; cbn [py_contains mbind result_bind]; try done.
  - destruct (is_substring k s); cbn; [done|]. exact IH.
  - destruct (existsb _ l); cbn; [done|]. exact IH.
  - by destruct (Hnd m).
Qed.

(** X5: a JSON request whose body is a truthy JSON value other than an
    object never creates a report.  When [k in body] is false for each of
    the fourteen field names (an array without any of them as an element, a
    string without any of them as a substring) the answer is 400 with the
    two coercion errors; otherwise (an array or a string that holds a field
    name, a number, true) the normalizer raises TypeError.  The store is
    left as it was in both cases. *)
Theorem non_object_body_never_stored now1 now2 req v db :
  is_json req = true -> get_json req = Some v -> truthy v = true ->
  (forall m, v <> JDict m) ->
  crear_reporte now1 now2 req db =
    (db, if forallb (absent v) field_names
         then Ok {| status := 400;
                    body := JDict {[ "error" := JStr "payload inválido";
                                     "detalles" := JList [JStr msg_lat_invalid;
                                                          JStr msg_lon_invalid] ]} |}
         else Raise TypeError).
Proof.
  intros Hjson Hbody Htruthy Hnd.
  assert (Hdata : request_data req = v).
  { unfold request_data. by rewrite Hbody, Htruthy. }
  unfold crear_reporte. rewrite Hjson, Hdata. cbn [negb].
  unfold parse_report_payload. rewrite !(pick_non_dict _ _ _ Hnd).
  unfold field_names. cbn [forallb].
  repeat match goal with
         | |- context [absent v ?k] => destruct (absent v k); cbn; [|reflexivity]
         end.
  reflexivity.
Qed.

End Bodies.

(** ** Normalizing a normalized payload *)

Section FixedPoint.
Context {R : Runtime}.

Lemma resolve_field_own (m : gmap string json) legacy current v :
  m !! legacy = Some v -> m !! current = None ->
  resolve_field m legacy current JNull = v.
Proof. unfold resolve_field, present. intros -> ->. by destruct v. Qed.

Lemma raw_payload_dict p :
  raw_lat (payload_dict p) = p_lat p
  /\ raw_lon (payload_dict p) = p_lon p
  /\ (forall d, raw_fecha (payload_dict p) d = JStr (p_fecha p))
  /\ raw_foto (payload_dict p) = p_foto_base64 p
  /\ raw_mime (payload_dict p) = p_mime p
  /\ raw_filename (payload_dict p) = p_filename p
  /\ raw_accuracy (payload_dict p) = p_accuracy p.
Proof.
  split; [|split; [|split; [|split; [|split; [|split]]]]];
    try (apply resolve_field_own; reflexivity).
  intros d. unfold raw_fecha, resolve_field, present.
  by replace (payload_dict p !! "fecha") with (Some (JStr (p_fecha p))) by reflexivity.
Qed.

Lemma clean_b64_again v v' :
  clean_b64 v = Ok v' ->
  (forall s, v' = JStr s -> DATA_URI_RE_match s = None) ->
  clean_b64 v' = Ok v'.
Proof.
  unfold clean_b64. destruct (truthy v) eqn:Ht; cbn.
  - destruct v as [| | | |x| |]; try done. intros [= <-] Hno.
    destruct (truthy (JStr (DATA_URI_RE_sub x))); cbn; [|done].
    unfold DATA_URI_RE_sub at 1. by rewrite (Hno _ eq_refl).
  - intros [= <-] _. by rewrite Ht.
Qed.

Lemma accuracy_float_again v a : accuracy_float v = Ok a -> accuracy_float a = Ok a.
Proof. by intros [->|[f ->]]%accuracy_float_shape. Qed.

Lemma validate_fixed_point now2 lat lon fecha foto mime filename accuracy p errs :
  validate now2 lat lon fecha foto mime filename accuracy = Ok (p, errs) ->
  (forall s, p_foto_base64 p = JStr s -> DATA_URI_RE_match s = None) ->
  validate now2 (p_lat p) (p_lon p) (JStr (p_fecha p)) (p_foto_base64 p) (p_mime p)
           (p_filename p) (p_accuracy p) = Ok (p, errs).
Proof.
  unfold validate, try_float.
  destruct (py_float lat) as [a|e1] eqn:Ha; [|destruct (caught e1) eqn:Hc1; [|done]];
    (destruct (py_float lon) as [b|e2] eqn:Hb; [|destruct (caught e2) eqn:Hc2; [|done]]);
    cbn;
    try (destruct (lat_in_range a) eqn:Hra); try (destruct (lon_in_range b) eqn:Hrb); cbn;
    (destruct (accuracy_float accuracy) as [acc|] eqn:Hacc; [|done]);
    (destruct (clean_b64 foto) as [ph|] eqn:Hfoto; [|done]); cbn;
    intros [= <- <-] Hphoto; cbn in *;
    rewrite ?Ha, ?Hb, ?Hc1, ?Hc2; cbn; rewrite ?Hra, ?Hrb; cbn;
    rewrite (accuracy_float_again _ _ Hacc), (clean_b64_again _ _ Hfoto Hphoto);
    reflexivity.
Qed.

(** X6: the record that the normalizer returns is a payload in the legacy
    format that normalizes to itself: given back to the normalizer as a
    mapping, it yields the same record and the same errors, provided the
    cleaned photo does not begin with a second data URI prefix (the
    normalizer would strip that one too) and the clock reads the same
    created_at. *)
Theorem normalized_payload_is_fixed_point now1 now1' now2 (data : json) p errs :
  parse_report_payload now1 now2 data = Ok (p, errs) ->
  (forall s, p_foto_base64 p = JStr s -> DATA_URI_RE_match s = None) ->
  parse_report_payload now1' now2 (JDict (payload_dict p)) = Ok (p, errs).
Proof.
  intros (lat & lon & fecha & foto & mime & filename & accuracy & Hv)%parse_validate Hphoto.
  rewrite parse_dict.
  destruct (raw_payload_dict p) as (-> & -> & -> & -> & -> & -> & ->).
  by eapply validate_fixed_point.
Qed.

End FixedPoint.

(** ** What POST /reportes stores *)

Section Posting.
Context {R : Runtime}.

Lemma sql_bind_text_inv s v : sql_bind (JStr s) = Ok v -> v = SText s.
Proof. cbn. destruct (has_surrogate s); [done|]. by intros [= <-]. Qed.

Lemma bind_payload_inv p assign :
  bind_payload p = Ok assign ->
  exists lat lon foto mime filename accuracy,
    sql_bind (p_lat p) = Ok lat /\ sql_bind (p_lon p) = Ok lon
    /\ sql_bind (p_foto_base64 p) = Ok foto /\ sql_bind (p_mime p) = Ok mime
    /\ sql_bind (p_filename p) = Ok filename /\ sql_bind (p_accuracy p) = Ok accuracy
    /\ assign = [ ("lat", lat); ("lon", lon); ("fecha", SText (p_fecha p));
                  ("foto_base64", foto); ("mime", mime); ("filename", filename);
                  ("accuracy", accuracy); ("created_at", SText (p_created_at p)) ].
Proof.
  unfold bind_payload.
  destruct (sql_bind (p_lat p)) as [lat|]; [|done].
  destruct (sql_bind (p_lon p)) as [lon|]; [|done].
  destruct (sql_bind (JStr (p_fecha p))) as [fecha|] eqn:Hfecha; [|done].
  destruct (sql_bind (p_foto_base64 p)) as [foto|]; [|done].
  destruct (sql_bind (p_mime p)) as [mime|]; [|done].
  destruct (sql_bind (p_filename p)) as [filename|]; [|done].
  destruct (sql_bind (p_accuracy p)) as [accuracy|]; [|done].
  destruct (sql_bind (JStr (p_created_at p))) as [created|] eqn:Hcreated; [|done].
  cbn [mbind result_bind]. intros [= <-].
  apply sql_bind_text_inv in Hfecha as ->. apply sql_bind_text_inv in Hcreated as ->.
  by exists lat, lon, foto, mime, filename, accuracy.
Qed.

(** The only way to a 201: the request is JSON, the normalizer returns no
    error, every value binds, and the row is appended under the next key. *)
Lemma crear_reporte_inv now1 now2 req db db' r :
  crear_reporte now1 now2 req db = (db', r) ->
  (db' = db
   /\ (is_json req = false /\ http_status r = 415
       \/ is_json req = true /\ (http_status r = 400 \/ http_status r = 500)))
  \/ (exists t p assign,
        db = Some t /\ is_json req = true
        /\ parse_report_payload now1 now2 (request_data req) = Ok (p, [])
        /\ bind_payload p = Ok assign
        /\ db' = Some {| columns := columns t;
                         rows := rows t ++ [appended t assign];
                         seq := next_rowid t |}
        /\ r = Ok {| status := 201;
                     body := JDict {[ "ok" := JBool true; "id" := JInt (next_rowid t) ]} |}).
Proof.
  unfold crear_reporte. destruct (is_json req); cbn [negb];
    [|intros [= <- <-]; left; auto].
  destruct (parse_report_payload now1 now2 (request_data req)) as [[p errs]|e];
    [|intros [= <- <-]; left; auto].
  destruct errs; [|intros [= <- <-]; left; auto].
  unfold execute_insert. destruct db as [t|]; [|intros [= <- <-]; left; auto].
  destruct (forallb (has_column t) insert_columns); [|intros [= <- <-]; left; auto].
  destruct (bind_payload p) as [assign|e] eqn:Hbind; cbn [mbind result_bind];
    [|intros [= <- <-]; left; auto].
  unfold insert_row. destruct (forallb _ assign); [|intros [= <- <-]; left; auto].
  destruct (next_rowid t <? 2 ^ 63); [|intros [= <- <-]; left; auto].
  intros [= <- <-]. right. exists t, p, assign. auto 10.
Qed.

(** X7: POST /reportes either leaves the store exactly as it was, or
    appends one row to the existing table, whose other rows, columns and
    order are untouched.  It appends only when it answers 201, and the id of
    the answer is the key of the new row, which is above the key of every
    stored row and above the counter of keys.  Every other outcome is 415
    (exactly when the request is not JSON), 400, or an exception (500). *)
Theorem post_appends_one_row_or_nothing now1 now2 req db db' r :
  crear_reporte now1 now2 req db = (db', r) ->
  (http_status r = 415 <-> is_json req = false)
  /\ ((db' = db /\ http_status r ∈ [400; 415; 500])
      \/ (exists t new,
            db = Some t
            /\ db' = Some {| columns := columns t; rows := rows t ++ [new]; seq := rowid new |}
            /\ Forall (fun old => rowid old < rowid new) (rows t)
            /\ seq t < rowid new
            /\ r = Ok {| status := 201;
                         body := JDict {[ "ok" := JBool true; "id" := JInt (rowid new) ]} |})).
Proof.
  intros [[-> Hst]|(t & p & assign & -> & Hjson & _ & _ & -> & ->)]%crear_reporte_inv.
  - split.
    + destruct Hst as [[-> ->]|[-> [->| ->]]]; done.
    + left. split; [done|].
      destruct Hst as [[_ ->]|[_ [->| ->]]]; apply (bool_decide_unpack _); by vm_compute.
  - split; [by rewrite Hjson|].
    right. exists t, (appended t assign). split; [done|]. split; [done|].
    split; [apply next_rowid_above_rows|]. split; [apply next_rowid_gt|done].
Qed.

End Posting.

(** ** From POST to GET *)

Section RoundTrip.
Context {R : Runtime}.

Lemma cell_columns t t' r name : columns t' = columns t -> cell t' r name = cell t r name.
Proof. unfold cell, column_names. by intros ->. Qed.

Lemma listed_columns t t' r : columns t' = columns t -> listed t' r = listed t r.
Proof. intros H. unfold listed. by rewrite !(cell_columns _ _ _ _ H). Qed.

Lemma report_json_columns t t' r : columns t' = columns t -> report_json t' r = report_json t r.
Proof. unfold report_json, report_fields, cell, column_names. by intros ->. Qed.

(** A listed row whose key is above every stored key comes first in the
    listing, before the rows that were listed already. *)
Lemma select_rows_appended t new sq :
  listed t new = true ->
  Forall (fun old => rowid old < rowid new) (rows t) ->
  exists rest,
    select_rows {| columns := columns t; rows := rows t ++ [new]; seq := sq |} = new :: rest
    /\ rest ≡ₚ select_rows t.
Proof.
  intros Hlisted Habove. unfold select_rows. cbn [rows].
  set (t' := {| columns := columns t; rows := rows t ++ [new]; seq := sq |}).
  set (l := List.filter (listed t) (rows t)).
  assert (Hl : List.filter (listed t') (rows t ++ [new]) = l ++ [new]).
  { rewrite List.filter_app. cbn [List.filter].
    by rewrite (listed_columns t t' new eq_refl), Hlisted. }
  rewrite Hl.
  pose proof (merge_sort_Permutation id_desc (l ++ [new])) as Hperm.
  pose proof id_desc_trans as Htrans. pose proof id_desc_total as Htotal.
  assert (Hsorted : StronglySorted id_desc (merge_sort id_desc (l ++ [new])))
    by (apply StronglySorted_merge_sort; apply _).
  assert (Hl_above : forall r, r ∈ l -> rowid r < rowid new).
  { intros r Hr. unfold l in Hr. apply list_elem_of_In, filter_In in Hr as [Hr _].
    rewrite Forall_forall in Habove. by apply Habove, list_elem_of_In. }
  destruct (merge_sort id_desc (l ++ [new])) as [|h rest].
  { apply Permutation_nil in Hperm. by destruct l. }
  apply StronglySorted_inv in Hsorted as [_ Hfirst].
  assert (Hh : h = new).
  { assert (Hin : h ∈ l ++ [new]) by (rewrite <- Hperm; apply list_elem_of_here).
    apply elem_of_app in Hin as [Hin|Hin]; [|by apply list_elem_of_singleton in Hin].
    exfalso. pose proof (Hl_above _ Hin) as Hlt.
    assert (Hnew : new ∈ h :: rest).
    { rewrite Hperm. apply elem_of_app. right. apply list_elem_of_here. }
    apply elem_of_cons in Hnew as [->|Hnew]; [lia|].
    rewrite Forall_forall in Hfirst.
    specialize (Hfirst _ Hnew). unfold id_desc in Hfirst. lia. }
  subst h. exists rest. split; [done|].
  rewrite (merge_sort_Permutation id_desc l).
  apply (Permutation_cons_inv (a := new)). rewrite Hperm.
  symmetry. apply Permutation_cons_append.
Qed.

Lemma appended_cells t lat lon fecha foto mime filename accuracy created :
  columns t = reportes_columns ->
  appended t [ ("lat", lat); ("lon", lon); ("fecha", fecha); ("foto_base64", foto);
               ("mime", mime); ("filename", filename); ("accuracy", accuracy);
               ("created_at", created) ]
  = {| rowid := next_rowid t;
       cells := [ apply_affinity TREAL lat; apply_affinity TREAL lon;
                  apply_affinity TTEXT fecha; apply_affinity TTEXT foto;
                  apply_affinity TTEXT mime; apply_affinity TTEXT filename;
                  apply_affinity TREAL accuracy; apply_affinity TTEXT created ] |}.
Proof. unfold appended. intros ->. reflexivity. Qed.

(** The cells of a row of a table with the columns of [CREATE TABLE]. *)
Lemma cell_reportes t r c0 c1 c2 c3 c4 c5 c6 c7 :
  columns t = reportes_columns ->
  cells r = [c0; c1; c2; c3; c4; c5; c6; c7] ->
  cell t r "id" = SInt (rowid r)
  /\ cell t r "lat" = c0 /\ cell t r "lon" = c1 /\ cell t r "fecha" = c2
  /\ cell t r "foto_base64" = c3 /\ cell t r "mime" = c4 /\ cell t r "filename" = c5
  /\ cell t r "accuracy" = c6 /\ cell t r "created_at" = c7.
Proof.
  intros Hcols Hcells. unfold cell, column_names. rewrite Hcols, Hcells.
  by repeat split.
Qed.

Lemma sql_bind_text_stored v s :
  text_or_null v = true -> sql_bind v = Ok s ->
  json_of_sql (apply_affinity TTEXT s) = v.
Proof.
  destruct v as [| | | |x| |]; try done; [by intros _ [= <-]|].
  by intros _ ->%sql_bind_text_inv.
Qed.

Lemma sql_bind_accuracy_stored a s :
  (a = JNull \/ exists f, a = JFloat f) -> sql_bind a = Ok s ->
  json_of_sql (apply_affinity TREAL s)
  = match a with
    | JFloat f => if PrimFloat.is_nan f then JNull else JFloat (real_cell f)
    | _ => JNull
    end.
Proof.
  intros [->|[f ->]]; cbn; intros [= <-]; [done|].
  by destruct (PrimFloat.is_nan f).
Qed.

(** A coordinate within range is within range as a REAL column gives it
    back. *)
Lemma real_cell_lat f : lat_in_range f = true -> lat_in_range (real_cell f) = true.
Proof. unfold real_cell. destruct (f =? 0)%float; [intros _; evaluate|done]. Qed.

Lemma real_cell_lon f : lon_in_range f = true -> lon_in_range (real_cell f) = true.
Proof. unfold real_cell. destruct (f =? 0)%float; [intros _; evaluate|done]. Qed.

Lemma sql_bind_coordinate f s :
  PrimFloat.is_nan f = false -> sql_bind (JFloat f) = Ok s -> s = SReal f.
Proof. cbn. intros ->. by intros [= <-]. Qed.


Lemma reportes_up_to_date t : columns t = reportes_columns -> up_to_date t = true.
Proof.
  unfold up_to_date, has_exact, table_info, column_names. intros ->. evaluate.
Qed.


(** X8: on a table with the columns of CREATE TABLE, a report that POST
    /reportes has just created (answer 201) is the first element of the
    next GET /reportes, followed by the elements that GET /reportes listed
    before.  The element is the object of nine fields: its id is the id of
    the answer; its lat and lon are the floats the normalizer coerced, as a
    REAL column gives them back (a negative zero comes back as zero, every
    other float as it is); its fecha and created_at are the texts of the
    normalized record; its photo, mime and filename are the normalized
    values when these are strings or null; its accuracy is the float of
    the normalized record as a REAL column gives it back, or null when the
    accuracy is absent or NaN. *)
Theorem created_report_is_listed_first now1 now2 req t db' resp :
  columns t = reportes_columns ->
  crear_reporte now1 now2 req (Some t) = (db', Ok resp) ->
  status resp = 201 ->
  exists p lat lon id foto mime filename old rest,
    parse_report_payload now1 now2 (request_data req) = Ok (p, [])
    /\ p_lat p = JFloat lat /\ p_lon p = JFloat lon
    /\ body resp = JDict {[ "ok" := JBool true; "id" := JInt id ]}
    /\ listar_reportes (Some t) = (Some t, Ok {| status := 200; body := JList old |})
    /\ listar_reportes db'
       = (db',
          Ok {| status := 200;
                body := JList
                  (JDict {[ "id" := JInt id;
                            "lat" := JFloat (real_cell lat);
                            "lon" := JFloat (real_cell lon);
                            "fecha" := JStr (p_fecha p);
                            "foto_base64" := foto;
                            "mime" := mime;
                            "filename" := filename;
                            "accuracy" :=
                              match p_accuracy p with
                              | JFloat f =>
                                  if PrimFloat.is_nan f then JNull else JFloat (real_cell f)
                              | _ => JNull
                              end;
                            "created_at" := JStr (p_created_at p) ]}
                   :: rest) |})
    /\ rest ≡ₚ old
    /\ (text_or_null (p_foto_base64 p) = true -> foto = p_foto_base64 p)
    /\ (text_or_null (p_mime p) = true -> mime = p_mime p)
    /\ (text_or_null (p_filename p) = true -> filename = p_filename p).
Proof.
  intros Hcols Hpost Hst.
  apply crear_reporte_inv in Hpost
    as [[_ Hbad]|(t0 & p & assign & [= <-] & Hjson & Hparse & Hbind & -> & [= ->])].
  { cbn in Hbad. rewrite Hst in Hbad. by destruct Hbad as [[_ ?]|[_ [?|?]]]. }
  destruct (parse_accepted _ _ _ _ Hparse) as (lat & lon & Hlat & Hlon & Hrlat & Hrlon).
  destruct (lat_in_range_finite _ Hrlat) as [Hnlat _].
  destruct (lon_in_range_finite _ Hrlon) as [Hnlon _].
  destruct (bind_payload_inv _ _ Hbind)
    as (slat & slon & sfoto & smime & sfile & sacc
        & Hslat & Hslon & Hsfoto & Hsmime & Hsfile & Hsacc & ->).
  rewrite Hlat in Hslat. rewrite Hlon in Hslon.
  apply (sql_bind_coordinate _ _ Hnlat) in Hslat as ->.
  apply (sql_bind_coordinate _ _ Hnlon) in Hslon as ->.
  rewrite (appended_cells _ _ _ _ _ _ _ _ _ Hcols).
  set (new := {| rowid := next_rowid t; cells := _ |}).
  set (t' := {| columns := columns t; rows := rows t ++ [new]; seq := next_rowid t |}).
  assert (Hcols' : columns t' = reportes_columns) by exact Hcols.
  destruct (cell_reportes t' new _ _ _ _ _ _ _ _ Hcols' eq_refl)
    as (Hid & Hclat & Hclon & Hcfecha & Hcfoto & Hcmime & Hcfile & Hcacc & Hccreated).
  assert (Hlisted : listed t new = true).
  { rewrite <- (listed_columns t t' new eq_refl). unfold listed. by rewrite Hclat, Hclon. }
  destruct (select_rows_appended t new (next_rowid t) Hlisted (next_rowid_above_rows t))
    as (rest & Hsel & Hrest).
  fold t' in Hsel.
  assert (Hacc : p_accuracy p = JNull \/ exists f, p_accuracy p = JFloat f).
  { apply parse_validate in Hparse
      as (? & ? & ? & ? & ? & ? & accuracy & Hv).
    apply validate_inv in Hv as (_ & _ & _ & _ & _ & Hacc & _).
    by apply accuracy_float_shape in Hacc. }
  exists p, lat, lon, (next_rowid t),
    (json_of_sql (apply_affinity TTEXT sfoto)),
    (json_of_sql (apply_affinity TTEXT smime)),
    (json_of_sql (apply_affinity TTEXT sfile)),
    (report_json t <$> select_rows t), (report_json t <$> rest).
  split; [done|]. split; [done|]. split; [done|]. split; [done|].
  split.
  { unfold listar_reportes.
    by rewrite (up_to_date_select _ (reportes_up_to_date _ Hcols)). }
  split.
  { unfold listar_reportes.
    rewrite (up_to_date_select _ (reportes_up_to_date _ Hcols')), Hsel.
    rewrite fmap_cons, report_json_explicit.
    rewrite Hclat, Hclon, Hcfecha, Hcfoto, Hcmime, Hcfile, Hcacc, Hccreated.
    rewrite (sql_bind_accuracy_stored _ _ Hacc Hsacc).
    replace (report_json t' <$> rest) with (report_json t <$> rest); [done|].
    apply list_fmap_ext. intros i r _. symmetry. by apply report_json_columns. }
  split; [by rewrite Hrest|].
  split; [|split]; intros Htext; by apply sql_bind_text_stored.
Qed.

End RoundTrip.

(** ** Histories on a store that the service created *)

Section Histories.
Context {R : Runtime}.

Lemma init_db_none :
  init_db None = (Some {| columns := reportes_columns; rows := []; seq := 0 |}, Ok tt).
Proof. evaluate. Qed.

Lemma kept_fresh : kept {| columns := reportes_columns; rows := []; seq := 0 |}.
Proof. unfold kept. cbn. repeat split; (done || constructor). Qed.

Lemma max_rowid_le rs s :
  0 <= s -> Forall (fun r => 0 < rowid r <= s) rs -> max_rowid rs <= s.
Proof.
  intros Hs. induction 1 as [|r rs Hr _ IH]; [done|].
  change (max_rowid (r :: rs)) with (Z.max (rowid r) (max_rowid rs)). lia.
Qed.

Lemma kept_next_rowid t : kept t -> next_rowid t = seq t + 1.
Proof.
  intros (_ & _ & Hseq & Hrows & _). unfold next_rowid.
  pose proof (max_rowid_le _ _ Hseq Hrows). lia.
Qed.

Lemma coordinates_in_range_columns t t' r :
  columns t' = columns t -> coordinates_in_range t r -> coordinates_in_range t' r.
Proof.
  intros H (lat & lon & ? & ? & ? & ?). exists lat, lon.
  by rewrite !(cell_columns _ _ _ _ H).
Qed.

(** The row that a 201 appends to a kept table holds the coordinates that
    the normalizer accepted. *)
Lemma appended_coordinates t p assign now1 now2 data :
  columns t = reportes_columns ->
  parse_report_payload now1 now2 data = Ok (p, []) ->
  bind_payload p = Ok assign ->
  coordinates_in_range t (appended t assign).
Proof.
  intros Hcols Hparse Hbind.
  destruct (parse_accepted _ _ _ _ Hparse) as (lat & lon & Hlat & Hlon & Hrlat & Hrlon).
  destruct (lat_in_range_finite _ Hrlat) as [Hnlat _].
  destruct (lon_in_range_finite _ Hrlon) as [Hnlon _].
  destruct (bind_payload_inv _ _ Hbind)
    as (slat & slon & sfoto & smime & sfile & sacc & Hslat & Hslon & _ & _ & _ & _ & ->).
  rewrite Hlat in Hslat. rewrite Hlon in Hslon.
  apply (sql_bind_coordinate _ _ Hnlat) in Hslat as ->.
  apply (sql_bind_coordinate _ _ Hnlon) in Hslon as ->.
  rewrite (appended_cells _ _ _ _ _ _ _ _ _ Hcols).
  set (new := {| rowid := next_rowid t; cells := _ |}).
  destruct (cell_reportes t new _ _ _ _ _ _ _ _ Hcols eq_refl) as (_ & Hclat & Hclon & _).
  exists (real_cell lat), (real_cell lon). rewrite Hclat, Hclon.
  split; [done|]. split; [by apply real_cell_lat|]. split; [done|].
  by apply real_cell_lon.
Qed.

Lemma kept_append t new :
  kept t -> rowid new = seq t + 1 -> coordinates_in_range t new ->
  kept {| columns := columns t; rows := rows t ++ [new]; seq := seq t + 1 |}.
Proof.
  intros (Hcols & Hsorted & Hseq & Hrows & Hcoord) Hid Hnew.
  unfold kept. cbn [columns rows seq].
  split; [done|]. split; [|split; [lia|split]].
  - rewrite fmap_app. apply StronglySorted_app_2; [|done|repeat constructor].
    intros x1 x2 Hx1 ->%list_elem_of_singleton.
    apply list_elem_of_fmap in Hx1 as (r & -> & Hr).
    rewrite Forall_forall in Hrows. specialize (Hrows _ Hr). lia.
  - apply Forall_app. split.
    + eapply Forall_impl; [exact Hrows|]. cbn beta. intros. lia.
    + constructor; [lia|done].
  - apply Forall_app. split.
    + eapply Forall_impl; [exact Hcoord|]. intros r.
      by apply coordinates_in_range_columns.
    + constructor; [|done]. by apply (coordinates_in_range_columns t).
Qed.

(** One request on a kept table: the table stays kept, and the ids issued
    are the next values of the counter of keys. *)
Lemma exec_kept c t db rs :
  kept t -> exec c (Some t) = (db, rs) ->
  exists t', db = Some t' /\ kept t' /\ seq t <= seq t'
             /\ issued_ids rs = seqZ (seq t + 1) (seq t' - seq t).
Proof.
  intros Hkept. pose proof Hkept as (Hcols & _ & Hseq & _ & _).
  destruct c as [now1 now2 req| | |]; cbn [exec].
  - destruct (crear_reporte now1 now2 req (Some t)) as [db' r] eqn:Hpost.
    intros [= <- <-].
    apply crear_reporte_inv in Hpost
      as [[-> Hst]|(t0 & p & assign & [= <-] & _ & Hparse & Hbind & -> & ->)].
    + exists t. split; [done|]. split; [done|]. split; [lia|].
      rewrite Z.sub_diag. unfold issued_ids. cbn.
      replace (issued_id r) with (@None Z); [done|].
      destruct r as [resp|]; [|done]. cbn in *.
      destruct Hst as [[_ ->]|[_ [->| ->]]]; done.
    + rewrite (kept_next_rowid _ Hkept). eexists. split; [done|].
      split; [|split; [cbn; lia|]].
      * apply kept_append; [done|by apply kept_next_rowid|].
        by eapply appended_coordinates.
      * cbn [seq]. replace (seq t + 1 - seq t) with 1 by lia.
        unfold issued_ids. cbn. f_equal; lia.
  - unfold listar_reportes. destruct (forallb (has_column t) select_columns);
      intros [= <- <-]; exists t; rewrite Z.sub_diag;
      (split; [done|]; split; [done|]; split; [lia|reflexivity]).
  - cbn. intros [= <- <-]. exists (delete_all t). rewrite Z.sub_diag.
    split; [done|]. split; [|by split].
    unfold kept, delete_all. cbn. split; [done|]. split; [constructor|].
    split; [done|]. split; constructor.
  - rewrite (init_db_up_to_date _ (reportes_up_to_date _ Hcols)). intros [= <- <-].
    exists t. rewrite Z.sub_diag. split; [done|]. split; [done|]. split; [lia|done].
Qed.

Lemma run_kept cs t db rs :
  kept t -> run cs (Some t) = (db, rs) ->
  exists t', db = Some t' /\ kept t' /\ seq t <= seq t'
             /\ issued_ids rs = seqZ (seq t + 1) (seq t' - seq t).
Proof.
  revert t db rs. induction cs as [|c cs IH]; intros t db rs Hkept; cbn [run].
  - intros [= <- <-]. exists t. rewrite Z.sub_diag.
    split; [done|]. split; [done|]. split; [lia|done].
  - destruct (exec c (Some t)) as [db1 rs1] eqn:Hc.
    destruct (run cs db1) as [db2 rs2] eqn:Hr. intros [= <- <-].
    destruct (exec_kept _ _ _ _ Hkept Hc) as (t1 & -> & Hkept1 & Hle1 & Hids1).
    destruct (IH _ _ _ Hkept1 Hr) as (t2 & -> & Hkept2 & Hle2 & Hids2).
    exists t2. split; [done|]. split; [done|]. split; [lia|].
    rewrite issued_ids_app, Hids1, Hids2.
    replace (seq t2 - seq t) with ((seq t1 - seq t) + (seq t2 - seq t1)) by lia.
    rewrite seqZ_app by lia. do 2 f_equal. lia.
Qed.


(** Rows sorted by strictly descending key are the only arrangement of
    their rows by descending key. *)
Lemma id_desc_sorted_unique (l1 l2 : list row) :
  StronglySorted (fun a b => rowid b < rowid a) l1 ->
  StronglySorted id_desc l2 ->
  l1 ≡ₚ l2 -> l1 = l2.
Proof.
  intros Hs1. revert l2. induction Hs1 as [|a l1 Hs1 IH Ha]; intros l2 Hs2 Hperm.
  - by apply Permutation_nil in Hperm.
  - destruct l2 as [|b l2]; [by apply Permutation_sym, Permutation_nil in Hperm|].
    apply StronglySorted_inv in Hs2 as [Hs2 Hb].
    rewrite Forall_forall in Ha, Hb.
    assert (Hab : b = a).
    { assert (Hin : b ∈ a :: l1) by (rewrite Hperm; apply list_elem_of_here).
      apply elem_of_cons in Hin as [Hin|Hin]; [done|]. exfalso.
      pose proof (Ha _ Hin) as Hlt.
      assert (Hin' : a ∈ b :: l2) by (rewrite <- Hperm; apply list_elem_of_here).
      apply elem_of_cons in Hin' as [->|Hin']; [lia|].
      specialize (Hb _ Hin'). unfold id_desc in Hb. lia. }
    subst b. f_equal. apply IH; [done|]. by apply Permutation_cons_inv in Hperm.
Qed.

Lemma reverse_descending (l : list row) :
  StronglySorted Z.lt (rowid <$> l) ->
  StronglySorted (fun a b => rowid b < rowid a) (reverse l).
Proof.
  induction l as [|a l IH]; [constructor|].
  rewrite fmap_cons, reverse_cons. intros [Hs Ha]%StronglySorted_inv.
  apply StronglySorted_app_2; [|by apply IH|repeat constructor].
  intros x1 x2 Hx1 ->%list_elem_of_singleton. rewrite elem_of_reverse in Hx1.
  rewrite Forall_forall in Ha. apply Ha, list_elem_of_fmap. eauto.
Qed.

Lemma kept_listed t : kept t -> List.filter (listed t) (rows t) = rows t.
Proof.
  intros (_ & _ & _ & _ & Hcoord).
  induction Hcoord as [|r rs (lat & lon & Hlat & _ & Hlon & _) _ IH]; [done|].
  cbn [List.filter]. unfold listed at 1. by rewrite Hlat, Hlon, IH.
Qed.

(** On a kept table the listing is the stored rows, last stored first. *)
Lemma kept_select_rows t : kept t -> select_rows t = reverse (rows t).
Proof.
  intros Hkept. unfold select_rows. rewrite (kept_listed _ Hkept).
  destruct Hkept as (_ & Hsorted & _).
  pose proof id_desc_trans as Htrans. pose proof id_desc_total as Htotal.
  symmetry. apply id_desc_sorted_unique.
  - by apply reverse_descending.
  - apply StronglySorted_merge_sort; apply _.
  - by rewrite merge_sort_Permutation, reverse_Permutation.
Qed.

(** X9: after any history of requests (POST, GET, DELETE, restarts) on a
    store that init_db created in a new file, the table has the columns of
    CREATE TABLE, every stored row holds a latitude within [-90, 90] and a
    longitude within [-180, 180], and the keys grow in the order of storage;
    so GET /reportes answers 200 with every stored row, none hidden by its
    filter, the last stored first. *)
Theorem history_lists_every_report (cs : list call) db rs :
  run cs (fst (init_db None)) = (db, rs) ->
  exists t,
    db = Some t
    /\ columns t = reportes_columns
    /\ Forall (coordinates_in_range t) (rows t)
    /\ StronglySorted Z.lt (rowid <$> rows t)
    /\ listar_reportes db
       = (db, Ok {| status := 200; body := JList (report_json t <$> reverse (rows t)) |}).
Proof.
  rewrite init_db_none. cbn [fst]. intros Hrun.
  destruct (run_kept _ _ _ _ kept_fresh Hrun) as (t & -> & Hkept & _ & _).
  exists t. pose proof Hkept as (Hcols & Hsorted & _ & _ & Hcoord).
  split; [done|]. split; [done|]. split; [done|]. split; [done|].
  unfold listar_reportes.
  by rewrite (up_to_date_select _ (reportes_up_to_date _ Hcols)), (kept_select_rows _ Hkept).
Qed.

(** X10: on a store that init_db created in a new file, the ids that POST
    /reportes issues during any history of requests are 1, 2, 3, ... in
    this order, without gap or repetition: a request that is refused or
    fails consumes no id, and neither DELETE /borrar_todos nor a restart
    resets the count.  The counter of keys is the number of ids issued, and
    no stored row has a key above it. *)
Theorem issued_ids_are_consecutive (cs : list call) db rs :
  run cs (fst (init_db None)) = (db, rs) ->
  exists t,
    db = Some t
    /\ issued_ids rs = seqZ 1 (seq t)
    /\ seq t = Z.of_nat (length (issued_ids rs))
    /\ Forall (fun r => 0 < rowid r <= seq t) (rows t).
Proof.
  rewrite init_db_none. cbn [fst]. intros Hrun.
  destruct (run_kept _ _ _ _ kept_fresh Hrun) as (t & -> & Hkept & Hle & Hids).
  cbn [seq] in Hle, Hids. rewrite Z.sub_0_r in Hids. cbn in Hids.
  exists t. destruct Hkept as (_ & _ & Hseq & Hrows & _).
  split; [done|]. split; [done|]. split; [|done].
  rewrite Hids, length_seqZ. lia.
Qed.

End Histories.

(** ** Values that cannot be stored *)

Section Unstorable.
Context {R : Runtime}.






End Unstorable.

(** ** Deleting every report *)

Section Deleting.
Context {R : Runtime}.

(** X12: DELETE /borrar_todos on a table with the current columns answers
    200, removes every row and keeps the columns and the counter of keys;
    the GET /reportes that follows answers 200 with the empty list, a second
    DELETE changes nothing more, and a report created afterwards is the only
    one listed. *)
Theorem delete_then_list_is_empty (t : table) :
  up_to_date t = true ->
  exists t',
    fst (borrar_todos (Some t)) = Some t'
    /\ http_status (snd (borrar_todos (Some t))) = 200
    /\ columns t' = columns t /\ rows t' = [] /\ seq t' = seq t
    /\ listar_reportes (Some t') = (Some t', Ok {| status := 200; body := JList [] |})
    /\ fst (borrar_todos (Some t')) = Some t'
    /\ (forall now1 now2 req t'' resp,
          crear_reporte now1 now2 req (Some t') = (Some t'', Ok resp) ->
          status resp = 201 ->
          exists new, rows t'' = [new] /\ seq t < rowid new
                      /\ body resp = JDict {[ "ok" := JBool true; "id" := JInt (rowid new) ]}).
Proof.
  intros Hup. exists (delete_all t).
  assert (Hup' : up_to_date (delete_all t) = true)
    by (by rewrite (up_to_date_columns t (delete_all t))).
  split; [done|]. split; [done|]. split; [done|]. split; [done|]. split; [done|].
  split; [|split; [done|]].
  - unfold listar_reportes. by rewrite (up_to_date_select _ Hup').
  - intros now1 now2 req t'' resp Hpost Hst.
    apply crear_reporte_inv in Hpost
      as [[_ Hbad]|(t0 & p & assign & [= <-] & _ & _ & _ & [= ->] & [= ->])].
    { cbn in Hbad. rewrite Hst in Hbad. by destruct Hbad as [[_ ?]|[_ [?|?]]]. }
    exists (appended (delete_all t) assign). split; [done|].
    split; [apply (next_rowid_gt (delete_all t))|done].
Qed.

End Deleting.

(** ** init_db on any table *)

Lemma forallb_agree {A} (f g : A -> bool) l :
  (forall x, x ∈ l -> f x = g x) -> forallb f l = forallb g l.
Proof.
  induction l as [|a l IH]; [done|]. intros H. cbn.
  rewrite (H a) by apply list_elem_of_here. rewrite IH; [done|].
  intros x Hx. apply H. by apply list_elem_of_further.
Qed.

Lemma forallb_false {A} (f : A -> bool) l :
  forallb f l = false <-> exists x, x ∈ l /\ f x = false.
Proof.
  induction l as [|a l IH]; cbn.
  - split; [done|]. by intros (x & Hx%elem_of_nil & _).
  - rewrite andb_false_iff, IH. split.
    + intros [Ha|(x & Hx & Hf)]; [exists a|exists x]; split; try done.
      * apply list_elem_of_here.
      * by apply list_elem_of_further.
    + intros (x & [->|Hx]%elem_of_cons & Hf); [by left|right; eauto].
Qed.

Lemma addable_extend t c c' :
  same_name (col_name c') (col_name c) = false ->
  addable (extend t [c]) c' = addable t c'.
Proof.
  intros Hne. unfold addable. rewrite has_column_extend. cbn.
  by rewrite Hne, !orb_false_r.
Qed.

(** The statements of [alters], of names that differ beyond their case, run
    until the first one that SQLite refuses. *)
Lemma exec_alters_outcome cs t :
  NoDup (lower_string <$> (col_name <$> cs)) ->
  exists done_,
    done_ `prefix_of` cs
    /\ fst (exec_alters cs t) = Some (extend t done_)
    /\ snd (exec_alters cs t) = (if forallb (addable t) cs then Ok tt else Raise SqliteError)
    /\ (forallb (addable t) cs = true -> done_ = cs).
Proof.
  revert t. induction cs as [|c cs IH]; intros t Hnd.
  - exists []. cbn. by rewrite extend_nil.
  - rewrite !fmap_cons in Hnd. apply NoDup_cons in Hnd as [Hnotin Hnd].
    cbn [exec_alters forallb].
    assert (Ha : addable t c = negb (has_column t (col_name c))) by done.
    rewrite !Ha. clear Ha.
    destruct (has_column t (col_name c)) eqn:Hc; cbn [negb andb].
    + exists []. unfold add_column. rewrite Hc, extend_nil.
      split; [apply prefix_nil|done].
    + rewrite (add_column_fresh _ _ Hc).
      destruct (IH (extend t [c]) Hnd) as (done_ & Hpre & Hfst & Hsnd & Hall).
      assert (Hsame : forallb (addable (extend t [c])) cs = forallb (addable t) cs).
      { apply forallb_agree. intros c' Hin. apply addable_extend.
        unfold same_name. apply String.eqb_neq. intros Heq. apply Hnotin.
        rewrite <- Heq. apply list_elem_of_fmap. exists (col_name c'). split; [done|].
        apply list_elem_of_fmap. eauto. }
      exists (c :: done_). rewrite Hsame in Hsnd, Hall.
      split; [by apply prefix_cons|].
      split; [by rewrite Hfst, extend_extend|].
      split; [done|]. intros H. by rewrite (Hall H).
Qed.

Lemma missing_distinct t : NoDup (lower_string <$> (col_name <$> missing t)).
Proof.
  unfold missing, evolvable_columns. cbn [List.filter col_name].
  destruct (has_exact t "mime"), (has_exact t "filename"),
    (has_exact t "accuracy"), (has_exact t "created_at");
    by apply (bool_decide_unpack _).
Qed.

(** X13: on any existing table, init_db never removes, renames or reorders
    a column or a row and never changes a stored value or the counter of
    keys: the table it leaves is the old one with some of the missing
    columns among mime, filename, accuracy and created_at added at the end,
    NULL in every row.  It returns normally exactly when SQLite accepts each
    missing column, and then all of them are added; it raises (a
    sqlite3.Error) exactly when the table has one of these columns under a
    name that differs by letter case, and then the columns added before the
    refused one stay. *)
Theorem init_db_never_loses_data (t : table) :
  exists added,
    added `prefix_of` missing t
    /\ fst (init_db (Some t)) = Some (extend t added)
    /\ snd (init_db (Some t))
       = (if forallb (addable t) (missing t) then Ok tt else Raise SqliteError)
    /\ (forallb (addable t) (missing t) = true -> added = missing t)
    /\ (forallb (addable t) (missing t) = false <->
          exists c, c ∈ evolvable_columns
                    /\ has_exact t (col_name c) = false /\ has_column t (col_name c) = true).
Proof.
  rewrite init_db_alters.
  destruct (exec_alters_outcome (missing t) t (missing_distinct t))
    as (added & Hpre & Hfst & Hsnd & Hall).
  exists added. split; [done|]. split; [done|]. split; [done|]. split; [done|].
  rewrite forallb_false. split.
  - intros (c & [Hc Hexact]%missing_spec & Hadd). exists c.
    unfold addable in Hadd. by destruct (has_column t (col_name c)).
  - intros (c & Hc & Hexact & Hcol). exists c.
    split; [by apply missing_spec|]. unfold addable. by rewrite Hcol.
Qed.

(** ** Tables of older versions *)

Section Evolution.
Context {R : Runtime}.

(** Without one of the columns that the INSERT names, nothing is stored. *)
Lemma crear_reporte_needs_columns now1 now2 req t :
  forallb (has_column t) insert_columns = false ->
  fst (crear_reporte now1 now2 req (Some t)) = Some t
  /\ http_status (snd (crear_reporte now1 now2 req (Some t))) ∈ [400; 415; 500].
Proof.
  intros Hno. unfold crear_reporte, execute_insert. rewrite Hno.
  destruct (negb (is_json req)).
  { split; [done|]. apply (bool_decide_unpack _). by vm_compute. }
  destruct (parse_report_payload now1 now2 (request_data req)) as [[p [|err errs]]|e];
    (split; [done|]); apply (bool_decide_unpack _); by vm_compute.
Qed.

Lemma has_exact_extend t cs name :
  has_exact t name = true -> has_exact (extend t cs) name = true.
Proof.
  rewrite !has_exact_spec, table_info_extend. intros H. apply elem_of_app. by left.
Qed.

Lemma init_db_makes_up_to_date t :
  has_base_columns t = true -> up_to_date (extend t (missing t)) = true.
Proof.
  unfold has_base_columns, up_to_date, insert_columns. cbn [forallb].
  rewrite !andb_true_iff. intros (Hlat & Hlon & Hfecha & Hfoto & _).
  rewrite !(has_exact_extend t _ _ Hlat), !(has_exact_extend t _ _ Hlon),
    !(has_exact_extend t _ _ Hfecha), !(has_exact_extend t _ _ Hfoto).
  do 4 (split; [done|]).
  split; [|split; [|split; [|split; [|done]]]].
  - apply (evolvable_after_init t {| col_name := "mime"; col_type := TTEXT |}).
    repeat constructor.
  - apply (evolvable_after_init t {| col_name := "filename"; col_type := TTEXT |}).
    repeat constructor.
  - apply (evolvable_after_init t {| col_name := "accuracy"; col_type := TREAL |}).
    repeat constructor.
  - apply (evolvable_after_init t {| col_name := "created_at"; col_type := TTEXT |}).
    repeat constructor.
Qed.

(** A table of an older version lacks a column that the handlers name. *)
Lemma missing_column_unnamed t :
  subschema t -> missing t <> [] -> forallb (has_column t) insert_columns = false.
Proof.
  intros Hsub Hmiss. destruct (missing t) as [|c cs] eqn:E; [done|].
  assert (Hc : c ∈ missing t) by (rewrite E; apply list_elem_of_here).
  apply missing_spec in Hc as [Hc Hexact].
  rewrite <- (subschema_resolution _ _ Hsub Hc) in Hexact.
  apply forallb_false. exists (col_name c). split; [|done].
  clear -Hc. unfold evolvable_columns in Hc.
  repeat (apply elem_of_cons in Hc as [->|Hc];
          [apply (bool_decide_unpack _); by vm_compute|]).
  by apply elem_of_nil in Hc.
Qed.

Lemma listed_extend t cs r :
  has_column t "lat" = true -> has_column t "lon" = true ->
  listed (extend t cs) (pad_row (length cs) r) = listed t r.
Proof. intros Hlat Hlon. unfold listed. by rewrite !cell_extend_old. Qed.

(** X14: a table of an older version of the service (its columns are among
    the current ones and include lat, lon, fecha and foto_base64) that lacks
    one of mime, filename, accuracy and created_at cannot be served: GET
    /reportes raises and POST /reportes stores nothing and never answers
    201.  init_db repairs it: afterwards the table has every column that
    the handlers name, and GET /reportes answers 200 with the rows that hold
    a latitude and a longitude, each with its old cells followed by NULL in
    the added columns. *)
Theorem init_db_restores_service (t : table) :
  subschema t -> has_base_columns t = true ->
  (missing t <> [] ->
     listar_reportes (Some t) = (Some t, Raise SqliteError)
     /\ forall now1 now2 req,
          fst (crear_reporte now1 now2 req (Some t)) = Some t
          /\ http_status (snd (crear_reporte now1 now2 req (Some t))) ∈ [400; 415; 500])
  /\ exists t' out,
       init_db (Some t) = (Some t', Ok tt)
       /\ up_to_date t' = true
       /\ listar_reportes (Some t')
          = (Some t', Ok {| status := 200; body := JList (report_json t' <$> out) |})
       /\ out ≡ₚ pad_row (length (missing t)) <$> List.filter (listed t) (rows t).
Proof.
  intros Hsub Hbase. split.
  - intros Hmiss. pose proof (missing_column_unnamed _ Hsub Hmiss) as Hno. split.
    + unfold listar_reportes, select_columns. cbn [forallb].
      by rewrite Hno, andb_false_r.
    + intros now1 now2 req. by apply crear_reporte_needs_columns.
  - pose proof (init_db_makes_up_to_date _ Hbase) as Hup.
    exists (extend t (missing t)), (select_rows (extend t (missing t))).
    split; [by apply init_db_extend|]. split; [done|].
    split; [unfold listar_reportes; by rewrite (up_to_date_select _ Hup)|].
    unfold select_rows. rewrite merge_sort_Permutation.
    unfold has_base_columns in Hbase. cbn [forallb] in Hbase.
    apply andb_true_iff in Hbase as [Hlat Hbase]. apply andb_true_iff in Hbase as [Hlon _].
    apply has_exact_has_column in Hlat, Hlon.
    unfold extend at 2. cbn [rows].
    change (pad_row (length (missing t)) <$> rows t)
      with (map (pad_row (length (missing t))) (rows t)).
    rewrite filter_map_swap.
    erewrite List.filter_ext; [reflexivity|].
    intros r. by apply listed_extend.
Qed.

End Evolution.

(** ** Without the table *)

Section NoTable.
Context {R : Runtime}.

(** X15: when the table does not exist (the database file was removed
    after the start), GET /reportes and DELETE /borrar_todos raise, POST
    /reportes stores nothing and never answers 201, while GET /health still
    answers 200 since it does not touch the store; a call of init_db
    creates the table, and GET /reportes then answers 200 with the empty
    list. *)
Theorem missing_table_only_health_answers now1 now2 req :
  listar_reportes None = (None, Raise SqliteError)
  /\ borrar_todos None = (None, Raise SqliteError)
  /\ fst (crear_reporte now1 now2 req None) = None
  /\ http_status (snd (crear_reporte now1 now2 req None)) ∈ [400; 415; 500]
  /\ health None = (None, Ok {| status := 200; body := JDict {[ "status" := JStr "ok" ]} |})
  /\ listar_reportes (fst (init_db None))
     = (fst (init_db None), Ok {| status := 200; body := JList [] |}).
Proof.
  split; [done|]. split; [done|].
  destruct (crear_reporte now1 now2 req None) as [db' r] eqn:Hpost.
  apply crear_reporte_inv in Hpost as [[-> Hst]|(t & _ & _ & [=] & _)].
  split; [done|]. split; [|split; [done|evaluate]].
  cbn [snd]. destruct Hst as [[_ ->]|[_ [->| ->]]]; apply (bool_decide_unpack _); by vm_compute.
Qed.

End NoTable.

(** ** Integers beyond the range of a float *)

Section Overflow.
Context {R : Runtime}.

Lemma py_float_unfit v : fits_float v = false -> py_float v = Raise OverflowError.
Proof.
  destruct v as [|b|z|f|s|l|m]; cbn; try done.
  destruct (float_of_int z) as [f|e] eqn:E; [done|].
  by apply float_of_int_raises in E as ->.
Qed.

Lemma accuracy_float_unfit v :
  fits_float v = false -> accuracy_float v = Raise OverflowError.
Proof.
  intros H. unfold accuracy_float. rewrite (py_float_unfit _ H). by destruct v.
Qed.

(** X16: float(...) of an integer beyond the range of a float raises
    OverflowError, which the handlers of the normalizer (TypeError,
    ValueError) do not catch: when the lat, the lon or the accuracy of a
    mapping is such an integer, the normalizer raises OverflowError, whatever
    the other fields, instead of reporting an invalid coordinate or dropping
    the accuracy; POST /reportes then fails (HTTP 500) and stores nothing. *)
Theorem oversized_number_not_caught now1 now2 req (m : gmap string json) db :
  is_json req = true -> get_json req = Some (JDict m) ->
  fits_float (raw_lat m) && fits_float (raw_lon m) && fits_float (raw_accuracy m) = false ->
  parse_report_payload now1 now2 (JDict m) = Raise OverflowError
  /\ crear_reporte now1 now2 req db = (db, Raise OverflowError).
Proof.
  intros Hjson Hbody Hfit.
  assert (Hparse : parse_report_payload now1 now2 (JDict m) = Raise OverflowError).
  { rewrite parse_dict. unfold validate.
    destruct (fits_float (raw_lat m)) eqn:Hlat.
    - destruct (py_float_cases _ Hlat) as [[x Hx]|[e1 [He1 Hc1]]];
        [rewrite (try_float_ok _ _ _ _ Hx)|rewrite (try_float_caught _ _ _ _ He1 Hc1)];
        cbn [mbind result_bind].
      + destruct (fits_float (raw_lon m)) eqn:Hlon.
        * cbn in Hfit. rewrite (accuracy_float_unfit _ Hfit).
          destruct (py_float_cases _ Hlon) as [[y Hy]|[e2 [He2 Hc2]]];
            [rewrite (try_float_ok _ _ _ _ Hy)|rewrite (try_float_caught _ _ _ _ He2 Hc2)];
            cbn [mbind result_bind app]; [|reflexivity].
          unfold range_check. by destruct (lat_in_range x), (lon_in_range y).
        * by rewrite (try_float_raise _ OverflowError _ _ (py_float_unfit _ Hlon)).
      + destruct (fits_float (raw_lon m)) eqn:Hlon.
        * cbn in Hfit. rewrite (accuracy_float_unfit _ Hfit).
          destruct (py_float_cases _ Hlon) as [[y Hy]|[e2 [He2 Hc2]]];
            [rewrite (try_float_ok _ _ _ _ Hy)|rewrite (try_float_caught _ _ _ _ He2 Hc2)];
            reflexivity.
        * by rewrite (try_float_raise _ OverflowError _ _ (py_float_unfit _ Hlon)).
    - by rewrite (try_float_raise _ OverflowError _ _ (py_float_unfit _ Hlat)). }
  split; [exact Hparse|].
  unfold crear_reporte. by rewrite Hjson, (request_data_dict _ _ Hbody), Hparse.
Qed.

End Overflow.

(** * Worked examples of the further properties *)

(** X1, witness: the legacy example with a created_at of the client's
    normalizes as the legacy example alone, and is stored the same. *)
Lemma unknown_key_ignored_witness :
  parse_report_payload clock1 clock2 (JDict extra_key_example)
    = parse_report_payload clock1 clock2 (JDict legacy_example)
  /\ crear_reporte clock1 clock2 (json_request extra_key_example) (Some three_rows)
     = crear_reporte clock1 clock2 (json_request legacy_example) (Some three_rows).
Proof.
  apply (unknown_key_ignored clock1 clock2 legacy_example "created_at"
           (JStr "1999-01-01T00:00:00") (Some three_rows)).
  apply (bool_decide_unpack _). by vm_compute.
Defined.

(** X2, witness: both coordinates out of range give the two range errors,
    one of the seven lists. *)
Lemma errors_one_of_seven_witness :
  (exists p, parse_report_payload clock1 clock2 (JDict out_of_range_example)
             = Ok (p, [msg_lat_range; msg_lon_range]))
  /\ [msg_lat_range; msg_lon_range] ∈ error_lists
  /\ (length [msg_lat_range; msg_lon_range] <= 2)%nat.
Proof.
  split; [eexists; evaluate|].
  eapply (errors_one_of_seven clock1 clock2 (JDict out_of_range_example)).
  evaluate.
Defined.

(** X3, witness: the legacy example is accepted, with the coordinates 10.1
    and -74.8. *)
Lemma accepted_iff_coordinates_in_range_witness :
  exists p,
    parse_report_payload clock1 clock2 (JDict legacy_example) = Ok (p, [])
    /\ (@nil string = [] <->
          exists lat lon, p_lat p = JFloat lat /\ p_lon p = JFloat lon
                          /\ lat_in_range lat = true /\ lon_in_range lon = true)
    /\ (@nil string = [] ->
          exists lat lon, p_lat p = JFloat lat /\ p_lon p = JFloat lon
                          /\ PrimFloat.is_nan lat = false /\ PrimFloat.is_infinity lat = false
                          /\ PrimFloat.is_nan lon = false /\ PrimFloat.is_infinity lon = false).
Proof.
  eexists. split; [evaluate|].
  apply (accepted_iff_coordinates_in_range clock1 clock2 (JDict legacy_example)).
  evaluate.
Defined.

(** X4, witness: a JSON request with the empty array as body is answered
    400 with the two coercion errors; the three stored rows stay. *)
Lemma empty_body_rejected_witness :
  crear_reporte clock1 clock2 empty_array_request (Some three_rows) =
    (Some three_rows,
     Ok {| status := 400;
           body := JDict {[ "error" := JStr "payload inválido";
                            "detalles" := JList [JStr msg_lat_invalid;
                                                 JStr msg_lon_invalid] ]} |}).
Proof.
  apply (empty_body_rejected clock1 clock2 empty_array_request (Some three_rows)).
  - reflexivity.
  - intros v [= <-]. reflexivity.
Defined.

(** X5, witness: an array without any field name is answered 400; an array
    with the element lon raises TypeError. *)
Lemma non_object_body_never_stored_witness :
  crear_reporte clock1 clock2 array_request (Some three_rows) =
    (Some three_rows,
     Ok {| status := 400;
           body := JDict {[ "error" := JStr "payload inválido";
                            "detalles" := JList [JStr msg_lat_invalid;
                                                 JStr msg_lon_invalid] ]} |})
  /\ crear_reporte clock1 clock2 array_with_name_request (Some three_rows)
     = (Some three_rows, Raise TypeError).
Proof.
  split.
  - apply (non_object_body_never_stored clock1 clock2 array_request
             (JList [JStr "a"; JInt 1]) (Some three_rows)); done.
  - apply (non_object_body_never_stored clock1 clock2 array_with_name_request
             (JList [JStr "lon"]) (Some three_rows)); done.
Defined.

(** X6, witness: the record of the legacy example, whose photo lost its
    prefix, normalizes to itself. *)
Lemma normalized_payload_is_fixed_point_witness :
  exists p,
    parse_report_payload clock1 clock2 (JDict legacy_example) = Ok (p, [])
    /\ p_foto_base64 p = JStr "QUJD"
    /\ parse_report_payload clock2 clock2 (JDict (payload_dict p)) = Ok (p, []).
Proof.
  eexists. split; [evaluate|]. split; [reflexivity|].
  apply (normalized_payload_is_fixed_point clock1 clock2 clock2 (JDict legacy_example)).
  - evaluate.
  - intros s [= <-]. reflexivity.
Defined.

(** X7, witness: the legacy example on the table of three rows is answered
    201 with the id 8, the key of the row that it appends. *)
Lemma post_appends_one_row_or_nothing_witness :
  ((http_status (snd (crear_reporte clock1 clock2 (json_request legacy_example)
                                    (Some three_rows))) = 415
    <-> is_json (json_request legacy_example) = false)
   /\ ((fst (crear_reporte clock1 clock2 (json_request legacy_example) (Some three_rows))
        = Some three_rows
        /\ http_status (snd (crear_reporte clock1 clock2 (json_request legacy_example)
                                           (Some three_rows))) ∈ [400; 415; 500])
       \/ (exists t new,
             Some three_rows = Some t
             /\ fst (crear_reporte clock1 clock2 (json_request legacy_example) (Some three_rows))
                = Some {| columns := columns t; rows := rows t ++ [new]; seq := rowid new |}
             /\ Forall (fun old => rowid old < rowid new) (rows t)
             /\ seq t < rowid new
             /\ snd (crear_reporte clock1 clock2 (json_request legacy_example) (Some three_rows))
                = Ok {| status := 201;
                        body := JDict {[ "ok" := JBool true; "id" := JInt (rowid new) ]} |})))
  /\ issued_id (snd (crear_reporte clock1 clock2 (json_request legacy_example)
                                   (Some three_rows))) = Some 8.
Proof.
  split; [|evaluate].
  apply (post_appends_one_row_or_nothing clock1 clock2 (json_request legacy_example)
           (Some three_rows)).
  apply surjective_pairing.
Defined.


(** X8, witness: the current-schema example, created on the table of three
    rows, heads the next listing with its nine fields, before the two
    reports that were listed already. *)
Lemma created_report_is_listed_first_witness :
  exists p lat lon id foto mime filename old rest,
    parse_report_payload clock1 clock2 (request_data (json_request current_example))
      = Ok (p, [])
    /\ p_lat p = JFloat lat /\ p_lon p = JFloat lon
    /\ body {| status := 201; body := JDict {[ "ok" := JBool true; "id" := JInt 8 ]} |}
       = JDict {[ "ok" := JBool true; "id" := JInt id ]}
    /\ listar_reportes (Some three_rows)
       = (Some three_rows, Ok {| status := 200; body := JList old |})
    /\ listar_reportes
         (fst (crear_reporte clock1 clock2 (json_request current_example) (Some three_rows)))
       = (fst (crear_reporte clock1 clock2 (json_request current_example) (Some three_rows)),
          Ok {| status := 200;
                body := JList
                  (JDict {[ "id" := JInt id;
                            "lat" := JFloat (real_cell lat);
                            "lon" := JFloat (real_cell lon);
                            "fecha" := JStr (p_fecha p);
                            "foto_base64" := foto;
                            "mime" := mime;
                            "filename" := filename;
                            "accuracy" :=
                              match p_accuracy p with
                              | JFloat f =>
                                  if PrimFloat.is_nan f then JNull else JFloat (real_cell f)
                              | _ => JNull
                              end;
                            "created_at" := JStr (p_created_at p) ]}
                   :: rest) |})
    /\ rest ≡ₚ old
    /\ (text_or_null (p_foto_base64 p) = true -> foto = p_foto_base64 p)
    /\ (text_or_null (p_mime p) = true -> mime = p_mime p)
    /\ (text_or_null (p_filename p) = true -> filename = p_filename p).
Proof.
  apply (created_report_is_listed_first clock1 clock2 (json_request current_example)
           three_rows).
  - reflexivity.
  - evaluate.
  - reflexivity.
Defined.

(** A negative zero as latitude, longitude and accuracy is accepted and
    comes back as zero. *)
Example negative_zero_listed :
  exists db',
    crear_reporte clock1 clock2
      (json_request {[ "lat" := JFloat (-0); "lon" := JFloat (-0);
                       "fecha" := JStr "f"; "accuracy" := JFloat (-0) ]})
      (Some fresh_store)
    = (db', Ok {| status := 201; body := JDict {[ "ok" := JBool true; "id" := JInt 1 ]} |})
    /\ listar_reportes db'
       = (db', Ok {| status := 200;
                     body := JList
                       [ JDict {[ "id" := JInt 1; "lat" := JFloat 0; "lon" := JFloat 0;
                                  "fecha" := JStr "f"; "foto_base64" := JNull;
                                  "mime" := JNull; "filename" := JNull;
                                  "accuracy" := JFloat 0;
                                  "created_at" := JStr "2025-08-20T20:00:05" ]} ] |}).
Proof. eexists. split; evaluate. Qed.

(** The report of that example as GET /reportes returns it. *)
Example current_example_listed :
  exists t' rest,
    fst (crear_reporte clock1 clock2 (json_request current_example) (Some fresh_store))
      = Some t'
    /\ select_rows t' = rest
    /\ report_json t' <$> rest
       = [ JDict {[ "id" := JInt 1; "lat" := JFloat 10.1; "lon" := JFloat (-74.8);
                    "fecha" := JStr "2025-08-20T20:00:00Z"; "foto_base64" := JStr "QUJD";
                    "mime" := JStr "image/jpeg"; "filename" := JStr "x.jpg";
                    "accuracy" := JFloat 12.3;
                    "created_at" := JStr "2025-08-20T20:00:05" ]} ].
Proof. do 2 eexists. split; [evaluate|]. split; [evaluate|]. evaluate. Qed.

(** X9, witness: [long_history] on a new store creates four reports,
    deleting the first two on the way; the two rows left are both listed. *)
Lemma history_lists_every_report_witness :
  exists t,
    fst (run long_history (fst (init_db None))) = Some t
    /\ columns t = reportes_columns
    /\ Forall (coordinates_in_range t) (rows t)
    /\ StronglySorted Z.lt (rowid <$> rows t)
    /\ listar_reportes (fst (run long_history (fst (init_db None))))
       = (fst (run long_history (fst (init_db None))),
          Ok {| status := 200; body := JList (report_json t <$> reverse (rows t)) |}).
Proof.
  apply (history_lists_every_report long_history
           (fst (run long_history (fst (init_db None))))
           (snd (run long_history (fst (init_db None))))).
  apply surjective_pairing.
Defined.

(** The keys that [long_history] leaves in the store, and their listing. *)
Example long_history_rows :
  exists t,
    fst (run long_history (fst (init_db None))) = Some t
    /\ rowid <$> rows t = [3; 4]
    /\ rowid <$> select_rows t = [4; 3].
Proof. eexists. split; [evaluate|]. split; evaluate. Qed.

(** X10, witness: [long_history] issues the ids 1, 2, 3 and 4: the two
    requests that it refuses take none, and the deletion does not restart
    the count. *)
Lemma issued_ids_are_consecutive_witness :
  (exists t,
     fst (run long_history (fst (init_db None))) = Some t
     /\ issued_ids (snd (run long_history (fst (init_db None)))) = seqZ 1 (seq t)
     /\ seq t = Z.of_nat (length (issued_ids (snd (run long_history (fst (init_db None))))))
     /\ Forall (fun r => 0 < rowid r <= seq t) (rows t))
  /\ issued_ids (snd (run long_history (fst (init_db None)))) = [1; 2; 3; 4].
Proof.
  split; [|evaluate].
  apply (issued_ids_are_consecutive long_history
           (fst (run long_history (fst (init_db None))))
           (snd (run long_history (fst (init_db None))))).
  apply surjective_pairing.
Defined.


(** A fecha with a lone surrogate is bound before the mime: with a list as
    mime the INSERT fails on the fecha, with UnicodeEncodeError. *)
Example surrogate_fecha_fails_first :
  crear_reporte clock1 clock2 (json_request surrogate_fecha_list_mime_example)
                (Some three_rows)
  = (Some three_rows, Raise UnicodeEncodeError).
Proof. evaluate. Qed.

(** X12, witness: the table of three rows, whose counter of keys is 7, is
    emptied. *)
Lemma delete_then_list_is_empty_witness :
  exists t',
    fst (borrar_todos (Some three_rows)) = Some t'
    /\ http_status (snd (borrar_todos (Some three_rows))) = 200
    /\ columns t' = columns three_rows /\ rows t' = [] /\ seq t' = seq three_rows
    /\ listar_reportes (Some t') = (Some t', Ok {| status := 200; body := JList [] |})
    /\ fst (borrar_todos (Some t')) = Some t'
    /\ (forall now1 now2 req t'' resp,
          crear_reporte now1 now2 req (Some t') = (Some t'', Ok resp) ->
          status resp = 201 ->
          exists new, rows t'' = [new] /\ seq three_rows < rowid new
                      /\ body resp = JDict {[ "ok" := JBool true; "id" := JInt (rowid new) ]}).
Proof. apply (delete_then_list_is_empty three_rows). evaluate. Defined.

(** X13, examples: the older table gets its two missing columns; the table
    that writes MIME is refused the column mime, and nothing is added. *)
Example init_db_never_loses_data_examples :
  forallb (addable older_table) (missing older_table) = true
  /\ forallb (addable upper_case_table) (missing upper_case_table) = false
  /\ init_db (Some upper_case_table) = (Some (extend upper_case_table []), Raise SqliteError).
Proof. repeat split; evaluate. Qed.

(** X14, witness: the older table without accuracy and created_at. *)
Lemma init_db_restores_service_witness :
  (missing older_table <> [] ->
     listar_reportes (Some older_table) = (Some older_table, Raise SqliteError)
     /\ forall now1 now2 req,
          fst (crear_reporte now1 now2 req (Some older_table)) = Some older_table
          /\ http_status (snd (crear_reporte now1 now2 req (Some older_table)))
             ∈ [400; 415; 500])
  /\ exists t' out,
       init_db (Some older_table) = (Some t', Ok tt)
       /\ up_to_date t' = true
       /\ listar_reportes (Some t')
          = (Some t', Ok {| status := 200; body := JList (report_json t' <$> out) |})
       /\ out ≡ₚ pad_row (length (missing older_table))
                   <$> List.filter (listed older_table) (rows older_table).
Proof.
  apply (init_db_restores_service older_table).
  - unfold subschema. apply (bool_decide_unpack _). by vm_compute.
  - evaluate.
Defined.

(** The listing of the older table before and after init_db. *)
Example older_table_served :
  snd (listar_reportes (Some older_table)) = Raise SqliteError
  /\ (exists t', fst (init_db (Some older_table)) = Some t'
                 /\ rowid <$> select_rows t' = [4; 1]
                 /\ report_fields t' {| rowid := 4;
                                        cells := [SReal 4.5; SReal 1; SText "2025-08-21"; SNull;
                                                  SText "image/png"; SText "a.png";
                                                  SNull; SNull] |} !! "accuracy"
                    = Some JNull).
Proof. split; [evaluate|]. eexists. split; [evaluate|]. split; evaluate. Qed.

(** X16, witness: a lat of 10^400 beside a lon that is no number and a
    photo that is a number: the normalizer raises OverflowError before it
    looks at them. *)
Lemma oversized_number_not_caught_witness :
  parse_report_payload clock1 clock2 (JDict oversized_lat_example) = Raise OverflowError
  /\ crear_reporte clock1 clock2 (json_request oversized_lat_example) (Some three_rows)
     = (Some three_rows, Raise OverflowError).
Proof.
  apply (oversized_number_not_caught clock1 clock2 (json_request oversized_lat_example)
           oversized_lat_example (Some three_rows)).
  - reflexivity.
  - reflexivity.
  - evaluate.
Defined.
